(** * District KPI aggregation and ranking: a shallow embedding

    The Python sources embedded here are [utils.py] ([safe_get],
    [find_district_data], [get_top_bottom_by_field] and its two wrappers),
    [analyze_district_kpis.py] ([_calculate_old_work_completed],
    [_safe_convert], [_fetch_and_process_state_data_for_date] with its total
    marks, [calculate_ranks], [_get_kpi_value], [_calculate_change],
    [_calculate_rank_change], [_extract_performer_summary] and the top and
    bottom performers of [analyze]), [analyze_farm_ponds.py]
    ([process_component_data], the loops that collect its results and the
    position of the district against the state), [analyze_old_works.py]
    ([find_category_leaders], the completed works of a block and the change
    maps of [analyze]) and [jsm_dashboard_generator.py] ([get_grade_label],
    [get_grade_class], [get_completion_status_text]).

    Python values are dynamically typed, so the embedding works over one
    type [value] of JSON-like values.  A Python [float] is a binary64 number
    and is represented by Rocq's primitive [float]; a Python [int] is a [Z].
    A call that may raise returns a [result]. *)

From Stdlib Require Import ZArith Floats String Ascii List Bool Lia Permutation.
From stdpp Require Import gmap strings list sorting.

Set Warnings "-inexact-float,-register-all".
Local Open Scope Z_scope.

(** ** Exceptions *)

Variant exn := ValueError | TypeError | OverflowError | AttributeError | ZeroDivisionError.

Inductive result (A : Type) : Type :=
| Ok (a : A)
| Raise (e : exn).
Arguments Ok {A} a.
Arguments Raise {A} e.

#[global] Instance result_ret : MRet result := fun A a => Ok a.
#[global] Instance result_bind : MBind result :=
  fun A B k c => match c with Ok a => k a | Raise e => Raise e end.

(** ** Values *)

Inductive value : Type :=
| VNone
| VBool (b : bool)
| VInt (z : Z)
| VFloat (f : float)
| VStr (s : string)
| VList (l : list value)
| VDict (d : list (string * value)).

(** A Python [dict] with string keys, in insertion order. *)
Abbreviation dict := (list (string * value)).

(** [d.get(k, default)] *)
Fixpoint dict_get_or (d : dict) (k : string) (default : value) : value :=
  match d with
  | [] => default
  | (k', v) :: d' => if String.eqb k' k then v else dict_get_or d' k default
  end.

(** [d.get(k)] *)
Definition dict_get (d : dict) (k : string) : value := dict_get_or d k VNone.

(** [d[k] = v]: the key keeps its place when it is already there. *)
Fixpoint dict_set (d : dict) (k : string) (v : value) : dict :=
  match d with
  | [] => [(k, v)]
  | (k', v') :: d' => if String.eqb k' k then (k, v) :: d' else (k', v') :: dict_set d' k v
  end.

(** ** Numbers

    Every finite binary64 number is an integer multiple of 2^-1074, so a
    finite number is compared through the integer [x * 2^1074].  Python
    compares an [int] with a [float] by their exact values, and two floats as
    IEEE 754 does, which is again the order of their exact values
    ([num_ltb_float] and [num_eqb_float] below). *)

Definition SCALE : Z := 1074.

Definition float_scaled (f : float) : Z :=
  match Prim2SF f with
  | S754_finite s m e =>
      let n := Z.shiftl (Zpos m) (e + SCALE) in if s then - n else n
  | _ => 0
  end.

Variant ext := ENaN | ENegInf | EFin (z : Z) | EPosInf.

Definition float_ext (f : float) : ext :=
  if is_nan f then ENaN
  else if is_infinity f then (if get_sign f then ENegInf else EPosInf)
  else EFin (float_scaled f).

Definition int_ext (z : Z) : ext := EFin (Z.shiftl z SCALE).

(** [isinstance(v, (int, float))]; a [bool] is an [int] in Python. *)
Definition is_number (v : value) : bool :=
  match v with
  | VBool _ | VInt _ | VFloat _ => true
  | _ => false
  end.

Definition num_ext (v : value) : option ext :=
  match v with
  | VBool b => Some (int_ext (Z.b2z b))
  | VInt z => Some (int_ext z)
  | VFloat f => Some (float_ext f)
  | _ => None
  end.

Definition ext_eqb (a b : ext) : bool :=
  match a, b with
  | ENegInf, ENegInf | EPosInf, EPosInf => true
  | EFin x, EFin y => x =? y
  | _, _ => false
  end.

Definition ext_ltb (a b : ext) : bool :=
  match a, b with
  | ENaN, _ | _, ENaN => false
  | ENegInf, ENegInf => false
  | ENegInf, _ => true
  | EFin x, EFin y => x <? y
  | EFin _, EPosInf => true
  | _, _ => false
  end.

Definition ext_leb (a b : ext) : bool := ext_ltb a b || ext_eqb a b.

(** [a == b], [a < b] and [a >= b] between numbers; on other operands the
    boolean versions answer [false] and the checked version raises. *)
Definition num_eqb (a b : value) : bool :=
  match num_ext a, num_ext b with
  | Some x, Some y => ext_eqb x y
  | _, _ => false
  end.

Definition num_ltb (a b : value) : bool :=
  match num_ext a, num_ext b with
  | Some x, Some y => ext_ltb x y
  | _, _ => false
  end.

Definition num_ge (a b : value) : result bool :=
  match num_ext a, num_ext b with
  | Some x, Some y => Ok (ext_leb y x)
  | _, _ => Raise TypeError
  end.

(** Conversion of an [int] to a [float] rounds to nearest even and raises
    [OverflowError] from [2^1024 - 2^970] on, the first integer that rounds
    to [2^1024]. *)
Definition DBL_OVERFLOW : Z := 2 ^ 1024 - 2 ^ 970.

Definition nearest_float (z : Z) : float :=
  SF2Prim (binary_normalize prec emax z 0 false).

Definition int_to_float (z : Z) : result float :=
  if DBL_OVERFLOW <=? Z.abs z then Raise OverflowError
  else Ok (nearest_float z).

Definition bool_to_float (b : bool) : float := if b then 1%float else 0%float.

(** The float an arithmetic operator computes with. *)
Definition operand_float (v : value) : result float :=
  match v with
  | VBool b => Ok (bool_to_float b)
  | VInt z => int_to_float z
  | VFloat f => Ok f
  | _ => Raise TypeError
  end.

Definition operand_int (v : value) : option Z :=
  match v with
  | VBool b => Some (Z.b2z b)
  | VInt z => Some z
  | _ => None
  end.

(** [a + b]: numbers, and concatenation of two strings or two lists. *)
Definition py_add (a b : value) : result value :=
  match a, b with
  | VStr s, VStr t => Ok (VStr (s +:+ t))
  | VList l, VList k => Ok (VList (l ++ k))
  | _, _ =>
      match operand_int a, operand_int b with
      | Some x, Some y => Ok (VInt (x + y))
      | _, _ =>
          x ← operand_float a; y ← operand_float b; Ok (VFloat (x + y)%float)
      end
  end.

(** [a * b] where one operand is a float, as at every call site below:
    nothing but a number multiplies with a float. *)
Definition py_mul (a b : value) : result value :=
  match operand_int a, operand_int b with
  | Some x, Some y => Ok (VInt (x * y))
  | _, _ => x ← operand_float a; y ← operand_float b; Ok (VFloat (x * y)%float)
  end.

(** [a / b] between two ints is the correctly rounded quotient; it raises
    [OverflowError] when that is beyond the floats. *)
Definition int_quotient (a b : Z) : float :=
  let s := xorb (a <? 0) (b <? 0) in
  match a with
  | 0 => if s then (-0)%float else 0%float
  | _ =>
      let '(mz, ez, lz) := SFdiv_core_binary prec emax (Z.abs a) 0 (Z.abs b) 0 in
      SF2Prim (binary_round_aux prec emax s mz ez lz)
  end.

Definition int_truediv (a b : Z) : result float :=
  if DBL_OVERFLOW * Z.abs b <=? Z.abs a then Raise OverflowError
  else Ok (int_quotient a b).

Definition py_truediv (a b : value) : result value :=
  if negb (is_number a && is_number b) then Raise TypeError
  else if num_eqb b (VInt 0) then Raise ZeroDivisionError
  else
    match operand_int a, operand_int b with
    | Some x, Some y => q ← int_truediv x y; Ok (VFloat q)
    | _, _ => x ← operand_float a; y ← operand_float b; Ok (VFloat (x / y)%float)
    end.

(** [math.isnan(v)] and [math.isinf(v)] convert their argument to a float;
    an int that converts is neither. *)
Definition math_isnan (v : value) : result bool :=
  match v with
  | VFloat f => Ok (is_nan f)
  | VBool _ => Ok false
  | VInt z => _ ← int_to_float z; Ok false
  | _ => Raise TypeError
  end.

Definition math_isinf (v : value) : result bool :=
  match v with
  | VFloat f => Ok (is_infinity f)
  | VBool _ => Ok false
  | VInt z => _ ← int_to_float z; Ok false
  | _ => Raise TypeError
  end.

(** [math.isnan(v) or math.isinf(v)] *)
Definition nan_or_inf (v : value) : result bool :=
  n ← math_isnan v; if n : bool then Ok true else math_isinf v.

(** [int(f)] truncates toward zero; [f == int(f)] holds of whole numbers. *)
Definition float_trunc (f : float) : Z := Z.quot (float_scaled f) (2 ^ SCALE).

Definition float_is_whole (f : float) : bool :=
  Z.rem (float_scaled f) (2 ^ SCALE) =? 0.

(** [round(x, 2)] of a float: the double nearest to the decimal that is
    nearest to [x] with two digits after the point (ties of the decimal to
    the even digit).  From [2^53 / 100] on, doubles are farther apart than
    0.01 and every double rounds to itself. *)
Definition round_half_even_div (n d : Z) : Z :=
  let q := n / d in
  match 2 * (n mod d) ?= d with
  | Lt => q
  | Gt => q + 1
  | Eq => if Z.even q then q else q + 1
  end.

Definition round2 (x : float) : float :=
  if is_nan x || is_infinity x then x
  else
    let n := round_half_even_div (Z.abs (float_scaled x) * 100) (2 ^ SCALE) in
    if 2 ^ 53 <=? n then x
    else
      let r := (of_uint63 (Uint63.of_Z n) / 100)%float in
      if get_sign x then (- r)%float else r.

(** [round(v, 2)]: an [int] rounds to itself. *)
Definition py_round2 (v : value) : result value :=
  match v with
  | VFloat f => Ok (VFloat (round2 f))
  | VInt z => Ok (VInt z)
  | VBool b => Ok (VInt (Z.b2z b))
  | _ => Raise TypeError
  end.

(** Truth value of a Python object. *)
Definition py_truthy (v : value) : bool :=
  match v with
  | VNone => false
  | VBool b => b
  | VInt z => negb (z =? 0)
  | VFloat f => negb (ext_eqb (float_ext f) (EFin 0))
  | VStr s => negb (String.eqb s "")
  | VList l => match l with [] => false | _ => true end
  | VDict d => match d with [] => false | _ => true end
  end.

(** ** Text

    A Python [str] is a sequence of code points; a [string] holds the UTF-8
    bytes of the text, so that a literal reads as the text it shows.
    [str.strip()] removes the characters for which [str.isspace()] holds
    and [str.upper()] replaces each character by its upper-case form, which
    may be two or three characters long; both are those of Unicode 14.0, the
    version of Python 3.11.  [str.lower()] is embedded for the ASCII letters
    only: the code compares its result with ASCII words. *)

Definition byte (c : ascii) : N := N_of_ascii c.

(** A continuation byte, [10xxxxxx]. *)
Definition is_continuation (c : ascii) : bool :=
  ((128 <=? byte c) && (byte c <? 192))%N.

Definition continues (s : string) : bool :=
  match s with
  | String c _ => is_continuation c
  | EmptyString => false
  end.

(** The characters of a text: a character begins at every byte that is not
    a continuation byte. *)
Fixpoint characters (s : string) : list string :=
  match s with
  | EmptyString => []
  | String b r =>
      match characters r with
      | c :: l => if continues c then String b c :: l else String b EmptyString :: c :: l
      | [] => [String b EmptyString]
      end
  end.

Definition join (l : list string) : string := foldr append EmptyString l.

(** The code point of a character; [None] for bytes that are not the UTF-8
    form of a code point. *)
Definition code_point (c : string) : option N :=
  match c with
  | String b1 EmptyString => if (byte b1 <? 128)%N then Some (byte b1) else None
  | String b1 (String b2 EmptyString) =>
      let n := ((byte b1 - 192) * 64 + (byte b2 - 128))%N in
      if ((194 <=? byte b1) && (byte b1 <? 224))%N && is_continuation b2
      then Some n else None
  | String b1 (String b2 (String b3 EmptyString)) =>
      let n := ((byte b1 - 224) * 4096 + (byte b2 - 128) * 64 + (byte b3 - 128))%N in
      if ((224 <=? byte b1) && (byte b1 <? 240))%N && is_continuation b2 &&
         is_continuation b3 && (2048 <=? n)%N
      then Some n else None
  | String b1 (String b2 (String b3 (String b4 EmptyString))) =>
      let n := ((byte b1 - 240) * 262144 + (byte b2 - 128) * 4096 +
                (byte b3 - 128) * 64 + (byte b4 - 128))%N in
      if ((240 <=? byte b1) && (byte b1 <? 245))%N && is_continuation b2 &&
         is_continuation b3 && is_continuation b4 &&
         ((65536 <=? n) && (n <? 1114112))%N
      then Some n else None
  | _ => None
  end.

(** The UTF-8 form of a code point. *)
Definition utf8 (n : N) : string :=
  let b (k : N) := ascii_of_N k in
  if (n <? 128)%N then String (b n) EmptyString
  else if (n <? 2048)%N then
    String (b (192 + n / 64)%N) (String (b (128 + n mod 64)%N) EmptyString)
  else if (n <? 65536)%N then
    String (b (224 + n / 4096)%N)
      (String (b (128 + (n / 64) mod 64)%N) (String (b (128 + n mod 64)%N) EmptyString))
  else
    String (b (240 + n / 262144)%N)
      (String (b (128 + (n / 4096) mod 64)%N)
         (String (b (128 + (n / 64) mod 64)%N)
            (String (b (128 + n mod 64)%N) EmptyString))).

(** [str.isspace()] of one character. *)
Definition is_space_code (n : N) : bool :=
  ((9 <=? n) && (n <=? 13) || (28 <=? n) && (n <=? 32) || (n =? 0x85) || (n =? 0xA0) ||
   (n =? 0x1680) || (0x2000 <=? n) && (n <=? 0x200A) || (n =? 0x2028) || (n =? 0x2029) ||
   (n =? 0x202F) || (n =? 0x205F) || (n =? 0x3000))%N.

Definition is_space (c : string) : bool :=
  match code_point c with
  | Some n => is_space_code n
  | None => false
  end.

Fixpoint lstrip (l : list string) : list string :=
  match l with
  | c :: l' => if is_space c then lstrip l' else l
  | [] => []
  end.

Definition rstrip (l : list string) : list string := reverse (lstrip (reverse l)).

Definition py_strip (s : string) : string := join (rstrip (lstrip (characters s))).

(** The upper-case forms.  A row of [upper_ranges] stands for [count]
    characters, [step] apart from [first] on, each as far from its
    upper-case form as [first] is from [upper]; [upper_special] lists the
    characters whose upper-case form has several characters. *)
Definition upper_ranges : list (N * N * N * N) :=
  [(0x61, 26, 1, 0x41); (0xB5, 1, 1, 0x39C); (0xE0, 23, 1, 0xC0);
   (0xF8, 7, 1, 0xD8); (0xFF, 1, 1, 0x178); (0x101, 24, 2, 0x100);
   (0x131, 1, 1, 0x49); (0x133, 3, 2, 0x132); (0x13A, 8, 2, 0x139);
   (0x14B, 23, 2, 0x14A); (0x17A, 3, 2, 0x179); (0x17F, 1, 1, 0x53);
   (0x180, 1, 1, 0x243); (0x183, 2, 2, 0x182); (0x188, 1, 1, 0x187);
   (0x18C, 1, 1, 0x18B); (0x192, 1, 1, 0x191); (0x195, 1, 1, 0x1F6);
   (0x199, 1, 1, 0x198); (0x19A, 1, 1, 0x23D); (0x19E, 1, 1, 0x220);
   (0x1A1, 3, 2, 0x1A0); (0x1A8, 1, 1, 0x1A7); (0x1AD, 1, 1, 0x1AC);
   (0x1B0, 1, 1, 0x1AF); (0x1B4, 2, 2, 0x1B3); (0x1B9, 1, 1, 0x1B8);
   (0x1BD, 1, 1, 0x1BC); (0x1BF, 1, 1, 0x1F7); (0x1C5, 1, 1, 0x1C4);
   (0x1C6, 1, 1, 0x1C4); (0x1C8, 1, 1, 0x1C7); (0x1C9, 1, 1, 0x1C7);
   (0x1CB, 1, 1, 0x1CA); (0x1CC, 1, 1, 0x1CA); (0x1CE, 8, 2, 0x1CD);
   (0x1DD, 1, 1, 0x18E); (0x1DF, 9, 2, 0x1DE); (0x1F2, 1, 1, 0x1F1);
   (0x1F3, 1, 1, 0x1F1); (0x1F5, 1, 1, 0x1F4); (0x1F9, 20, 2, 0x1F8);
   (0x223, 9, 2, 0x222); (0x23C, 1, 1, 0x23B); (0x23F, 2, 1, 0x2C7E);
   (0x242, 1, 1, 0x241); (0x247, 5, 2, 0x246); (0x250, 1, 1, 0x2C6F);
   (0x251, 1, 1, 0x2C6D); (0x252, 1, 1, 0x2C70); (0x253, 1, 1, 0x181);
   (0x254, 1, 1, 0x186); (0x256, 2, 1, 0x189); (0x259, 1, 1, 0x18F);
   (0x25B, 1, 1, 0x190); (0x25C, 1, 1, 0xA7AB); (0x260, 1, 1, 0x193);
   (0x261, 1, 1, 0xA7AC); (0x263, 1, 1, 0x194); (0x265, 1, 1, 0xA78D);
   (0x266, 1, 1, 0xA7AA); (0x268, 1, 1, 0x197); (0x269, 1, 1, 0x196);
   (0x26A, 1, 1, 0xA7AE); (0x26B, 1, 1, 0x2C62); (0x26C, 1, 1, 0xA7AD);
   (0x26F, 1, 1, 0x19C); (0x271, 1, 1, 0x2C6E); (0x272, 1, 1, 0x19D);
   (0x275, 1, 1, 0x19F); (0x27D, 1, 1, 0x2C64); (0x280, 1, 1, 0x1A6);
   (0x282, 1, 1, 0xA7C5); (0x283, 1, 1, 0x1A9); (0x287, 1, 1, 0xA7B1);
   (0x288, 1, 1, 0x1AE); (0x289, 1, 1, 0x244); (0x28A, 2, 1, 0x1B1);
   (0x28C, 1, 1, 0x245); (0x292, 1, 1, 0x1B7); (0x29D, 1, 1, 0xA7B2);
   (0x29E, 1, 1, 0xA7B0); (0x345, 1, 1, 0x399); (0x371, 2, 2, 0x370);
   (0x377, 1, 1, 0x376); (0x37B, 3, 1, 0x3FD); (0x3AC, 1, 1, 0x386);
   (0x3AD, 3, 1, 0x388); (0x3B1, 17, 1, 0x391); (0x3C2, 1, 1, 0x3A3);
   (0x3C3, 9, 1, 0x3A3); (0x3CC, 1, 1, 0x38C); (0x3CD, 2, 1, 0x38E);
   (0x3D0, 1, 1, 0x392); (0x3D1, 1, 1, 0x398); (0x3D5, 1, 1, 0x3A6);
   (0x3D6, 1, 1, 0x3A0); (0x3D7, 1, 1, 0x3CF); (0x3D9, 12, 2, 0x3D8);
   (0x3F0, 1, 1, 0x39A); (0x3F1, 1, 1, 0x3A1); (0x3F2, 1, 1, 0x3F9);
   (0x3F3, 1, 1, 0x37F); (0x3F5, 1, 1, 0x395); (0x3F8, 1, 1, 0x3F7);
   (0x3FB, 1, 1, 0x3FA); (0x430, 32, 1, 0x410); (0x450, 16, 1, 0x400);
   (0x461, 17, 2, 0x460); (0x48B, 27, 2, 0x48A); (0x4C2, 7, 2, 0x4C1);
   (0x4CF, 1, 1, 0x4C0); (0x4D1, 48, 2, 0x4D0); (0x561, 38, 1, 0x531);
   (0x10D0, 43, 1, 0x1C90); (0x10FD, 3, 1, 0x1CBD); (0x13F8, 6, 1, 0x13F0);
   (0x1C80, 1, 1, 0x412); (0x1C81, 1, 1, 0x414); (0x1C82, 1, 1, 0x41E);
   (0x1C83, 2, 1, 0x421); (0x1C85, 1, 1, 0x422); (0x1C86, 1, 1, 0x42A);
   (0x1C87, 1, 1, 0x462); (0x1C88, 1, 1, 0xA64A); (0x1D79, 1, 1, 0xA77D);
   (0x1D7D, 1, 1, 0x2C63); (0x1D8E, 1, 1, 0xA7C6); (0x1E01, 75, 2, 0x1E00);
   (0x1E9B, 1, 1, 0x1E60); (0x1EA1, 48, 2, 0x1EA0); (0x1F00, 8, 1, 0x1F08);
   (0x1F10, 6, 1, 0x1F18); (0x1F20, 8, 1, 0x1F28); (0x1F30, 8, 1, 0x1F38);
   (0x1F40, 6, 1, 0x1F48); (0x1F51, 4, 2, 0x1F59); (0x1F60, 8, 1, 0x1F68);
   (0x1F70, 2, 1, 0x1FBA); (0x1F72, 4, 1, 0x1FC8); (0x1F76, 2, 1, 0x1FDA);
   (0x1F78, 2, 1, 0x1FF8); (0x1F7A, 2, 1, 0x1FEA); (0x1F7C, 2, 1, 0x1FFA);
   (0x1FB0, 2, 1, 0x1FB8); (0x1FBE, 1, 1, 0x399); (0x1FD0, 2, 1, 0x1FD8);
   (0x1FE0, 2, 1, 0x1FE8); (0x1FE5, 1, 1, 0x1FEC); (0x214E, 1, 1, 0x2132);
   (0x2170, 16, 1, 0x2160); (0x2184, 1, 1, 0x2183); (0x24D0, 26, 1, 0x24B6);
   (0x2C30, 48, 1, 0x2C00); (0x2C61, 1, 1, 0x2C60); (0x2C65, 1, 1, 0x23A);
   (0x2C66, 1, 1, 0x23E); (0x2C68, 3, 2, 0x2C67); (0x2C73, 1, 1, 0x2C72);
   (0x2C76, 1, 1, 0x2C75); (0x2C81, 50, 2, 0x2C80); (0x2CEC, 2, 2, 0x2CEB);
   (0x2CF3, 1, 1, 0x2CF2); (0x2D00, 38, 1, 0x10A0); (0x2D27, 1, 1, 0x10C7);
   (0x2D2D, 1, 1, 0x10CD); (0xA641, 23, 2, 0xA640); (0xA681, 14, 2, 0xA680);
   (0xA723, 7, 2, 0xA722); (0xA733, 31, 2, 0xA732); (0xA77A, 2, 2, 0xA779);
   (0xA77F, 5, 2, 0xA77E); (0xA78C, 1, 1, 0xA78B); (0xA791, 2, 2, 0xA790);
   (0xA794, 1, 1, 0xA7C4); (0xA797, 10, 2, 0xA796); (0xA7B5, 8, 2, 0xA7B4);
   (0xA7C8, 2, 2, 0xA7C7); (0xA7D1, 1, 1, 0xA7D0); (0xA7D7, 2, 2, 0xA7D6);
   (0xA7F6, 1, 1, 0xA7F5); (0xAB53, 1, 1, 0xA7B3); (0xAB70, 80, 1, 0x13A0);
   (0xFF41, 26, 1, 0xFF21); (0x10428, 40, 1, 0x10400);
   (0x104D8, 36, 1, 0x104B0); (0x10597, 19, 2, 0x10570);
   (0x10598, 5, 2, 0x10571); (0x105A4, 7, 2, 0x1057D);
   (0x105B4, 3, 2, 0x1058D); (0x105BC, 1, 1, 0x10595);
   (0x10CC0, 51, 1, 0x10C80); (0x118C0, 32, 1, 0x118A0);
   (0x16E60, 32, 1, 0x16E40); (0x1E922, 34, 1, 0x1E900)]%N.

Definition upper_special : list (N * list N) :=
  [(0xDF, [0x53; 0x53]); (0x149, [0x2BC; 0x4E]); (0x1F0, [0x4A; 0x30C]);
   (0x390, [0x399; 0x308; 0x301]); (0x3B0, [0x3A5; 0x308; 0x301]);
   (0x587, [0x535; 0x552]); (0x1E96, [0x48; 0x331]); (0x1E97, [0x54; 0x308]);
   (0x1E98, [0x57; 0x30A]); (0x1E99, [0x59; 0x30A]); (0x1E9A, [0x41; 0x2BE]);
   (0x1F50, [0x3A5; 0x313]); (0x1F52, [0x3A5; 0x313; 0x300]);
   (0x1F54, [0x3A5; 0x313; 0x301]); (0x1F56, [0x3A5; 0x313; 0x342]);
   (0x1F80, [0x1F08; 0x399]); (0x1F81, [0x1F09; 0x399]);
   (0x1F82, [0x1F0A; 0x399]); (0x1F83, [0x1F0B; 0x399]);
   (0x1F84, [0x1F0C; 0x399]); (0x1F85, [0x1F0D; 0x399]);
   (0x1F86, [0x1F0E; 0x399]); (0x1F87, [0x1F0F; 0x399]);
   (0x1F88, [0x1F08; 0x399]); (0x1F89, [0x1F09; 0x399]);
   (0x1F8A, [0x1F0A; 0x399]); (0x1F8B, [0x1F0B; 0x399]);
   (0x1F8C, [0x1F0C; 0x399]); (0x1F8D, [0x1F0D; 0x399]);
   (0x1F8E, [0x1F0E; 0x399]); (0x1F8F, [0x1F0F; 0x399]);
   (0x1F90, [0x1F28; 0x399]); (0x1F91, [0x1F29; 0x399]);
   (0x1F92, [0x1F2A; 0x399]); (0x1F93, [0x1F2B; 0x399]);
   (0x1F94, [0x1F2C; 0x399]); (0x1F95, [0x1F2D; 0x399]);
   (0x1F96, [0x1F2E; 0x399]); (0x1F97, [0x1F2F; 0x399]);
   (0x1F98, [0x1F28; 0x399]); (0x1F99, [0x1F29; 0x399]);
   (0x1F9A, [0x1F2A; 0x399]); (0x1F9B, [0x1F2B; 0x399]);
   (0x1F9C, [0x1F2C; 0x399]); (0x1F9D, [0x1F2D; 0x399]);
   (0x1F9E, [0x1F2E; 0x399]); (0x1F9F, [0x1F2F; 0x399]);
   (0x1FA0, [0x1F68; 0x399]); (0x1FA1, [0x1F69; 0x399]);
   (0x1FA2, [0x1F6A; 0x399]); (0x1FA3, [0x1F6B; 0x399]);
   (0x1FA4, [0x1F6C; 0x399]); (0x1FA5, [0x1F6D; 0x399]);
   (0x1FA6, [0x1F6E; 0x399]); (0x1FA7, [0x1F6F; 0x399]);
   (0x1FA8, [0x1F68; 0x399]); (0x1FA9, [0x1F69; 0x399]);
   (0x1FAA, [0x1F6A; 0x399]); (0x1FAB, [0x1F6B; 0x399]);
   (0x1FAC, [0x1F6C; 0x399]); (0x1FAD, [0x1F6D; 0x399]);
   (0x1FAE, [0x1F6E; 0x399]); (0x1FAF, [0x1F6F; 0x399]);
   (0x1FB2, [0x1FBA; 0x399]); (0x1FB3, [0x391; 0x399]);
   (0x1FB4, [0x386; 0x399]); (0x1FB6, [0x391; 0x342]);
   (0x1FB7, [0x391; 0x342; 0x399]); (0x1FBC, [0x391; 0x399]);
   (0x1FC2, [0x1FCA; 0x399]); (0x1FC3, [0x397; 0x399]);
   (0x1FC4, [0x389; 0x399]); (0x1FC6, [0x397; 0x342]);
   (0x1FC7, [0x397; 0x342; 0x399]); (0x1FCC, [0x397; 0x399]);
   (0x1FD2, [0x399; 0x308; 0x300]); (0x1FD3, [0x399; 0x308; 0x301]);
   (0x1FD6, [0x399; 0x342]); (0x1FD7, [0x399; 0x308; 0x342]);
   (0x1FE2, [0x3A5; 0x308; 0x300]); (0x1FE3, [0x3A5; 0x308; 0x301]);
   (0x1FE4, [0x3A1; 0x313]); (0x1FE6, [0x3A5; 0x342]);
   (0x1FE7, [0x3A5; 0x308; 0x342]); (0x1FF2, [0x1FFA; 0x399]);
   (0x1FF3, [0x3A9; 0x399]); (0x1FF4, [0x38F; 0x399]);
   (0x1FF6, [0x3A9; 0x342]); (0x1FF7, [0x3A9; 0x342; 0x399]);
   (0x1FFC, [0x3A9; 0x399]); (0xFB00, [0x46; 0x46]); (0xFB01, [0x46; 0x49]);
   (0xFB02, [0x46; 0x4C]); (0xFB03, [0x46; 0x46; 0x49]);
   (0xFB04, [0x46; 0x46; 0x4C]); (0xFB05, [0x53; 0x54]);
   (0xFB06, [0x53; 0x54]); (0xFB13, [0x544; 0x546]); (0xFB14, [0x544; 0x535]);
   (0xFB15, [0x544; 0x53B]); (0xFB16, [0x54E; 0x546]);
   (0xFB17, [0x544; 0x53D])]%N.

Fixpoint expand_range (count : nat) (first step upper : N) : list (N * list N) :=
  match count with
  | O => []
  | S k => (first, [upper]) :: expand_range k (first + step)%N step (upper + step)%N
  end.

Definition upper_table : list (N * list N) :=
  Eval vm_compute in
    upper_special ++
    flat_map (fun r : N * N * N * N =>
                let '(first, count, step, upper) := r in
                expand_range (N.to_nat count) first step upper)
             upper_ranges.

Fixpoint upper_form (table : list (N * list N)) (n : N) : option (list N) :=
  match table with
  | [] => None
  | (m, u) :: table' => if (m =? n)%N then Some u else upper_form table' n
  end.

Definition upper_character (c : string) : string :=
  match code_point c with
  | Some n =>
      match upper_form upper_table n with
      | Some u => join (utf8 <$> u)
      | None => c
      end
  | None => c
  end.

Definition py_upper (s : string) : string := join (upper_character <$> characters s).

Definition lower_char (c : ascii) : ascii :=
  let n := nat_of_ascii c in
  if (65 <=? n)%nat && (n <=? 90)%nat then ascii_of_nat (n + 32) else c.

Fixpoint map_string (f : ascii -> ascii) (s : string) : string :=
  match s with
  | String c s' => String (f c) (map_string f s')
  | EmptyString => EmptyString
  end.

Definition py_lower (s : string) : string := map_string lower_char s.

(** ** utils.py: [safe_get] *)

(** The loop of [safe_get] over [keys]; [None] stands for the early
    [return default], also taken when [temp.get] raises because [temp] is
    not a dict. *)
Fixpoint safe_get_walk (temp : value) (keys : list string) : option value :=
  match keys with
  | [] => Some temp
  | key :: keys' =>
      match temp with
      | VNone => None
      | VDict d => safe_get_walk (dict_get d key) keys'
      | _ => None
      end
  end.

Definition is_nan_value (v : value) : bool :=
  match v with
  | VFloat f => is_nan f
  | _ => false
  end.

Definition safe_get (data : value) (keys : list string) (default : value) : value :=
  match data with
  | VDict _ =>
      match safe_get_walk data keys with
      | Some temp =>
          if is_nan_value temp then default
          else match temp with VNone => default | _ => temp end
      | None => default
      end
  | _ => default
  end.

(** ** Sorting

    [sorted] and [list.sort] are stable, also with [reverse=True], and a
    stable sort has one result: insertion from the right computes it.
    [before y x] says that [y] stays ahead of a later-inserted [x]. *)

Fixpoint insert_sorted {A} (before : A -> A -> bool) (x : A) (l : list A) : list A :=
  match l with
  | [] => [x]
  | y :: r => if before y x then y :: insert_sorted before x r else x :: y :: r
  end.

Definition sort_by {A} (before : A -> A -> bool) (l : list A) : list A :=
  foldr (insert_sorted before) [] l.

(** [sorted(l, key=key, reverse=reverse)] for numeric keys. *)
Definition py_sorted {A} (key : A -> value) (reverse : bool) (l : list A) : list A :=
  sort_by (fun y x => if reverse then num_ltb (key x) (key y)
                      else num_ltb (key y) (key x)) l.

(** ** utils.py: [get_top_bottom_by_field] *)

Record top_bottom := { top : option value; bottom : option value }.

(** One element of [valid_entries]: the original item and its value. *)
Record entry := { item : value; entry_value : value }.

Definition keep_entry (field_key : string) (nested_keys : list string)
    (name_key : string) (it : value) : option entry :=
  let key_path := nested_keys ++ [field_key] in
  let v := safe_get it key_path VNone in
  let name := safe_get it [name_key] VNone in
  if is_number v && num_eqb v v && py_truthy name
  then Some {| item := it; entry_value := v |}
  else None.

Definition get_top_bottom_by_field (data_list : list value) (field_key : string)
    (nested_keys : list string) (name_key : string) (higher_is_better : bool)
    : top_bottom :=
  let valid_entries := omap (keep_entry field_key nested_keys name_key) data_list in
  match py_sorted entry_value higher_is_better valid_entries with
  | [] => {| top := None; bottom := None |}
  | e :: es => {| top := Some (item e); bottom := Some (item (List.last es e)) |}
  end.

(** ** analyze_district_kpis.py: total marks *)

Definition TOTAL_MARKS_KEY : string := "total_marks".

(** [v.get(k, default)]: raises when [v] is not a dict. *)
Definition value_get (v : value) (k : string) (default : value) : result value :=
  match v with
  | VDict d => Ok (dict_get_or d k default)
  | _ => Raise AttributeError
  end.

(** The additions of the [try] that sums one district's marks. *)
Definition add_marks (dist_data : dict) : result value :=
  let total_score := VFloat 0 in
  let perf_data := dict_get_or dist_data "performance" (VDict []) in
  t ← value_get perf_data "target_marks" (VFloat 0);
  p ← value_get perf_data "payment_marks" (VFloat 0);
  tp ← py_add t p;
  total_score ← py_add total_score tp;
  m ← value_get (dict_get_or dist_data "farm_ponds" (VDict [])) "marks" (VFloat 0);
  total_score ← py_add total_score m;
  m ← value_get (dict_get_or dist_data "dugwell" (VDict [])) "marks" (VFloat 0);
  total_score ← py_add total_score m;
  m ← value_get (dict_get_or dist_data "amrit_sarovar" (VDict [])) "marks" (VFloat 0);
  total_score ← py_add total_score m;
  m ← value_get (dict_get_or dist_data "mybharat" (VDict [])) "marks" (VFloat 0);
  py_add total_score m.

(** The whole body of the [try]: the additions, the final check for NaN
    and Inf, and the rounding. *)
Definition sum_total_marks (dist_data : dict) : result value :=
  total_score ← add_marks dist_data;
  bad ← nan_or_inf total_score;
  let total_score := if bad : bool then VFloat 0 else total_score in
  py_round2 total_score.

(** [try: ... except Exception: dist_data[TOTAL_MARKS_KEY] = None] *)
Definition total_marks_of (dist_data : dict) : value :=
  match sum_total_marks dist_data with
  | Ok v => v
  | Raise _ => VNone
  end.

(** The loop over [processed_data_by_district.items()]. *)
Definition calculate_total_marks (processed_data_by_district : list (string * dict))
    : list (string * dict) :=
  List.map (fun '(dist_name, dist_data) =>
              (dist_name, dict_set dist_data TOTAL_MARKS_KEY (total_marks_of dist_data)))
           processed_data_by_district.

(** ** analyze_district_kpis.py: [calculate_ranks] *)

(** What [calculate_ranks] reads of one entry of [processed_state_data]:
    the name stored in it (the empty text when there is none) and its
    [total_marks]. *)
Record district := { name : string; total_marks : value }.

Definition district_of (dist_data : dict) : district :=
  {| name := match dict_get dist_data "name" with VStr s => s | _ => "" end;
     total_marks := dict_get dist_data TOTAL_MARKS_KEY |}.

(** [isinstance(marks, (int, float)) and not math.isnan(marks) and not
    math.isinf(marks)] *)
Definition valid_marks (marks : value) : result bool :=
  if is_number marks then
    n ← math_isnan marks;
    if n : bool then Ok false else i ← math_isinf marks; Ok (negb i)
  else Ok false.

Fixpoint valid_entries (data : list district) : result (list district) :=
  match data with
  | [] => Ok []
  | d :: rest =>
      b ← valid_marks (total_marks d);
      vs ← valid_entries rest;
      Ok (if b : bool then d :: vs else vs)
  end.

Record rank_state := {
  ranks : gmap string Z;
  current_rank : Z;
  last_score : value;
  districts_at_rank : Z
}.

Definition initial_rank_state : rank_state :=
  {| ranks := ∅; current_rank := 0; last_score := VFloat neg_infinity;
     districts_at_rank := 0 |}.

(** One turn of the loop over [sorted_districts]. *)
Definition rank_step (st : rank_state) (district_data : district) : rank_state :=
  let dist_name := name district_data in
  let current_score := total_marks district_data in
  let st' :=
    if negb (num_eqb current_score (last_score st))
    then {| ranks := ranks st;
            current_rank := current_rank st + districts_at_rank st;
            last_score := current_score;
            districts_at_rank := 1 |}
    else {| ranks := ranks st;
            current_rank := current_rank st;
            last_score := last_score st;
            districts_at_rank := districts_at_rank st + 1 |} in
  if negb (String.eqb dist_name "")
  then {| ranks := <[dist_name := current_rank st' + 1]> (ranks st');
          current_rank := current_rank st';
          last_score := last_score st';
          districts_at_rank := districts_at_rank st' |}
  else st'.

Definition calculate_ranks (processed_state_data : list district)
    : result (gmap string Z) :=
  match processed_state_data with
  | [] => Ok ∅
  | _ =>
      valid ← valid_entries processed_state_data;
      match valid with
      | [] => Ok ∅
      | _ =>
          let sorted_districts := py_sorted total_marks true valid in
          Ok (ranks (fold_left rank_step sorted_districts initial_rank_state))
      end
  end.

(** ** Conversions

    [float(s)] and [int(s)] of a text [s] are Python's own parsers; the
    development is parameterised by them ([None]: the text is not a number
    and the call raises [ValueError]). *)

Class Parsers := {
  float_of_str : string -> option float;
  int_of_str : string -> option Z
}.

(** [float(v)] *)
Definition py_float `{Parsers} (v : value) : result float :=
  match v with
  | VNone | VList _ | VDict _ => Raise TypeError
  | VBool b => Ok (bool_to_float b)
  | VInt z => int_to_float z
  | VFloat f => Ok f
  | VStr s => match float_of_str s with Some f => Ok f | None => Raise ValueError end
  end.

(** [int(v)] *)
Definition py_int `{Parsers} (v : value) : result Z :=
  match v with
  | VNone | VList _ | VDict _ => Raise TypeError
  | VBool b => Ok (Z.b2z b)
  | VInt z => Ok z
  | VFloat f =>
      if is_nan f then Raise ValueError
      else if is_infinity f then Raise OverflowError
      else Ok (float_trunc f)
  | VStr s => match int_of_str s with Some z => Ok z | None => Raise ValueError end
  end.

(** [try: c except (ValueError, TypeError): default] *)
Definition except_value_type {A} (c : result A) (default : A) : result A :=
  match c with
  | Raise ValueError | Raise TypeError => Ok default
  | _ => c
  end.

(** ** analyze_district_kpis.py: [_safe_convert], [_calculate_change],
    [_calculate_rank_change] *)

Variant target_type := float_type | int_type.

Definition _safe_convert `{Parsers} (v : value) (t : target_type) (default : value)
    : result value :=
  match v with
  | VNone => Ok default
  | _ =>
      match t with
      | float_type =>
          except_value_type
            (converted ← py_float v;
             if is_nan converted || is_infinity converted then Ok default
             else Ok (VFloat converted))
            default
      | int_type =>
          except_value_type (converted ← py_int v; Ok (VInt converted)) default
      end
  end.

Definition _calculate_change `{Parsers} (current_val previous_val : value)
    : result value :=
  num_current ← _safe_convert current_val float_type VNone;
  num_previous ← _safe_convert previous_val float_type VNone;
  match num_current, num_previous with
  | VFloat c, VFloat p =>
      let change := (c - p)%float in
      if is_nan change || is_infinity change then Ok VNone
      else if float_is_whole change then Ok (VInt (float_trunc change))
      else Ok (VFloat (round2 change))
  | _, _ => Ok VNone
  end.

Definition _calculate_rank_change `{Parsers} (current_rank previous_rank : value)
    : result value :=
  match current_rank, previous_rank with
  | VNone, _ | _, VNone => Ok VNone
  | _, _ =>
      except_value_type
        (p ← py_int previous_rank; c ← py_int current_rank; Ok (VInt (p - c)))
        VNone
  end.

(** ** analyze_farm_ponds.py *)

Module FarmPonds.

Definition SCORE_KEY : string := "marks".
Definition COUNT_KEY : string := "actual_count".
Definition NAME_KEY : string := "name".

(** The processing of [achievement_percentage]. *)
Definition ach_perc_processed `{Parsers} (ach_perc_raw : value) : result value :=
  if is_number ach_perc_raw then
    i ← math_isinf ach_perc_raw;
    if i : bool then Ok (VStr "Inf") else py_round2 ach_perc_raw
  else
    match ach_perc_raw with
    | VStr s =>
        match float_of_str s with
        | Some num_val =>
            Ok (if is_infinity num_val then VStr "Inf" else VFloat (round2 num_val))
        | None =>
            Ok (if String.eqb (py_lower (py_strip s)) "inf" then VStr "Inf"
                else VStr "N/A")
        end
    | _ => Ok (VStr "N/A")
    end.

Definition process_component_data `{Parsers} (data : value) : result value :=
  if negb (py_truthy data) then Ok VNone
  else
    score ← except_value_type (py_float (safe_get data [SCORE_KEY] (VFloat 0))) 0%float;
    count ← except_value_type (py_int (safe_get data [COUNT_KEY] (VInt 0))) 0;
    target ←
      match safe_get data ["target"] VNone with
      | VNone => Ok (VStr "N/A")
      | target_raw =>
          except_value_type (t ← py_int target_raw; Ok (VInt t)) (VStr "N/A")
      end;
    ach ← ach_perc_processed (safe_get data ["achievement_percentage"] VNone);
    Ok (VDict [("name", safe_get data [NAME_KEY] VNone);
               (COUNT_KEY, VInt count);
               (SCORE_KEY, VFloat (round2 score));
               ("target", target);
               ("achievement_percentage", ach)]).

(** [_fetch_and_process_data_for_date], step 1: the loop that fills
    [state_results_processed] from the fetched state-level results. *)
Fixpoint state_results_processed `{Parsers} (state_results_raw : list value)
    : result (list value) :=
  match state_results_raw with
  | [] => Ok []
  | district_raw :: rest =>
      processed ← process_component_data district_raw;
      others ← state_results_processed rest;
      Ok (if py_truthy processed then processed :: others else others)
  end.

(** [v.get(k)] and [v[k]] of a processed record. *)
Definition field (v : value) (k : string) : value :=
  match v with
  | VDict d => dict_get d k
  | _ => VNone
  end.

(** Step 3, the inner loop: the panchayats of one block, the five with the
    highest count. *)
Fixpoint panchayat_processed_list `{Parsers} (panchayat_results_raw : list value)
    : result (list value) :=
  match panchayat_results_raw with
  | [] => Ok []
  | panchayat :: rest =>
      panchayat_processed ← process_component_data panchayat;
      others ← panchayat_processed_list rest;
      Ok (if py_truthy panchayat_processed && py_truthy (field panchayat_processed "name")
          then VDict [("name", field panchayat_processed "name");
                      (COUNT_KEY, field panchayat_processed COUNT_KEY)] :: others
          else others)
  end.

Definition top_5_panchayats `{Parsers} (panchayat_results_raw : list value)
    : result (list value) :=
  l ← panchayat_processed_list panchayat_results_raw;
  Ok (take 5 (py_sorted (fun x => field x COUNT_KEY) true l)).

(** Step 3, the loop over the blocks; [fetch_panchayats] stands for the
    fetch of one block's panchayat results, by block name. *)
Fixpoint processed_blocks `{Parsers} (fetch_panchayats : value -> list value)
    (block_results_raw : list value) : result (list value) :=
  match block_results_raw with
  | [] => Ok []
  | block_data :: rest =>
      block_processed ← process_component_data block_data;
      if negb (py_truthy block_processed) || negb (py_truthy (field block_processed "name"))
      then processed_blocks fetch_panchayats rest
      else
        let block_name := field block_processed "name" in
        top5 ← top_5_panchayats (fetch_panchayats block_name);
        others ← processed_blocks fetch_panchayats rest;
        Ok (VDict [("name", block_name);
                   (COUNT_KEY, field block_processed COUNT_KEY);
                   (SCORE_KEY, field block_processed SCORE_KEY);
                   ("top_5_panchayats", VList top5)] :: others)
  end.

Definition block_level_data `{Parsers} (fetch_panchayats : value -> list value)
    (block_results_raw : list value) : result (list value) :=
  l ← processed_blocks fetch_panchayats block_results_raw;
  Ok (py_sorted (fun x => field x COUNT_KEY) true l).

End FarmPonds.

(** ** analyze_old_works.py: the per-category changes of [analyze] *)

Module OldWorks.

Definition OLD_NRM_TARGET_CATEGORIES : list string :=
  ["Talab Nirman"; "Check_Stop Dam"; "Recharge Pit"; "Koop Nirman";
   "Percolation Talab"; "Khet Talab"; "Other NRM Work"].

Record category_change := { completed_change : Z; marks_change : float }.

(** The body of the loop over the categories, up to the test. *)
Definition category_delta `{Parsers} (curr_types prev_types : value)
    (category : string) : result category_change :=
  curr_cat_data ← value_get curr_types category (VDict []);
  prev_cat_data ← value_get prev_types category (VDict []);
  curr_completed ← py_int (safe_get curr_cat_data ["completed"] (VInt 0));
  prev_completed ← py_int (safe_get prev_cat_data ["completed"] (VInt 0));
  curr_marks ← py_float (safe_get curr_cat_data ["marks"] (VFloat 0));
  prev_marks ← py_float (safe_get prev_cat_data ["marks"] (VFloat 0));
  Ok {| completed_change := curr_completed - prev_completed;
        marks_change := round2 (curr_marks - prev_marks) |}.

(** [completed_change != 0 or marks_change != 0.0] *)
Definition changed (c : category_change) : bool :=
  negb (completed_change c =? 0) || negb (num_eqb (VFloat (marks_change c)) (VFloat 0)).

Fixpoint changes_loop `{Parsers} (curr_types prev_types : value)
    (categories : list string) (individual_changes : gmap string category_change)
    : result (gmap string category_change) :=
  match categories with
  | [] => Ok individual_changes
  | category :: rest =>
      c ← category_delta curr_types prev_types category;
      changes_loop curr_types prev_types rest
        (if changed c then <[category := c]> individual_changes
         else individual_changes)
  end.

(** [individual_changes] as [analyze] builds it from the two processed
    district records; a [Raise] is what the enclosing [try] catches. *)
Definition individual_work_type_changes `{Parsers} (curr_dist_data prev_dist_data : value)
    : result (gmap string category_change) :=
  let curr_types := safe_get curr_dist_data ["individual_work_types"] (VDict []) in
  let prev_types := safe_get prev_dist_data ["individual_work_types"] (VDict []) in
  changes_loop curr_types prev_types OLD_NRM_TARGET_CATEGORIES ∅.

End OldWorks.

(** ** jsm_dashboard_generator.py: [get_grade_label], [get_grade_class] *)

Definition is_dict (v : value) : bool :=
  match v with
  | VDict _ => true
  | _ => false
  end.

(** [state_stats.get(k, 0)] once [state_stats] is known to be a dict. *)
Definition stats_get (state_stats : value) (k : string) : value :=
  match state_stats with
  | VDict d => dict_get_or d k (VInt 0)
  | _ => VInt 0
  end.

Definition get_grade_label (value max_value state_stats : value) : result string :=
  if negb (is_number value) || negb (is_number max_value) || num_eqb max_value (VInt 0)
  then Ok "N/A"
  else
    let avg := stats_get state_stats "average" in
    let median := stats_get state_stats "median" in
    if py_truthy state_stats && is_dict state_stats && (py_truthy avg && py_truthy median)
    then
      a ← py_mul avg (VFloat 1.25);
      c ← num_ge value a;
      if c : bool then Ok "उत्कृष्ट"
      else
        c ← num_ge value avg;
        if c : bool then Ok "अच्छा"
        else
          c ← num_ge value median;
          if c : bool then Ok "औसत"
          else
            m ← py_mul median (VFloat 0.7);
            c ← num_ge value m;
            if c : bool then Ok "निम्न" else Ok "अति निम्न"
    else
      q ← py_truediv value max_value;
      percentage ← py_mul q (VInt 100);
      c ← num_ge percentage (VInt 90);
      if c : bool then Ok "उत्कृष्ट"
      else
        c ← num_ge percentage (VInt 70);
        if c : bool then Ok "अच्छा"
        else
          c ← num_ge percentage (VInt 50);
          if c : bool then Ok "औसत"
          else
            c ← num_ge percentage (VInt 30);
            if c : bool then Ok "निम्न" else Ok "अति निम्न".

Definition get_grade_class (value max_value state_stats : value) : result string :=
  if negb (is_number value) || negb (is_number max_value) || num_eqb max_value (VInt 0)
  then Ok "grade-badge"
  else
    let avg := stats_get state_stats "average" in
    let median := stats_get state_stats "median" in
    if py_truthy state_stats && is_dict state_stats && (py_truthy avg && py_truthy median)
    then
      a ← py_mul avg (VFloat 1.25);
      c ← num_ge value a;
      if c : bool then Ok "grade-badge excellent"
      else
        c ← num_ge value avg;
        if c : bool then Ok "grade-badge good"
        else
          c ← num_ge value median;
          if c : bool then Ok "grade-badge average"
          else
            m ← py_mul median (VFloat 0.7);
            c ← num_ge value m;
            if c : bool then Ok "grade-badge poor" else Ok "grade-badge very-poor"
    else
      q ← py_truediv value max_value;
      percentage ← py_mul q (VInt 100);
      c ← num_ge percentage (VInt 90);
      if c : bool then Ok "grade-badge excellent"
      else
        c ← num_ge percentage (VInt 70);
        if c : bool then Ok "grade-badge good"
        else
          c ← num_ge percentage (VInt 50);
          if c : bool then Ok "grade-badge average"
          else
            c ← num_ge percentage (VInt 30);
            if c : bool then Ok "grade-badge poor" else Ok "grade-badge very-poor".

(** ** More of Python: iteration, membership, folds *)

(** [needle in hay] between two strings: [needle] occurs in [hay]. *)
Fixpoint py_in_str (needle hay : string) : bool :=
  match hay with
  | EmptyString => String.prefix needle hay
  | String _ hay' => String.prefix needle hay || py_in_str needle hay'
  end.

(** [for item in v]: the items of a list, the keys of a dict, the characters
    of a string; nothing else is iterable. *)
Definition py_iter (v : value) : result (list value) :=
  match v with
  | VList l => Ok l
  | VDict d => Ok ((fun kv => VStr (fst kv)) <$> d)
  | VStr s => Ok (VStr <$> characters s)
  | _ => Raise TypeError
  end.

(** A loop whose body may raise. *)
Fixpoint fold_result {A B} (f : A -> B -> result A) (a : A) (l : list B) : result A :=
  match l with
  | [] => Ok a
  | x :: r => a' ← f a x; fold_result f a' r
  end.

(** A dict whose values are records, in insertion order. *)
Fixpoint assoc_get {V} (m : list (string * V)) (k : string) : option V :=
  match m with
  | [] => None
  | (k', v) :: m' => if String.eqb k' k then Some v else assoc_get m' k
  end.

Fixpoint assoc_set {V} (m : list (string * V)) (k : string) (v : V) : list (string * V) :=
  match m with
  | [] => [(k, v)]
  | (k', v') :: m' => if String.eqb k' k then (k, v) :: m' else (k', v') :: assoc_set m' k v
  end.

(** ** utils.py: [find_district_data] and the two wrappers *)

Fixpoint find_district_loop (items : list value) (district_name_upper name_key : string)
    : value :=
  match items with
  | [] => VNone
  | item :: rest =>
      match safe_get item [name_key] VNone with
      | VStr item_name =>
          if String.eqb (py_upper (py_strip item_name)) district_name_upper then item
          else find_district_loop rest district_name_upper name_key
      | _ => find_district_loop rest district_name_upper name_key
      end
  end.

Definition find_district_data (data_list : value) (district_name_upper name_key : string)
    : result value :=
  if negb (py_truthy data_list) then Ok VNone
  else
    items ← py_iter data_list;
    Ok (find_district_loop items district_name_upper name_key).

Definition get_top_bottom_performers_full (data_list : list value) (score_key name_key : string)
    : top_bottom :=
  get_top_bottom_by_field data_list score_key [] name_key true.

Definition get_top_bottom_by_count_full (data_list : list value) (count_key name_key : string)
    : top_bottom :=
  get_top_bottom_by_field data_list count_key [] name_key true.

(** ** analyze_district_kpis.py: [_calculate_old_work_completed] *)

Definition old_work_categories : list string :=
  ["Talab Nirman"; "Check_Stop Dam"; "Recharge Pit"; "Koop Nirman";
   "Percolation Talab"; "Khet Talab"; "Other NRM Work"].

(** What one category adds to [total_completed]. *)
Definition completed_of `{Parsers} (categories_data : dict) (cat_name : string) : result Z :=
  let cat_info := dict_get_or categories_data cat_name (VDict []) in
  let completed_val := safe_get cat_info ["completed"] (VInt 0) in
  match completed_val with
  | VNone => Ok 0
  | _ =>
      except_value_type
        (numeric_val ← py_float completed_val;
         if negb (is_nan numeric_val) && negb (is_infinity numeric_val)
         then Ok (float_trunc numeric_val) else Ok 0)
        0
  end.

Definition _calculate_old_work_completed `{Parsers} (perf_data : value) : result Z :=
  match safe_get perf_data ["categories"] (VDict []) with
  | VDict categories_data =>
      fold_result (fun total_completed cat_name =>
                     c ← completed_of categories_data cat_name;
                     Ok (total_completed + c))
                  0 old_work_categories
  | _ => Ok 0
  end.

(** ** analyze_district_kpis.py: [_fetch_and_process_state_data_for_date] *)

Module Config.
Record t := {
  endpoint : string;
  results_key : string;
  name_key : string;
  marks_key : option string;
  count_key : option string;
  target_key : option string;
  use_date_param : bool
}.
End Config.

(** [COMPONENTS_CONFIG], in the order of its items.  The keys that only the
    performance entry has are the three constants below. *)
Definition COMPONENTS_CONFIG : list (string * Config.t) :=
  [("performance",
    {| Config.endpoint := "/report_jsm/performance-marks"; Config.results_key := "results";
       Config.name_key := "name"; Config.marks_key := None; Config.count_key := None;
       Config.target_key := None; Config.use_date_param := true |});
   ("farm_ponds",
    {| Config.endpoint := "/report_jsm/farm-ponds-marks"; Config.results_key := "results";
       Config.name_key := "name"; Config.marks_key := Some "marks";
       Config.count_key := Some "actual_count"; Config.target_key := None;
       Config.use_date_param := true |});
   ("dugwell",
    {| Config.endpoint := "/report_jsm/dugwell-marks"; Config.results_key := "results";
       Config.name_key := "name"; Config.marks_key := Some "marks";
       Config.count_key := Some "actual_count"; Config.target_key := None;
       Config.use_date_param := true |});
   ("amrit_sarovar",
    {| Config.endpoint := "/report_jsm/amritsarovar-stats"; Config.results_key := "details";
       Config.name_key := "name"; Config.marks_key := Some "marks";
       Config.count_key := Some "actual_count"; Config.target_key := None;
       Config.use_date_param := false |});
   ("mybharat",
    {| Config.endpoint := "/report_jsm/mybharat/gender-stats";
       Config.results_key := "districts_data"; Config.name_key := "district";
       Config.marks_key := Some "marks"; Config.count_key := Some "total_count";
       Config.target_key := Some "target"; Config.use_date_param := true |})].

Definition target_marks_key : string := "target_marks".
Definition payment_marks_key : string := "payment_marks".
Definition old_work_completed_key : string := "_helper_total_old_work_completed".

(** The [component_entry] of one item. *)
Definition component_entry `{Parsers} (comp_key : string) (config : Config.t)
    (item_data : value) : result dict :=
  let component_entry : dict := [] in
  component_entry ←
    match Config.marks_key config with
    | Some k =>
        marks ← _safe_convert (safe_get item_data [k] VNone) float_type (VFloat 0);
        Ok (dict_set component_entry "marks" marks)
    | None => Ok component_entry
    end;
  component_entry ←
    match Config.count_key config with
    | Some k =>
        count ← _safe_convert (safe_get item_data [k] VNone) int_type (VInt 0);
        Ok (dict_set component_entry "count" count)
    | None => Ok component_entry
    end;
  component_entry ←
    match Config.target_key config with
    | Some k =>
        target ← _safe_convert (safe_get item_data [k] VNone) int_type (VInt 0);
        Ok (dict_set component_entry "target" target)
    | None => Ok component_entry
    end;
  if String.eqb comp_key "performance" then
    t_marks ← _safe_convert (safe_get item_data [target_marks_key] VNone) float_type (VFloat 0);
    p_marks ← _safe_convert (safe_get item_data [payment_marks_key] VNone) float_type (VFloat 0);
    completed ← _calculate_old_work_completed item_data;
    Ok (dict_set (dict_set (dict_set component_entry "target_marks" t_marks)
                           "payment_marks" p_marks)
                 old_work_completed_key (VInt completed))
  else Ok component_entry.

(** One turn of the loop over [results_list]. *)
Definition process_item `{Parsers} (comp_key : string) (config : Config.t)
    (processed_data_by_district : list (string * dict)) (item_data : value)
    : result (list (string * dict)) :=
  match item_data with
  | VDict _ =>
      match safe_get item_data [Config.name_key config] VNone with
      | VStr dist_name =>
          if String.eqb dist_name "" then Ok processed_data_by_district
          else
            let dist_name := py_upper (py_strip dist_name) in
            if String.eqb dist_name "" then Ok processed_data_by_district
            else
              let dist_data :=
                match assoc_get processed_data_by_district dist_name with
                | Some dist_data => dist_data
                | None => [("name", VStr dist_name)]
                end in
              component_entry ← component_entry comp_key config item_data;
              Ok (assoc_set processed_data_by_district dist_name
                    (dict_set dist_data comp_key (VDict component_entry)))
      | _ => Ok processed_data_by_district
      end
  | _ => Ok processed_data_by_district
  end.

(** [type(v)] as an f-string prints it. *)
Definition type_repr (v : value) : string :=
  match v with
  | VNone => "<class 'NoneType'>"
  | VBool _ => "<class 'bool'>"
  | VInt _ => "<class 'int'>"
  | VFloat _ => "<class 'float'>"
  | VStr _ => "<class 'str'>"
  | VList _ => "<class 'list'>"
  | VDict _ => "<class 'dict'>"
  end.

Record aggregation := {
  processed_data_by_district : list (string * dict);
  fetch_errors : list string
}.

(** One turn of the loop over [COMPONENTS_CONFIG.items()]; [fetch_api_data]
    is the call to the API, which answers with the parsed reply or null. *)
Definition process_component `{Parsers} (fetch_api_data : string -> dict -> value)
    (target_date : string) (st : aggregation) (comp : string * Config.t)
    : result aggregation :=
  let '(comp_key, config) := comp in
  let params : dict :=
    if Config.use_date_param config then [("date", VStr target_date)] else [] in
  let raw_data := fetch_api_data (Config.endpoint config) params in
  if negb (py_truthy raw_data) then
    let msg := "Failed to fetch data for component '" +:+ comp_key +:+ "' on " +:+
               target_date +:+ " from " +:+ Config.endpoint config +:+ "." in
    Ok {| processed_data_by_district := processed_data_by_district st;
          fetch_errors := fetch_errors st ++ [msg] |}
  else
    match safe_get raw_data [Config.results_key config] (VList []) with
    | VList results_list =>
        processed ← fold_result (process_item comp_key config)
                      (processed_data_by_district st) results_list;
        Ok {| processed_data_by_district := processed; fetch_errors := fetch_errors st |}
    | results_list =>
        let msg := "Expected results key '" +:+ Config.results_key config +:+
                   "' to contain a list for '" +:+ comp_key +:+ "', but got " +:+
                   type_repr results_list +:+ ". Skipping component." in
        Ok {| processed_data_by_district := processed_data_by_district st;
              fetch_errors := fetch_errors st ++ [msg] |}
    end.

Record state_data := {
  date : string;
  all_districts_processed : list (string * dict);
  fetch_error : option string
}.

Definition _fetch_and_process_state_data_for_date `{Parsers}
    (fetch_api_data : string -> dict -> value) (target_date : string)
    : result state_data :=
  st ← fold_result (process_component fetch_api_data target_date)
         {| processed_data_by_district := []; fetch_errors := [] |} COMPONENTS_CONFIG;
  Ok {| date := target_date;
        all_districts_processed := calculate_total_marks (processed_data_by_district st);
        fetch_error := match fetch_errors st with
                       | [] => None
                       | errors => Some (String.concat "; " errors)
                       end |}.

(** ** analyze_district_kpis.py: [_get_kpi_value], [_extract_performer_summary]
    and the top and bottom performers of [analyze] *)

Definition is_none (v : value) : bool :=
  match v with
  | VNone => true
  | _ => false
  end.

Definition type_default (t : target_type) : value :=
  match t with
  | float_type => VFloat 0
  | int_type => VInt 0
  end.

Definition _get_kpi_value `{Parsers} (district_data : value) (component : string)
    (key : option string) (default : value) : result value :=
  match district_data with
  | VDict d =>
      (* the value read, or [None] for the early [return default] *)
      let read : option value :=
        if String.eqb component TOTAL_MARKS_KEY then Some (dict_get d TOTAL_MARKS_KEY)
        else
          match dict_get d component with
          | VDict component_data =>
              match key with
              | Some k => Some (dict_get component_data k)
              | None => None
              end
          | _ => Some VNone
          end in
      match read with
      | None => Ok default
      | Some v =>
          let target : option target_type :=
            match key with
            | None => if String.eqb component TOTAL_MARKS_KEY then Some float_type else None
            | Some k =>
                Some (if py_in_str "marks" (py_lower k) then float_type else int_type)
            end in
          match target with
          | None => Ok default
          | Some target_type =>
              converted_value ← _safe_convert v target_type (type_default target_type);
              if is_none default && num_eqb converted_value (type_default target_type)
                 && is_none v
              then Ok VNone
              else if is_none default && num_eqb converted_value (type_default target_type)
              then Ok converted_value
              else Ok (if is_none v then default else converted_value)
          end
      end
  | _ => Ok default
  end.

Definition _extract_performer_summary (district_data : value) : result value :=
  match district_data with
  | VDict d =>
      let name := dict_get d "name" in
      let score := dict_get d TOTAL_MARKS_KEY in
      if py_truthy name then
        valid ← valid_marks score;
        Ok (if valid : bool then VDict [("name", name); ("score", score)] else VNone)
      else Ok VNone
  | _ => Ok VNone
  end.

(** [current_district_list] of [analyze]: the records with valid marks. *)
Fixpoint current_district_list (records : list dict) : result (list value) :=
  match records with
  | [] => Ok []
  | d :: rest =>
      valid ← valid_marks (dict_get d TOTAL_MARKS_KEY);
      others ← current_district_list rest;
      Ok (if valid : bool then VDict d :: others else others)
  end.

Record performers := { top_performer : value; bottom_performer : value }.

(** The top and the bottom performer of the state context. *)
Definition state_performers (current_processed_map : list (string * dict))
    : result performers :=
  match current_processed_map with
  | [] => Ok {| top_performer := VNone; bottom_performer := VNone |}
  | _ =>
      current_district_list ← current_district_list (snd <$> current_processed_map);
      match current_district_list with
      | [] => Ok {| top_performer := VNone; bottom_performer := VNone |}
      | _ =>
          let top_bottom_full :=
            get_top_bottom_by_field current_district_list TOTAL_MARKS_KEY [] "name" true in
          t ← _extract_performer_summary (default VNone (top top_bottom_full));
          b ← _extract_performer_summary (default VNone (bottom top_bottom_full));
          Ok {| top_performer := t; bottom_performer := b |}
      end
  end.

(** ** analyze_farm_ponds.py: the position of the district against the
    state, and jsm_dashboard_generator.py: [get_completion_status_text] *)

(** [a < b] and [a > b] between numbers; anything else raises.  (Two texts
    compare as well; the operands below are never both texts.) *)
Definition num_lt (a b : value) : result bool :=
  match num_ext a, num_ext b with
  | Some x, Some y => Ok (ext_ltb x y)
  | _, _ => Raise TypeError
  end.

Definition num_gt (a b : value) : result bool := num_lt b a.

(** [needle in v], for a text [needle]: a substring of a text, an item of a
    list, a key of a dict. *)
Definition py_in (needle : string) (v : value) : result bool :=
  match v with
  | VStr hay => Ok (py_in_str needle hay)
  | VList l =>
      Ok (existsb (fun x => match x with VStr s => String.eqb s needle | _ => false end) l)
  | VDict d => Ok (existsb (fun kv => String.eqb (fst kv) needle) d)
  | _ => Raise TypeError
  end.

Module Position.

(** The part of the comparison that one statistic adds. *)
Definition compare_to (dist_value stat : value) (stat_name : string)
    : result (list string) :=
  match stat with
  | VNone => Ok []
  | _ =>
      above ← num_gt dist_value stat;
      if above : bool then Ok ["Above " +:+ stat_name]
      else
        below ← num_lt dist_value stat;
        Ok [if below : bool then "Below " +:+ stat_name else "Equal to " +:+ stat_name]
  end.

(** [score_comparison] and [count_comparison]: the district's value against
    the mean and the median of the state. *)
Definition comparison (dist_value mean median : value) : result string :=
  mean_part ← compare_to dist_value mean "Mean";
  median_part ← compare_to dist_value median "Median";
  match mean_part ++ median_part with
  | [] => Ok "Comparison N/A"
  | comp_parts => Ok (String.concat " / " comp_parts)
  end.

End Position.

Definition get_completion_status_text (comparison_text : value) : result string :=
  above_mean ← py_in "Above Mean" comparison_text;
  above_both ← (if above_mean : bool then py_in "Above Median" comparison_text
                else Ok false);
  if above_both : bool then Ok "उत्कृष्ट (राज्य औसत से बेहतर)"
  else
    above_mean ← py_in "Above Mean" comparison_text;
    above_one ← (if above_mean : bool then Ok true
                 else py_in "Above Median" comparison_text);
    if above_one : bool then Ok "अच्छा (औसत के करीब)"
    else
      below_mean ← py_in "Below Mean" comparison_text;
      below_both ← (if below_mean : bool then py_in "Below Median" comparison_text
                    else Ok false);
      if below_both : bool then Ok "निम्न (राज्य औसत से कम)" else Ok "औसत".

(** ** analyze_old_works.py: [find_category_leaders] *)

(** The loop over the districts for one category.  [district_data["name"]]
    raises [KeyError] when the record has no name: [None] stands for it.
    (The subscript is only reached with a dict, as [safe_get] finds nothing
    in anything else.) *)
Fixpoint leader_loop (category : string) (processed_state_data : list value)
    (leader_district max_marks : value) : option value :=
  match processed_state_data with
  | [] => Some leader_district
  | district_data :: rest =>
      let cat_details := safe_get district_data ["individual_work_types"; category] VNone in
      if py_truthy cat_details then
        let current_marks := safe_get cat_details ["marks"] (VFloat 0) in
        if is_number current_marks && num_ltb max_marks current_marks then
          match district_data with
          | VDict d =>
              match assoc_get d "name" with
              | Some name =>
                  leader_loop category rest
                    (VDict [("name", name); ("category_details", cat_details)])
                    current_marks
              | None => None
              end
          | _ => None
          end
        else leader_loop category rest leader_district max_marks
      else leader_loop category rest leader_district max_marks
  end.

Definition no_leader : value := VDict [("name", VStr "N/A"); ("category_details", VNone)].

Fixpoint leaders_loop (categories : list string) (processed_state_data : list value)
    (category_leaders : dict) : option dict :=
  match categories with
  | [] => Some category_leaders
  | category :: rest =>
      match leader_loop category processed_state_data VNone (VFloat (-1)) with
      | Some leader_district =>
          leaders_loop rest processed_state_data
            (dict_set category_leaders category
               (if py_truthy leader_district then leader_district else no_leader))
      | None => None
      end
  end.

Definition find_category_leaders (processed_state_data : list value) : option dict :=
  if negb (py_truthy (VList processed_state_data)) then Some []
  else leaders_loop OldWorks.OLD_NRM_TARGET_CATEGORIES processed_state_data [].

(** ** analyze_old_works.py: the completed works of a block and their
    change between two dates *)

(** [a or b] *)
Definition py_or (a b : value) : value := if py_truthy a then a else b.

Module Blocks.

(** [_fetch_and_process_data_for_date], step 3: the count of one category
    of one block, and the loop over the categories. *)
Definition completed_count `{Parsers} (block_raw_data : value) (category : string)
    : result Z :=
  if py_truthy block_raw_data then
    let block_categories_api_data := safe_get block_raw_data ["categories"] (VDict []) in
    cat_perf_data ← value_get block_categories_api_data category (VDict []);
    py_int (py_or (safe_get cat_perf_data ["completed"] (VInt 0)) (VInt 0))
  else Ok 0.

Fixpoint completed_counts_loop `{Parsers} (block_raw_data : value)
    (categories : list string) (block_completed_counts : dict) : result dict :=
  match categories with
  | [] => Ok block_completed_counts
  | category :: rest =>
      completed_count ← completed_count block_raw_data category;
      completed_counts_loop block_raw_data rest
        (dict_set block_completed_counts category (VInt completed_count))
  end.

Definition block_completed_counts `{Parsers} (block_raw_data : value) : result dict :=
  completed_counts_loop block_raw_data OldWorks.OLD_NRM_TARGET_CATEGORIES [].

(** [analyze], the block level comparison: the changes of one block.  The
    categories are the items of a set, which are iterated in no fixed
    order: [all_block_categories] is that order. *)
Definition change `{Parsers} (today_counts yesterday_counts : dict) (category : string)
    : result Z :=
  today_count ← py_int (dict_get_or today_counts category (VInt 0));
  yesterday_count ← py_int (dict_get_or yesterday_counts category (VInt 0));
  Ok (today_count - yesterday_count).

Fixpoint changes_loop `{Parsers} (today_counts yesterday_counts : dict)
    (all_block_categories : list string) (block_changes : gmap string Z)
    : result (gmap string Z) :=
  match all_block_categories with
  | [] => Ok block_changes
  | category :: rest =>
      c ← change today_counts yesterday_counts category;
      changes_loop today_counts yesterday_counts rest
        (if negb (c =? 0) then <[category := c]> block_changes else block_changes)
  end.

Definition block_changes `{Parsers} (today_counts yesterday_counts : dict)
    (all_block_categories : list string) : result (gmap string Z) :=
  changes_loop today_counts yesterday_counts all_block_categories ∅.

End Blocks.

(** * Vocabulary of the statements *)

(** An [int] that converts to a float; every other value is in range. *)
Definition in_double_range (v : value) : bool :=
  match v with
  | VInt z => Z.abs z <? DBL_OVERFLOW
  | _ => true
  end.

(** A number that is neither NaN nor infinite. *)
Definition finite_number (v : value) : bool :=
  match num_ext v with
  | Some (EFin _) => true
  | _ => false
  end.

(** A number other than NaN: what [value == value] keeps. *)
Definition comparable (v : value) : bool := is_number v && num_eqb v v.

Definition num_leb (a b : value) : bool :=
  match num_ext a, num_ext b with
  | Some x, Some y => ext_leb x y
  | _, _ => false
  end.

(** The exact value of a finite number, times 2^1074. *)
Definition fin_key (v : value) : Z :=
  match num_ext v with
  | Some (EFin z) => z
  | _ => 0
  end.

Fixpoint count_if {A} (f : A -> bool) (l : list A) : Z :=
  match l with
  | [] => 0
  | x :: r => (if f x then 1 else 0) + count_if f r
  end.

(** [a] may stand ahead of [b] in a list sorted with the given [reverse]. *)
Definition in_order {A} (key : A -> value) (reverse : bool) (a b : A) : Prop :=
  if reverse then num_leb (key b) (key a) = true else num_leb (key a) (key b) = true.

(** The number of valid districts whose [total_marks] is strictly greater
    than [marks]. *)
Definition strictly_greater (data : list district) (marks : value) : Z :=
  count_if (fun e => finite_number (total_marks e) && num_ltb marks (total_marks e)) data.

Definition rank_among (data : list district) (marks : value) : Z :=
  1 + strictly_greater data marks.

Definition key_of (d : district) : Z := fin_key (total_marks d).

(** [n] is ranked [r] in [data]: a valid district of that name has rank [r],
    and it has the least marks of the valid districts of that name. *)
Definition ranked_as (data : list district) (n : string) (r : Z) : Prop :=
  n <> "" /\
  exists d, d ∈ data /\ name d = n /\ finite_number (total_marks d) = true /\
    r = rank_among data (total_marks d) /\
    forall e, e ∈ data -> name e = n -> finite_number (total_marks e) = true ->
      key_of d <= key_of e.

(** [ranks[name] = rank] for one district of the sorted list. *)
Definition assign_rank (data : list district) (m : gmap string Z) (d : district)
    : gmap string Z :=
  if String.eqb (name d) "" then m
  else <[name d := rank_among data (total_marks d)]> m.

(** What the loop of [calculate_ranks] knows after the districts [p]. *)
Definition walk_inv (p : list district) (st : rank_state) : Prop :=
  (p = [] /\ current_rank st = 0 /\ districts_at_rank st = 0 /\
   last_score st = VFloat neg_infinity) \/
  (finite_number (last_score st) = true /\
   (exists e, e ∈ p /\ key_of e = fin_key (last_score st)) /\
   Forall (fun e => fin_key (last_score st) <= key_of e) p /\
   current_rank st = count_if (fun e => fin_key (last_score st) <? key_of e) p /\
   current_rank st + districts_at_rank st = Z.of_nat (length p)).

(** The value [get_top_bottom_by_field] compares, and the test an item
    must pass to stay in [valid_entries]. *)
Definition compared_value (field_key : string) (nested_keys : list string)
    (it : value) : value :=
  safe_get it (nested_keys ++ [field_key]) VNone.

Definition survives (field_key : string) (nested_keys : list string)
    (name_key : string) (it : value) : bool :=
  comparable (compared_value field_key nested_keys it) &&
  py_truthy (safe_get it [name_key] VNone).

(** Parsers for the closed examples, whose inputs hold no text. *)
Definition no_text : Parsers :=
  {| float_of_str := fun _ => None; int_of_str := fun _ => None |}.

(** The finite float an input of [_calculate_change] is coerced to, if any. *)
Definition coerce_finite `{Parsers} (v : value) : option float :=
  match v with
  | VNone => None
  | _ =>
      match py_float v with
      | Ok f => if is_nan f || is_infinity f then None else Some f
      | Raise _ => None
      end
  end.

(** [current - previous] as [_calculate_change] reports it. *)
Definition reported_change (current previous : float) : value :=
  let change := (current - previous)%float in
  if is_nan change || is_infinity change then VNone
  else if float_is_whole change then VInt (float_trunc change)
  else VFloat (round2 change).

(** A rank, or null. *)
Definition rank_value (r : option Z) : value :=
  match r with
  | Some z => VInt z
  | None => VNone
  end.

(** The five bands of the grade functions, and the result for inputs that
    cannot be graded. *)
Variant band := excellent | good | average | poor | very_poor | not_applicable.

Definition band_label (b : band) : string :=
  match b with
  | excellent => "उत्कृष्ट"
  | good => "अच्छा"
  | average => "औसत"
  | poor => "निम्न"
  | very_poor => "अति निम्न"
  | not_applicable => "N/A"
  end.

Definition band_class (b : band) : string :=
  match b with
  | excellent => "grade-badge excellent"
  | good => "grade-badge good"
  | average => "grade-badge average"
  | poor => "grade-badge poor"
  | very_poor => "grade-badge very-poor"
  | not_applicable => "grade-badge"
  end.

(** The decisions the two grade functions share, as they take them. *)
Definition grade_decisions (value max_value state_stats : value) : result band :=
  if negb (is_number value) || negb (is_number max_value) || num_eqb max_value (VInt 0)
  then Ok not_applicable
  else
    let avg := stats_get state_stats "average" in
    let median := stats_get state_stats "median" in
    if py_truthy state_stats && is_dict state_stats && (py_truthy avg && py_truthy median)
    then
      a ← py_mul avg (VFloat 1.25);
      c ← num_ge value a;
      if c : bool then Ok excellent
      else
        c ← num_ge value avg;
        if c : bool then Ok good
        else
          c ← num_ge value median;
          if c : bool then Ok average
          else
            m ← py_mul median (VFloat 0.7);
            c ← num_ge value m;
            if c : bool then Ok poor else Ok very_poor
    else
      q ← py_truediv value max_value;
      percentage ← py_mul q (VInt 100);
      c ← num_ge percentage (VInt 90);
      if c : bool then Ok excellent
      else
        c ← num_ge percentage (VInt 70);
        if c : bool then Ok good
        else
          c ← num_ge percentage (VInt 50);
          if c : bool then Ok average
          else
            c ← num_ge percentage (VInt 30);
            if c : bool then Ok poor else Ok very_poor.

(** The grade in the words of the specification.  The float a number is
    computed with: *)
Definition as_float (v : value) : float :=
  match v with
  | VBool b => bool_to_float b
  | VInt z => nearest_float z
  | VFloat f => f
  | _ => nan
  end.

(** [x >= t] *)
Definition at_least (x t : value) : bool := num_leb t x.

(** [c × v], as in [1.25 × average] *)
Definition times (c : float) (v : value) : value := VFloat (as_float v * c)%float.

(** [value / max_value × 100] *)
Definition percent_of (v max_value : value) : value :=
  let q := match operand_int v, operand_int max_value with
           | Some x, Some y => int_quotient x y
           | _, _ => (as_float v / as_float max_value)%float
           end in
  VFloat (q * 100)%float.

(** A statistic that is present and not zero. *)
Definition nonzero_number (v : value) : bool :=
  is_number v && negb (num_eqb v (VInt 0)).

(** The average and the median of the state, when both are present and
    not zero. *)
Definition usable_stats (state_stats : value) : option (value * value) :=
  match state_stats with
  | VDict d =>
      let avg := dict_get d "average" in
      let median := dict_get d "median" in
      if nonzero_number avg && nonzero_number median then Some (avg, median) else None
  | _ => None
  end.

Definition grade (value max_value state_stats : value) : band :=
  if negb (is_number value) || negb (is_number max_value) || num_eqb max_value (VInt 0)
  then not_applicable
  else
    match usable_stats state_stats with
    | Some (avg, median) =>
        if at_least value (times 1.25 avg) then excellent
        else if at_least value avg then good
        else if at_least value median then average
        else if at_least value (times 0.7 median) then poor
        else very_poor
    | None =>
        let percentage := percent_of value max_value in
        if at_least percentage (VInt 90) then excellent
        else if at_least percentage (VInt 70) then good
        else if at_least percentage (VInt 50) then average
        else if at_least percentage (VInt 30) then poor
        else very_poor
    end.

(** A statistic as the analysis writes it: null or a number in range. *)
Definition stat_typed (v : value) : bool :=
  match v with
  | VNone => true
  | _ => is_number v && in_double_range v
  end.

(** State statistics as the analysis writes them: when they are a dict,
    its average and median are null or numbers. *)
Definition stats_typed (state_stats : value) : bool :=
  match state_stats with
  | VDict d => stat_typed (dict_get d "average") && stat_typed (dict_get d "median")
  | _ => true
  end.

(** Data of the closed examples. *)
Definition scored (n : string) (marks : float) : district :=
  {| name := n; total_marks := VFloat marks |}.

Definition tied_scores : list district :=
  [scored "A" 10; scored "B" 10; scored "C" 8].

(** A batch of two districts: the first one's performance entry is not a
    dict, so its sum raises; the second one is sound. *)
Definition failing_batch : list (string * dict) :=
  [("A", [("name", VStr "A"); ("performance", VNone)]);
   ("B", [("name", VStr "B");
          ("performance", VDict [("target_marks", VFloat 1.25);
                                 ("payment_marks", VFloat 2.126)]);
          ("dugwell", VDict [("marks", VFloat 3)])])].

(** A district whose two performance marks are finite and whose sum is not. *)
Definition overflowing_district : dict :=
  [("name", VStr "A");
   ("performance", VDict [("target_marks", VFloat 1.7e308);
                          ("payment_marks", VFloat 1.7e308)])].

Definition infinite_record : value :=
  VDict [("name", VStr "A"); ("marks", VFloat infinity)].

Definition untrimmed_record : value :=
  VDict [("name", VStr " bhopal"); ("marks", VFloat 12); ("actual_count", VInt 3)].

Definition works (completed : Z) (marks : float) : value :=
  VDict [("completed", VInt completed); ("marks", VFloat marks)].

Definition snapshot_today : value :=
  VDict [("individual_work_types",
          VDict [("Talab Nirman", works 5 1.5); ("Khet Talab", works 7 2.5)])].

Definition snapshot_yesterday : value :=
  VDict [("individual_work_types",
          VDict [("Talab Nirman", works 5 1.5); ("Khet Talab", works 6 2.25)])].

(** The records of the end-to-end scenario. *)
Definition scenario : list value :=
  [VDict [("name", VStr "A"); ("score", VFloat 18.5); ("count", VInt 100)];
   VDict [("name", VStr "B"); ("score", VFloat 18.5); ("count", VInt 80)];
   VDict [("name", VStr "C"); ("score", VFloat 12); ("count", VInt 200)]].

(** The exact value of a float through its IEEE 754 description, and the
    three-way comparison of exact values. *)
Definition spec_ext (s : spec_float) : ext :=
  match s with
  | S754_nan => ENaN
  | S754_infinity sg => if sg then ENegInf else EPosInf
  | S754_zero _ => EFin 0
  | S754_finite sg m e =>
      EFin (let n := Z.shiftl (Zpos m) (e + SCALE) in if sg then - n else n)
  end.

Definition ext_compare (a b : ext) : option comparison :=
  match a, b with
  | ENaN, _ | _, ENaN => None
  | ENegInf, ENegInf | EPosInf, EPosInf => Some Eq
  | ENegInf, _ | _, EPosInf => Some Lt
  | _, ENegInf | EPosInf, _ => Some Gt
  | EFin x, EFin y => Some (x ?= y)
  end.

(** ** The aggregation, the lookups and the comparisons *)

(** A character as [characters] cuts it: one byte followed by continuation
    bytes only. *)
Fixpoint all_continuation (s : string) : bool :=
  match s with
  | String b t => is_continuation b && all_continuation t
  | EmptyString => true
  end.

Definition character (c : string) : bool :=
  match c with
  | String _ t => all_continuation t
  | EmptyString => false
  end.

(** A list of characters that [characters] gives back from its bytes. *)
Definition well_cut (l : list string) : Prop :=
  Forall (fun c => character c = true) l /\ Forall (fun c => continues c = false) (tail l).

(** A list of characters without a blank at either end. *)
Definition starts_solid (l : list string) : bool :=
  match l with
  | c :: _ => negb (is_space c)
  | [] => true
  end.

Definition stripped (l : list string) : Prop :=
  starts_solid l = true /\ starts_solid (reverse l) = true.

(** What the proofs need of an upper-case form. *)
Definition upper_form_ok (u : list N) : bool :=
  let s := join (utf8 <$> u) in
  let cs := characters s in
  negb (continues s) && negb (String.eqb s EmptyString) && String.eqb (py_upper s) s &&
  starts_solid cs && starts_solid (reverse cs).

(** A district name as the aggregation stores it: not empty, without blanks
    around it, in upper case. *)
Definition normalised (k : string) : Prop :=
  k <> "" /\ py_strip k = k /\ py_upper k = k.

(** A finite float. *)
Definition is_finite (f : float) : bool := negb (is_nan f) && negb (is_infinity f).

(** The marks [k] of a component of a district record, read as the sum of
    the total marks reads them (an absent entry counts 0.0), are a finite
    float. *)
Definition float_entry (rec : dict) (component k : string) : Prop :=
  exists e f, dict_get_or rec component (VDict []) = VDict e /\
              dict_get_or e k (VFloat 0) = VFloat f /\ is_finite f = true.

Definition marks_keys : list string := ["marks"; "target_marks"; "payment_marks"].

Definition marks_typed (rec : dict) : Prop :=
  forall component k,
    component ∈ COMPONENTS_CONFIG.*1 -> k ∈ marks_keys -> float_entry rec component k.

(** Every record is stored once, under its own normalised name. *)
Definition keyed_by_name (m : list (string * dict)) : Prop :=
  NoDup m.*1 /\
  Forall (fun kd => normalised kd.1 /\ dict_get kd.2 "name" = VStr kd.1) m.

(** What the loops of the aggregation keep true of
    [processed_data_by_district]. *)
Definition aggregation_inv (m : list (string * dict)) : Prop :=
  keyed_by_name m /\ Forall (fun kd => marks_typed kd.2) m.

(** The district an item of a component's results is filed under, if any. *)
Definition item_district (config : Config.t) (item_data : value) : option string :=
  match item_data with
  | VDict _ =>
      match safe_get item_data [Config.name_key config] VNone with
      | VStr dist_name =>
          let k := py_upper (py_strip dist_name) in
          if String.eqb k "" then None else Some k
      | _ => None
      end
  | _ => None
  end.

(** The items the aggregation reads of one component. *)
Definition component_items (fetch_api_data : string -> dict -> value)
    (target_date : string) (config : Config.t) : list value :=
  let params : dict :=
    if Config.use_date_param config then [("date", VStr target_date)] else [] in
  let raw_data := fetch_api_data (Config.endpoint config) params in
  if py_truthy raw_data then
    match safe_get raw_data [Config.results_key config] (VList []) with
    | VList results_list => results_list
    | _ => []
    end
  else [].

(** The replies of the API in the closed examples: two components answer,
    the other three do not.  One district is listed twice, under two
    spellings of its name; one record has no usable name. *)
Definition sample_api (endpoint : string) (params : dict) : value :=
  if String.eqb endpoint "/report_jsm/performance-marks" then
    VDict [("results",
            VList [VDict [("name", VStr " bhopal ");
                          ("target_marks", VFloat 1.5); ("payment_marks", VFloat 2.25);
                          ("categories",
                           VDict [("Khet Talab", VDict [("completed", VInt 4)]);
                                  ("Koop Nirman", VDict [("completed", VFloat 2.9)])])];
                   VDict [("name", VStr "Indore");
                          ("target_marks", VFloat nan); ("payment_marks", VInt 2)];
                   VDict [("name", VStr "  "); ("target_marks", VFloat 9)]])]
  else if String.eqb endpoint "/report_jsm/farm-ponds-marks" then
    VDict [("results",
            VList [VDict [("name", VStr "BHOPAL"); ("marks", VFloat 3.126);
                          ("actual_count", VInt 7)]])]
  else VNone.

Definition sample_date : string := "2025-06-01".

(** The result of the aggregation on these replies, and its first record. *)
Definition sample_state : state_data :=
  Eval vm_compute in
    match @_fetch_and_process_state_data_for_date no_text sample_api sample_date with
    | Ok r => r
    | Raise _ => {| date := ""; all_districts_processed := []; fetch_error := None |}
    end.

Definition sample_record : dict :=
  Eval vm_compute in
    match all_districts_processed sample_state with
    | (_, rec) :: _ => rec
    | [] => []
    end.

(** An item whose name, stripped and in upper case, is the district
    looked for. *)
Definition names_district (name_key district_name_upper : string) (item : value) : bool :=
  match safe_get item [name_key] VNone with
  | VStr item_name => String.eqb (py_upper (py_strip item_name)) district_name_upper
  | _ => false
  end.

(** The type [_get_kpi_value] converts the value under [key] to. *)
Definition kpi_type (key : string) : target_type :=
  if py_in_str "marks" (py_lower key) then float_type else int_type.

(** The value [_get_kpi_value] reads and the type it converts it to;
    [None] where it reads nothing and answers with the default. *)
Definition stored_kpi (district_data : value) (component : string) (key : option string)
    : option (value * target_type) :=
  match district_data with
  | VDict d =>
      if String.eqb component TOTAL_MARKS_KEY then
        Some (dict_get d TOTAL_MARKS_KEY,
              match key with Some k => kpi_type k | None => float_type end)
      else
        match key with
        | Some k =>
            Some (match dict_get d component with
                  | VDict component_data => dict_get component_data k
                  | _ => VNone
                  end, kpi_type k)
        | None => None
        end
  | _ => None
  end.

(** The bands of the grades in order, the best last. *)
Definition band_rank (b : band) : Z :=
  match b with
  | not_applicable => 0
  | very_poor => 1
  | poor => 2
  | average => 3
  | good => 4
  | excellent => 5
  end.

(** [x > stat] and [x < stat] for a statistic that may be missing. *)
Definition above (x stat : value) : bool := negb (is_none stat) && num_ltb stat x.
Definition below (x stat : value) : bool := negb (is_none stat) && num_ltb x stat.

(** The panchayats of a block in the closed examples: six with a name, one
    without, and their five highest. *)
Definition sample_panchayats : list value :=
  [VDict [("name", VStr "P1"); ("actual_count", VInt 3)];
   VDict [("name", VStr "P2"); ("actual_count", VInt 9)];
   VDict [("name", VStr "P3"); ("actual_count", VInt 1)];
   VDict [("actual_count", VInt 50)];
   VDict [("name", VStr "P4"); ("actual_count", VInt 9)];
   VDict [("name", VStr "P5"); ("actual_count", VInt 4)];
   VDict [("name", VStr "P6"); ("actual_count", VInt 2)]].

Definition sample_top5 : list value :=
  Eval vm_compute in
    match @FarmPonds.top_5_panchayats no_text sample_panchayats with
    | Ok l => l
    | Raise _ => []
    end.

Definition sample_blocks : list value :=
  [VDict [("name", VStr "B1"); ("actual_count", VInt 12)];
   VDict [("name", VStr "B2"); ("actual_count", VInt 16)]].

Definition sample_block_level_data : list value :=
  Eval vm_compute in
    match @FarmPonds.block_level_data no_text (fun _ => sample_panchayats) sample_blocks with
    | Ok l => l
    | Raise _ => []
    end.

(** What a district record holds of a category, and the marks with which it
    competes for the lead of the category: those of a record that has
    details of the category, when they are a number. *)
Definition category_details (category : string) (district_data : value) : value :=
  safe_get district_data ["individual_work_types"; category] VNone.

Definition competing_marks (category : string) (district_data : value) : option value :=
  let cat_details := category_details category district_data in
  let current_marks := safe_get cat_details ["marks"] (VFloat 0) in
  if py_truthy cat_details && is_number current_marks then Some current_marks else None.

(** The entry of a district that leads a category. *)
Definition name_of (district_data : value) : value :=
  match district_data with
  | VDict d => dict_get d "name"
  | _ => VNone
  end.

Definition leader_entry (category : string) (district_data : value) : value :=
  VDict [("name", name_of district_data);
         ("category_details", category_details category district_data)].

(** A record without the key [name]. *)
Definition nameless (district_data : value) : Prop :=
  exists d, district_data = VDict d /\ assoc_get d "name" = None.

(** Two processed districts in the closed examples: both have marks for
    Khet Talab, neither has details of another category. *)
Definition sample_districts : list value :=
  [VDict [("name", VStr "A");
          ("individual_work_types",
           VDict [("Khet Talab", VDict [("completed", VInt 2); ("marks", VFloat 3)])])];
   VDict [("name", VStr "B");
          ("individual_work_types",
           VDict [("Khet Talab", VDict [("completed", VInt 4); ("marks", VFloat 5.5)])])]].

(** The categories of the comparison of a block:
    [set(today) | set(yesterday) & set(ALL)], where [&] binds tighter. *)
Definition compared_category (today_counts yesterday_counts : dict) (c : string) : Prop :=
  c ∈ today_counts.*1 \/
  (c ∈ yesterday_counts.*1 /\ c ∈ OldWorks.OLD_NRM_TARGET_CATEGORIES).

(** A block of the performance data in the closed examples, on two dates. *)
Definition block_today : value :=
  VDict [("name", VStr "B1");
         ("categories",
          VDict [("Khet Talab", VDict [("completed", VInt 5)]);
                 ("Koop Nirman", VDict [("completed", VInt 2)])])].

Definition block_yesterday : value :=
  VDict [("name", VStr "B1");
         ("categories",
          VDict [("Khet Talab", VDict [("completed", VInt 3)]);
                 ("Koop Nirman", VDict [("completed", VInt 2)])])].

Definition counts_today : dict :=
  Eval vm_compute in
    match @Blocks.block_completed_counts no_text block_today with
    | Ok d => d
    | Raise _ => []
    end.

Definition counts_yesterday : dict :=
  Eval vm_compute in
    match @Blocks.block_completed_counts no_text block_yesterday with
    | Ok d => d
    | Raise _ => []
    end.

(** * Numbers: order lemmas *)

Lemma ext_leb_trans (a b c : ext) :
  ext_leb a b = true -> ext_leb b c = true -> ext_leb a c = true.
Proof.
  unfold ext_leb.
  destruct a, b, c; simpl; try discriminate; try reflexivity.
  rewrite !orb_true_iff, !Z.ltb_lt, !Z.eqb_eq. lia.
Qed.

Lemma ext_ltb_false_leb (a b : ext) :
  a <> ENaN -> b <> ENaN -> ext_ltb a b = false -> ext_leb b a = true.
Proof.
  unfold ext_leb.
  destruct a, b; simpl; try congruence.
  rewrite Z.ltb_ge, orb_true_iff, Z.ltb_lt, Z.eqb_eq. lia.
Qed.

Lemma ext_ltb_leb (a b : ext) : ext_ltb a b = true -> ext_leb a b = true.
Proof. unfold ext_leb. intros ->. reflexivity. Qed.

Lemma comparable_ext (v : value) :
  comparable v = true -> exists x, num_ext v = Some x /\ x <> ENaN.
Proof.
  unfold comparable, num_eqb.
  destruct (num_ext v) as [x|]; [|rewrite andb_false_r; discriminate].
  intros H. exists x. split; [reflexivity|].
  intros ->. rewrite andb_false_r in H. discriminate.
Qed.

Lemma finite_number_ext (v : value) :
  finite_number v = true -> num_ext v = Some (EFin (fin_key v)).
Proof.
  unfold finite_number, fin_key.
  destruct (num_ext v) as [[]|]; congruence.
Qed.

Lemma finite_number_comparable (v : value) :
  finite_number v = true -> comparable v = true.
Proof.
  intros H. pose proof (finite_number_ext v H) as E.
  unfold comparable, num_eqb. rewrite E. simpl. rewrite Z.eqb_refl, andb_true_r.
  destruct v; simpl in *; congruence.
Qed.

Lemma num_leb_trans (a b c : value) :
  num_leb a b = true -> num_leb b c = true -> num_leb a c = true.
Proof.
  unfold num_leb.
  destruct (num_ext a), (num_ext b), (num_ext c); try discriminate.
  apply ext_leb_trans.
Qed.

Lemma num_ltb_false_leb (a b : value) :
  comparable a = true -> comparable b = true ->
  num_ltb a b = false -> num_leb b a = true.
Proof.
  intros (x & Ex & Hx)%comparable_ext (y & Ey & Hy)%comparable_ext.
  unfold num_ltb, num_leb. rewrite Ex, Ey. by apply ext_ltb_false_leb.
Qed.

Lemma num_ltb_leb (a b : value) : num_ltb a b = true -> num_leb a b = true.
Proof.
  unfold num_ltb, num_leb.
  destruct (num_ext a), (num_ext b); try discriminate. apply ext_ltb_leb.
Qed.

Lemma num_ltb_fin (a b : value) :
  finite_number a = true -> finite_number b = true ->
  num_ltb a b = (fin_key a <? fin_key b).
Proof.
  intros Ha%finite_number_ext Hb%finite_number_ext.
  unfold num_ltb. by rewrite Ha, Hb.
Qed.

Lemma num_eqb_fin (a b : value) :
  finite_number a = true -> finite_number b = true ->
  num_eqb a b = (fin_key a =? fin_key b).
Proof.
  intros Ha%finite_number_ext Hb%finite_number_ext.
  unfold num_eqb. by rewrite Ha, Hb.
Qed.

Lemma num_leb_fin (a b : value) :
  finite_number a = true -> finite_number b = true ->
  num_leb a b = (fin_key a <=? fin_key b).
Proof.
  intros Ha%finite_number_ext Hb%finite_number_ext.
  unfold num_leb, ext_leb. rewrite Ha, Hb. simpl.
  destruct (Z.ltb_spec (fin_key a) (fin_key b)), (Z.eqb_spec (fin_key a) (fin_key b)),
    (Z.leb_spec (fin_key a) (fin_key b)); simpl; try reflexivity; lia.
Qed.

(** * Numbers: the exact comparison is the one of IEEE 754

    On two floats, [num_ltb] and [num_eqb] are the primitive comparisons
    of binary64. *)

Lemma digits2_pos_bounds (m : positive) :
  2 ^ (Zpos (digits2_pos m) - 1) <= Zpos m < 2 ^ Zpos (digits2_pos m).
Proof.
  induction m as [p IH|p IH|]; simpl digits2_pos.
  - rewrite Pos2Z.inj_succ.
    replace (Z.succ (Zpos (digits2_pos p)) - 1) with (Z.succ (Zpos (digits2_pos p) - 1)) by lia.
    rewrite !Z.pow_succ_r by lia. lia.
  - rewrite Pos2Z.inj_succ.
    replace (Z.succ (Zpos (digits2_pos p)) - 1) with (Z.succ (Zpos (digits2_pos p) - 1)) by lia.
    rewrite !Z.pow_succ_r by lia. lia.
  - simpl. lia.
Qed.

Lemma bounded_facts (m : positive) (e : Z) :
  bounded prec emax m e = true ->
  -1074 <= e /\ Zpos m < 2 ^ 53 /\ (-1074 < e -> 2 ^ 52 <= Zpos m).
Proof.
  unfold bounded, canonical_mantissa, fexp, SpecFloat.emin, prec, emax.
  intros [Hc _]%andb_true_iff. apply Z.eqb_eq in Hc.
  pose proof (digits2_pos_bounds m) as [Hlo Hhi].
  set (d := Zpos (digits2_pos m)) in *.
  assert (Hd : 0 < d) by (unfold d; lia).
  split; [lia|]. split.
  - assert (d <= 53) by lia.
    eapply Z.lt_le_trans; [exact Hhi|]. apply Z.pow_le_mono_r; lia.
  - intros He. assert (E : d = 53) by lia. rewrite E in Hlo. exact Hlo.
Qed.

Lemma scaled_lt (m1 m2 : positive) (e1 e2 : Z) :
  bounded prec emax m1 e1 = true -> bounded prec emax m2 e2 = true ->
  e1 < e2 ->
  Z.shiftl (Zpos m1) (e1 + SCALE) < Z.shiftl (Zpos m2) (e2 + SCALE).
Proof.
  unfold SCALE.
  intros (H1 & Hm1 & _)%bounded_facts (H2 & _ & Hm2)%bounded_facts He.
  specialize (Hm2 ltac:(lia)).
  rewrite !Z.shiftl_mul_pow2 by lia.
  assert (Hp : 2 * 2 ^ (e1 + 1074) <= 2 ^ (e2 + 1074)).
  { rewrite <- Z.pow_succ_r by lia. apply Z.pow_le_mono_r; lia. }
  assert (0 < 2 ^ (e1 + 1074)) by (apply Z.pow_pos_nonneg; lia).
  change (2 ^ 53) with (2 * 2 ^ 52) in Hm1.
  nia.
Qed.

Lemma scaled_pos (m : positive) (e : Z) :
  bounded prec emax m e = true -> 0 < Z.shiftl (Zpos m) (e + SCALE).
Proof.
  unfold SCALE. intros (H1 & _ & _)%bounded_facts.
  rewrite Z.shiftl_mul_pow2 by lia.
  assert (0 < 2 ^ (e + 1074)) by (apply Z.pow_pos_nonneg; lia). lia.
Qed.

Lemma scaled_compare (m1 m2 : positive) (e1 e2 : Z) :
  bounded prec emax m1 e1 = true -> bounded prec emax m2 e2 = true ->
  match e1 ?= e2 with
  | Lt => Lt
  | Gt => Gt
  | Eq => Pos.compare_cont Eq m1 m2
  end = (Z.shiftl (Zpos m1) (e1 + SCALE) ?= Z.shiftl (Zpos m2) (e2 + SCALE)).
Proof.
  intros B1 B2. destruct (Z.compare_spec e1 e2) as [-> | He | He].
  - pose proof (bounded_facts m1 e2 B1) as (H1 & _).
    unfold SCALE. rewrite !Z.shiftl_mul_pow2 by lia.
    assert (0 < 2 ^ (e2 + 1074)) by (apply Z.pow_pos_nonneg; lia).
    rewrite <- Zmult_compare_compat_r by lia. reflexivity.
  - symmetry. apply Z.compare_lt_iff. by apply scaled_lt.
  - symmetry. apply Z.compare_gt_iff. by apply scaled_lt.
Qed.

Lemma spec_compare (s1 s2 : spec_float) :
  valid_binary s1 = true -> valid_binary s2 = true ->
  SFcompare s1 s2 = ext_compare (spec_ext s1) (spec_ext s2).
Proof.
  destruct s1 as [sg1 | sg1 | | sg1 m1 e1], s2 as [sg2 | sg2 | | sg2 m2 e2];
    cbn [spec_ext ext_compare SFcompare SpecFloat.valid_binary]; cbv zeta;
    intros B1 B2; try reflexivity.
  all: try (destruct sg1; reflexivity).
  all: try (destruct sg2; reflexivity).
  all: try (destruct sg1, sg2; reflexivity).
  - pose proof (scaled_pos m2 e2 B2). f_equal.
    destruct sg2; symmetry; [apply Z.compare_gt_iff | apply Z.compare_lt_iff]; lia.
  - pose proof (scaled_pos m1 e1 B1). f_equal.
    destruct sg1; symmetry; [apply Z.compare_lt_iff | apply Z.compare_gt_iff]; lia.
  - pose proof (scaled_pos m1 e1 B1). pose proof (scaled_pos m2 e2 B2). f_equal.
    destruct sg1, sg2.
    + rewrite Z.compare_opp. rewrite <- (scaled_compare m2 m1 e2 e1 B2 B1).
      rewrite (Z.compare_antisym e2 e1).
      destruct (e2 ?= e1); simpl; try reflexivity.
      change (Pos.compare_cont Eq m1 m2) with (m1 ?= m2)%positive.
      change (Pos.compare_cont Eq m2 m1) with (m2 ?= m1)%positive.
      rewrite (Pos.compare_antisym m2 m1). by destruct (m2 ?= m1)%positive.
    + symmetry. apply Z.compare_lt_iff. lia.
    + symmetry. apply Z.compare_gt_iff. lia.
    + by apply scaled_compare.
Qed.

Lemma ext_ltb_compare (a b : ext) :
  ext_ltb a b = match ext_compare a b with Some Lt => true | _ => false end.
Proof.
  destruct a, b; reflexivity.
Qed.

Lemma ext_eqb_compare (a b : ext) :
  ext_eqb a b = match ext_compare a b with Some Eq => true | _ => false end.
Proof.
  destruct a, b; try reflexivity. simpl.
  destruct (Z.compare_spec z z0), (Z.eqb_spec z z0); try reflexivity; lia.
Qed.

Lemma SFeqb_refl (s : spec_float) :
  SFeqb s s = negb (match s with S754_nan => true | _ => false end).
Proof.
  unfold SFeqb. destruct s as [sg | sg | | sg m e]; simpl; try reflexivity.
  - by destruct sg.
  - rewrite Z.compare_refl.
    change (Pos.compare_cont Eq m m) with (m ?= m)%positive.
    rewrite Pos.compare_refl. by destruct sg.
Qed.

Lemma is_nan_Prim2SF (f : float) :
  is_nan f = match Prim2SF f with S754_nan => true | _ => false end.
Proof. unfold is_nan. rewrite FloatAxioms.eqb_spec, SFeqb_refl. by rewrite negb_involutive. Qed.

Lemma is_infinity_Prim2SF (f : float) :
  is_infinity f = match Prim2SF f with S754_infinity _ => true | _ => false end.
Proof.
  unfold is_infinity. rewrite FloatAxioms.eqb_spec, abs_spec.
  change (Prim2SF infinity) with (S754_infinity false).
  destruct (Prim2SF f) as [sg | sg | | sg m e]; reflexivity.
Qed.

Lemma is_zero_Prim2SF (f : float) :
  is_zero f = match Prim2SF f with S754_zero _ => true | _ => false end.
Proof.
  unfold is_zero. rewrite FloatAxioms.eqb_spec.
  change (Prim2SF PrimFloat.zero) with (S754_zero false).
  destruct (Prim2SF f) as [sg | sg | | sg m e]; try reflexivity.
  all: by destruct sg.
Qed.

Lemma float_ext_spec (f : float) : float_ext f = spec_ext (Prim2SF f).
Proof.
  pose proof (is_nan_Prim2SF f) as Hn. pose proof (is_zero_Prim2SF f) as Hz.
  pose proof (is_infinity_Prim2SF f) as Hi.
  unfold float_ext, float_scaled. rewrite Hn, Hi.
  destruct (Prim2SF f) as [sg | sg | | sg m e] eqn:Es; try reflexivity.
  pose proof Es as Es'. unfold Prim2SF in Es'. rewrite Hn, Hz, Hi in Es'.
  injection Es' as ->. reflexivity.
Qed.

Lemma num_ltb_float (a b : float) : num_ltb (VFloat a) (VFloat b) = (a <? b)%float.
Proof.
  unfold num_ltb, num_ext. rewrite !float_ext_spec, ext_ltb_compare, FloatAxioms.ltb_spec.
  unfold SFltb. by rewrite (spec_compare _ _ (Prim2SF_valid a) (Prim2SF_valid b)).
Qed.

Lemma num_eqb_float (a b : float) : num_eqb (VFloat a) (VFloat b) = (a =? b)%float.
Proof.
  unfold num_eqb, num_ext. rewrite !float_ext_spec, ext_eqb_compare, FloatAxioms.eqb_spec.
  unfold SFeqb. by rewrite (spec_compare _ _ (Prim2SF_valid a) (Prim2SF_valid b)).
Qed.

Lemma py_truthy_float (f : float) : py_truthy (VFloat f) = negb (f =? 0)%float.
Proof. rewrite <- num_eqb_float. reflexivity. Qed.

(** * Sorting lemmas *)

Section sorting.
Context {A : Type} (key : A -> value) (reverse : bool).

Let before (y x : A) : bool :=
  if reverse then num_ltb (key x) (key y) else num_ltb (key y) (key x).

Lemma insert_sorted_Permutation (bf : A -> A -> bool) (x : A) (l : list A) :
  insert_sorted bf x l ≡ₚ x :: l.
Proof.
  induction l as [|y r IH]; simpl; [done|].
  destruct (bf y x); [|done].
  rewrite IH. apply Permutation_swap.
Qed.

Lemma sort_by_Permutation (bf : A -> A -> bool) (l : list A) :
  sort_by bf l ≡ₚ l.
Proof.
  induction l as [|x r IH]; simpl; [done|].
  rewrite insert_sorted_Permutation. by rewrite IH.
Qed.

Lemma py_sorted_Permutation (l : list A) : py_sorted key reverse l ≡ₚ l.
Proof. apply sort_by_Permutation. Qed.

Lemma in_order_trans (a b c : A) :
  in_order key reverse a b -> in_order key reverse b c -> in_order key reverse a c.
Proof.
  unfold in_order. destruct reverse; eauto using num_leb_trans.
Qed.

Lemma before_true_in_order (y x : A) :
  before y x = true -> in_order key reverse y x.
Proof. unfold before, in_order. destruct reverse; apply num_ltb_leb. Qed.

Lemma before_false_in_order (y x : A) :
  comparable (key x) = true -> comparable (key y) = true ->
  before y x = false -> in_order key reverse x y.
Proof.
  unfold before, in_order. destruct reverse; intros; by apply num_ltb_false_leb.
Qed.

Lemma insert_sorted_StronglySorted (x : A) (l : list A) :
  comparable (key x) = true ->
  Forall (fun y => comparable (key y) = true) l ->
  StronglySorted (in_order key reverse) l ->
  StronglySorted (in_order key reverse) (insert_sorted before x l).
Proof.
  intros Hx. induction l as [|y r IH]; simpl; intros Hall Hs.
  { repeat constructor. }
  apply Forall_cons in Hall as [Hy Hr].
  apply StronglySorted_cons in Hs as [Hyr Hs].
  destruct (before y x) eqn:E.
  - apply StronglySorted_cons. split; [|auto].
    rewrite insert_sorted_Permutation. constructor; [|done].
    by apply before_true_in_order.
  - pose proof (before_false_in_order _ _ Hx Hy E) as Hxy.
    apply StronglySorted_cons. split.
    + constructor; [done|].
      eapply Forall_impl; [exact Hyr|]. intros z Hz. by eapply in_order_trans.
    + by apply StronglySorted_cons.
Qed.

Lemma py_sorted_StronglySorted (l : list A) :
  Forall (fun y => comparable (key y) = true) l ->
  StronglySorted (in_order key reverse) (py_sorted key reverse l).
Proof.
  unfold py_sorted, sort_by. fold before.
  induction l as [|x r IH]; simpl; intros Hall.
  { constructor. }
  apply Forall_cons in Hall as [Hx Hr].
  apply insert_sorted_StronglySorted; auto.
  eapply Forall_forall. intros y Hy.
  rewrite Forall_forall in Hr. apply Hr.
  by rewrite <- (sort_by_Permutation before r).
Qed.
End sorting.

Lemma count_if_Permutation {A} (f : A -> bool) (l k : list A) :
  l ≡ₚ k -> count_if f l = count_if f k.
Proof. induction 1; simpl; lia. Qed.

Lemma count_if_app {A} (f : A -> bool) (l k : list A) :
  count_if f (l ++ k) = count_if f l + count_if f k.
Proof. induction l; simpl; lia. Qed.

Lemma count_if_none {A} (f : A -> bool) (l : list A) :
  Forall (fun x => f x = false) l -> count_if f l = 0.
Proof. induction 1 as [|x r Hx _ IH]; simpl; [done|]. rewrite Hx. lia. Qed.

Lemma count_if_all {A} (f : A -> bool) (l : list A) :
  Forall (fun x => f x = true) l -> count_if f l = Z.of_nat (length l).
Proof. induction 1 as [|x r Hx _ IH]; simpl length; simpl count_if; [done|]. rewrite Hx. lia. Qed.

Lemma count_if_ext {A} (f g : A -> bool) (l : list A) :
  Forall (fun x => f x = g x) l -> count_if f l = count_if g l.
Proof. induction 1 as [|x r Hx _ IH]; simpl; [done|]. rewrite Hx. lia. Qed.

Lemma count_if_bounds {A} (f : A -> bool) (l : list A) :
  0 <= count_if f l <= Z.of_nat (length l).
Proof. induction l as [|x r IH]; simpl length; simpl count_if; [lia|]. destruct (f x); lia. Qed.

(** * [calculate_ranks] *)

Lemma valid_marks_spec (v : value) :
  valid_marks v =
  if in_double_range v then Ok (finite_number v) else Raise OverflowError.
Proof.
  destruct v as [| b | z | f | | |]; try reflexivity.
  - unfold valid_marks, math_isnan, math_isinf, int_to_float, in_double_range. simpl.
    destruct (Z.leb_spec DBL_OVERFLOW (Z.abs z)), (Z.ltb_spec (Z.abs z) DBL_OVERFLOW);
      try reflexivity; lia.
  - unfold valid_marks, finite_number, float_ext. simpl.
    unfold float_ext. destruct (is_nan f); [reflexivity|]. simpl.
    destruct (is_infinity f); [|reflexivity]. by destruct (get_sign f).
Qed.

Lemma valid_entries_spec (l : list district) :
  valid_entries l =
  if forallb (fun d => in_double_range (total_marks d)) l
  then Ok (List.filter (fun d => finite_number (total_marks d)) l)
  else Raise OverflowError.
Proof.
  induction l as [|d r IH]; [reflexivity|].
  simpl. rewrite valid_marks_spec.
  destruct (in_double_range (total_marks d)); [|reflexivity]. simpl.
  rewrite IH. destruct (forallb _ r); reflexivity.
Qed.

Lemma count_if_filter {A} (f g : A -> bool) (l : list A) :
  count_if (fun x => f x && g x) l = count_if g (List.filter f l).
Proof.
  induction l as [|x r IH]; simpl; [done|].
  destruct (f x); simpl; lia.
Qed.

Lemma rank_among_Permutation (l k : list district) (marks : value) :
  l ≡ₚ k -> rank_among l marks = rank_among k marks.
Proof. intros H. unfold rank_among, strictly_greater. by rewrite (count_if_Permutation _ _ _ H). Qed.

Lemma rank_among_filter (l : list district) (marks : value) :
  rank_among (List.filter (fun d => finite_number (total_marks d)) l) marks =
  rank_among l marks.
Proof.
  unfold rank_among, strictly_greater. rewrite <- !count_if_filter.
  f_equal. apply count_if_ext, Forall_forall. intros x _.
  by destruct (finite_number (total_marks x)).
Qed.

(** The rank of a finite score among finite scores, through the keys. *)
Lemma rank_among_keys (l : list district) (d : district) :
  Forall (fun e => finite_number (total_marks e) = true) l ->
  finite_number (total_marks d) = true ->
  rank_among l (total_marks d) = 1 + count_if (fun e => key_of d <? key_of e) l.
Proof.
  intros Hl Hd. unfold rank_among, strictly_greater. f_equal.
  apply count_if_ext. eapply Forall_impl; [exact Hl|]. intros e He. simpl.
  rewrite He. simpl. by apply num_ltb_fin.
Qed.

Lemma neg_infinity_not_finite (v : value) :
  finite_number v = true -> num_eqb v (VFloat neg_infinity) = false.
Proof.
  intros H%finite_number_ext. unfold num_eqb. rewrite H. reflexivity.
Qed.

Lemma rank_step_spec (all p q : list district) (d : district) (st : rank_state) :
  all = p ++ d :: q ->
  Forall (fun e => finite_number (total_marks e) = true) all ->
  StronglySorted (in_order total_marks true) all ->
  walk_inv p st ->
  walk_inv (p ++ [d]) (rank_step st d) /\
  ranks (rank_step st d) = assign_rank all (ranks st) d.
Proof.
  intros -> Hfin Hsort Hinv.
  apply Forall_app in Hfin as [Hp Hdq]. apply Forall_cons in Hdq as [Hd Hq].
  apply StronglySorted_app in Hsort as (Hpq & _ & Hdq).
  apply StronglySorted_cons in Hdq as [Hdq _].
  assert (Hge : Forall (fun e => key_of d <= key_of e) p).
  { apply Forall_forall. intros e He.
    specialize (Hpq e d He (list_elem_of_here _ _)). unfold in_order in Hpq.
    rewrite Forall_forall in Hp.
    rewrite (num_leb_fin _ _ Hd (Hp e He)) in Hpq. by apply Z.leb_le. }
  assert (Hle : Forall (fun e => (key_of d <? key_of e) = false) q).
  { rewrite Forall_forall in Hdq, Hq. apply Forall_forall. intros e He.
    specialize (Hdq e He). unfold in_order in Hdq.
    rewrite (num_leb_fin _ _ (Hq e He) Hd) in Hdq.
    apply Z.leb_le in Hdq. apply Z.ltb_ge. exact Hdq. }
  assert (Hrank : rank_among (p ++ d :: q) (total_marks d) =
                  1 + count_if (fun e => key_of d <? key_of e) p).
  { rewrite rank_among_keys; [|by apply Forall_app; auto|done].
    rewrite count_if_app. simpl. rewrite Z.ltb_irrefl, (count_if_none _ q Hle). lia. }
  unfold assign_rank. rewrite Hrank. clear Hrank.
  unfold rank_step. simpl.
  destruct Hinv as [(-> & Hcr & Har & Hls) | (Hfl & (e0 & He0 & Hk0) & Hall & Hcr & Hsum)].
  - rewrite Hls, (neg_infinity_not_finite _ Hd). simpl.
    rewrite Hcr, Har. simpl.
    destruct (String.eqb (name d) ""); simpl.
    all: split; [right; simpl; split_and! | done]; try done.
    all: try (exists d; split; [apply list_elem_of_here|done]).
    all: try (repeat constructor; unfold key_of; lia).
    all: unfold key_of; rewrite Z.ltb_irrefl; lia.
  - rewrite (num_eqb_fin _ _ Hd Hfl). fold (key_of d).
    assert (Hd0 : key_of d <= fin_key (last_score st)).
    { rewrite Forall_forall in Hge. rewrite <- Hk0. by apply Hge. }
    destruct (Z.eqb_spec (key_of d) (fin_key (last_score st))) as [Heq | Hne]; simpl.
    + destruct (String.eqb (name d) ""); simpl.
      all: split; [right; simpl; split_and! | try done; f_equal; rewrite Heq; lia]; try done.
      all: try (exists e0; split; [apply elem_of_app; by left|done]).
      all: try (apply Forall_app; split; [done|]; repeat constructor; lia).
      all: try (rewrite count_if_app; simpl; rewrite <- Heq, Z.ltb_irrefl, Heq; lia).
      all: rewrite length_app; simpl; lia.
    + assert (Hall' : count_if (fun e => key_of d <? key_of e) p = Z.of_nat (length p)).
      { apply count_if_all. eapply Forall_impl; [exact Hall|].
        intros e He. simpl in He. apply Z.ltb_lt. lia. }
      destruct (String.eqb (name d) ""); simpl.
      all: split; [right; simpl; split_and! | try done; f_equal; lia]; try done.
      all: try (exists d; split; [apply elem_of_app; right; apply list_elem_of_here|done]).
      all: try (apply Forall_app; split; [done|]; repeat constructor; unfold key_of; lia).
      all: try (rewrite count_if_app; simpl; fold (key_of d); rewrite Z.ltb_irrefl, Hall'; lia).
      all: rewrite length_app; simpl; lia.
Qed.

Lemma rank_walk_spec (all : list district) :
  Forall (fun e => finite_number (total_marks e) = true) all ->
  StronglySorted (in_order total_marks true) all ->
  forall (q p : list district) (st : rank_state),
    all = p ++ q -> walk_inv p st ->
    ranks (fold_left rank_step q st) = fold_left (assign_rank all) q (ranks st).
Proof.
  intros Hfin Hsort q. induction q as [|d q IH]; intros p st Hall Hinv; [done|].
  simpl. destruct (rank_step_spec all p q d st Hall Hfin Hsort Hinv) as [Hinv' Hr].
  rewrite <- Hr. apply (IH (p ++ [d])); [|done].
  by rewrite <- app_assoc.
Qed.

Lemma rank_among_same_key (all : list district) (d e : district) :
  Forall (fun x => finite_number (total_marks x) = true) all ->
  finite_number (total_marks d) = true -> finite_number (total_marks e) = true ->
  key_of d = key_of e ->
  rank_among all (total_marks d) = rank_among all (total_marks e).
Proof.
  intros Hall Hd He Hk. rewrite !rank_among_keys by done. by rewrite Hk.
Qed.

Lemma assign_rank_lookup_ne (all : list district) (m : gmap string Z)
    (x : district) (n : string) :
  name x <> n \/ n = "" -> assign_rank all m x !! n = m !! n.
Proof.
  unfold assign_rank. intros H.
  destruct (String.eqb_spec (name x) "") as [E|E]; [done|].
  apply lookup_insert_ne. intros E'. destruct H as [H|H]; congruence.
Qed.

(** The map built over a sorted list gives each name the rank of its
    lowest score. *)
Lemma fold_assign_rank_lookup (all s : list district) (n : string) (r : Z) :
  Forall (fun x => finite_number (total_marks x) = true) all ->
  Forall (fun x => finite_number (total_marks x) = true) s ->
  StronglySorted (in_order total_marks true) s ->
  fold_left (assign_rank all) s ∅ !! n = Some r <->
  n <> "" /\
  exists d, d ∈ s /\ name d = n /\ r = rank_among all (total_marks d) /\
    forall e, e ∈ s -> name e = n -> key_of d <= key_of e.
Proof.
  intros Hall. induction s as [|x s IH] using rev_ind; intros Hs Hsort.
  { simpl. rewrite lookup_empty. split; [done|].
    intros (_ & d & Hd%elem_of_nil & _). done. }
  apply Forall_app in Hs as [Hs Hx]. apply Forall_cons in Hx as [Hx _].
  apply StronglySorted_app in Hsort as (Hsx & Hsort & _).
  rewrite fold_left_app. simpl.
  assert (Hmin : forall e, e ∈ s -> key_of x <= key_of e).
  { intros e He. specialize (Hsx e x He (list_elem_of_here _ _)).
    unfold in_order in Hsx. rewrite Forall_forall in Hs.
    rewrite (num_leb_fin _ _ Hx (Hs e He)) in Hsx. by apply Z.leb_le. }
  destruct (decide (name x = n /\ n <> "")) as [[Hn Hne] | Hn].
  - unfold assign_rank. destruct (String.eqb_spec (name x) "") as [E|E]; [congruence|].
    rewrite Hn, lookup_insert_eq. split.
    + intros [= <-]. split; [done|]. exists x. split_and!; try done.
      * apply elem_of_app. right. apply list_elem_of_here.
      * intros e [He | ->%list_elem_of_singleton]%elem_of_app _; [auto|lia].
    + intros (_ & d & Hd & Hdn & -> & Hleast). f_equal.
      apply elem_of_app in Hd as [Hd | ->%list_elem_of_singleton]; [|done].
      rewrite Forall_forall in Hs.
      apply rank_among_same_key; auto.
      assert (key_of d <= key_of x).
      { apply Hleast; [|done]. apply elem_of_app. right. apply list_elem_of_here. }
      specialize (Hmin d Hd). lia.
  - assert (Hn' : name x <> n \/ n = "").
    { destruct (decide (n = "")); [by right|]. left. intros E. apply Hn. done. }
    rewrite (assign_rank_lookup_ne _ _ _ _ Hn'), (IH Hs Hsort).
    split; intros (Hne & d & Hd & Hdn & Hr & Hleast); (split; [done|]).
    + exists d. split_and!; try done.
      * apply elem_of_app. by left.
      * intros e [He | ->%list_elem_of_singleton]%elem_of_app Hen; [auto|].
        destruct Hn'; congruence.
    + exists d. split_and!; try done.
      * apply elem_of_app in Hd as [Hd | ->%list_elem_of_singleton]; [done|].
        destruct Hn'; congruence.
      * intros e He. apply Hleast. apply elem_of_app. by left.
Qed.

Lemma filter_finite_elem (l : list district) (d : district) :
  d ∈ List.filter (fun d => finite_number (total_marks d)) l <->
  d ∈ l /\ finite_number (total_marks d) = true.
Proof. rewrite !list_elem_of_In. apply filter_In. Qed.

(** [calculate_ranks] on districts whose marks convert: the map it
    returns, name by name. *)
Lemma calculate_ranks_lookup (l : list district) :
  forallb (fun d => in_double_range (total_marks d)) l = true ->
  exists m, calculate_ranks l = Ok m /\
    forall n r, m !! n = Some r <-> ranked_as l n r.
Proof.
  intros Hrange.
  set (valid := List.filter (fun d => finite_number (total_marks d)) l).
  set (sorted := py_sorted total_marks true valid).
  assert (Hperm : sorted ≡ₚ valid) by apply py_sorted_Permutation.
  assert (Hvalid : Forall (fun x => finite_number (total_marks x) = true) valid).
  { apply Forall_forall. intros x Hx. by apply filter_finite_elem in Hx as [_ Hx]. }
  assert (Hfin : Forall (fun x => finite_number (total_marks x) = true) sorted).
  { by rewrite Hperm. }
  assert (Hsort : StronglySorted (in_order total_marks true) sorted).
  { apply py_sorted_StronglySorted.
    eapply Forall_impl; [exact Hvalid|]. intros x. apply finite_number_comparable. }
  exists (fold_left (assign_rank sorted) sorted ∅). split.
  - unfold calculate_ranks. rewrite valid_entries_spec, Hrange. fold valid.
    destruct l as [|d0 l0]; [done|]. simpl mbind.
    destruct valid as [|v0 valid0] eqn:Ev; [done|]. fold sorted. f_equal.
    apply (rank_walk_spec sorted Hfin Hsort sorted [] initial_rank_state); [done|].
    left. done.
  - intros n r. rewrite (fold_assign_rank_lookup sorted sorted n r Hfin Hfin Hsort).
    unfold ranked_as.
    assert (Hrank : forall v, rank_among sorted v = rank_among l v).
    { intros v. rewrite (rank_among_Permutation _ _ v Hperm). apply rank_among_filter. }
    assert (Hin : forall d, d ∈ sorted <-> d ∈ l /\ finite_number (total_marks d) = true).
    { intros d. rewrite Hperm. apply filter_finite_elem. }
    split; intros (Hne & d & Hd & Hdn & Hr & Hleast); (split; [done|]); exists d.
    + apply Hin in Hd as [Hd Hdf]. split_and!; try done.
      * by rewrite <- Hrank.
      * intros e He Hen Hef. apply Hleast; [|done]. apply Hin. done.
    + destruct Hleast as (Hr' & Hleast'). split_and!; try done.
      * apply Hin. done.
      * by rewrite Hrank.
      * intros e He%Hin Hen. destruct He. by apply Hleast'.
Qed.

Lemma calculate_ranks_overflow (l : list district) :
  forallb (fun d => in_double_range (total_marks d)) l = false ->
  calculate_ranks l = Raise OverflowError.
Proof.
  intros Hrange. unfold calculate_ranks. rewrite valid_entries_spec, Hrange.
  by destruct l.
Qed.

Lemma forallb_Permutation {A} (f : A -> bool) (l k : list A) :
  l ≡ₚ k -> forallb f l = forallb f k.
Proof.
  induction 1 as [|x l k _ IH|x y l|l k j _ IH1 _ IH2]; simpl.
  - done.
  - by rewrite IH.
  - by destruct (f x), (f y).
  - by rewrite IH1.
Qed.

Lemma ranked_as_Permutation (l k : list district) (n : string) (r : Z) :
  l ≡ₚ k -> ranked_as l n r -> ranked_as k n r.
Proof.
  intros Hperm (Hne & d & Hd & Hdn & Hdf & Hr & Hleast).
  split; [done|]. exists d. split_and!; try done.
  - by rewrite <- Hperm.
  - by rewrite <- (rank_among_Permutation _ _ _ Hperm).
  - intros e He. apply Hleast. by rewrite Hperm.
Qed.

Lemma name_unique (l : list district) (d e : district) :
  NoDup (name <$> l) -> d ∈ l -> e ∈ l -> name d = name e -> d = e.
Proof.
  induction l as [|x l IH]; intros Hnd Hd He Hn.
  { by apply elem_of_nil in Hd. }
  rewrite fmap_cons in Hnd. apply NoDup_cons in Hnd as [Hx Hnd].
  apply elem_of_cons in Hd as [-> | Hd]; apply elem_of_cons in He as [-> | He].
  - done.
  - exfalso. apply Hx. rewrite Hn. by apply list_elem_of_fmap_2.
  - exfalso. apply Hx. rewrite <- Hn. by apply list_elem_of_fmap_2.
  - auto.
Qed.

(** C9. Two inputs that hold the same district records, in any order,
    get the same result from [calculate_ranks]: the same name-to-rank map
    (or, when a score is an integer too large for a float, the same error). *)
Theorem calculate_ranks_order_independent (l1 l2 : list district) :
  l1 ≡ₚ l2 -> calculate_ranks l1 = calculate_ranks l2.
Proof.
  intros Hperm.
  destruct (forallb (fun d => in_double_range (total_marks d)) l1) eqn:Hrange.
  - destruct (calculate_ranks_lookup l1 Hrange) as (m1 & -> & H1).
    rewrite (forallb_Permutation _ _ _ Hperm) in Hrange.
    destruct (calculate_ranks_lookup l2 Hrange) as (m2 & -> & H2).
    f_equal. apply map_eq. intros n. apply option_eq. intros r.
    rewrite H1, H2. split; apply ranked_as_Permutation; [done | by symmetry].
  - rewrite (calculate_ranks_overflow l1 Hrange).
    rewrite (forallb_Permutation _ _ _ Hperm) in Hrange.
    by rewrite (calculate_ranks_overflow l2 Hrange).
Qed.

(** C1. On the districts of one date (every entry stored under its own
    non-empty name, scores that convert to a float), [calculate_ranks]
    returns a map whose domain is exactly the names of the districts whose
    [total_marks] is a finite number, and the rank of each is 1 plus the
    number of such districts with strictly greater [total_marks]. *)
Theorem calculate_ranks_competition (l : list district) :
  Forall (fun d => name d <> "") l ->
  NoDup (name <$> l) ->
  forallb (fun d => in_double_range (total_marks d)) l = true ->
  exists m, calculate_ranks l = Ok m /\
    (forall n, is_Some (m !! n) <->
       exists d, d ∈ l /\ name d = n /\ finite_number (total_marks d) = true) /\
    (forall d, d ∈ l -> finite_number (total_marks d) = true ->
       m !! name d = Some (1 + strictly_greater l (total_marks d))).
Proof.
  intros Hnames Hnd Hrange.
  destruct (calculate_ranks_lookup l Hrange) as (m & Hm & Hlook).
  exists m. split; [done|].
  assert (Hrank : forall d, d ∈ l -> finite_number (total_marks d) = true ->
            m !! name d = Some (1 + strictly_greater l (total_marks d))).
  { intros d Hd Hdf. apply Hlook. split.
    - rewrite Forall_forall in Hnames. by apply Hnames.
    - exists d. split_and!; try done.
      intros e He Hen _. by rewrite (name_unique l e d Hnd He Hd Hen). }
  split; [|done].
  intros n. split.
  - intros [r Hr]. apply Hlook in Hr as (_ & d & Hd & Hdn & Hdf & _). eauto.
  - intros (d & Hd & <- & Hdf). rewrite (Hrank d Hd Hdf). eauto.
Qed.

(** * Total marks *)

Lemma dict_get_set (d : dict) (k : string) (v : value) :
  dict_get (dict_set d k v) k = v.
Proof.
  unfold dict_get. induction d as [|[k' v'] d IH]; simpl.
  - by rewrite String.eqb_refl.
  - destruct (String.eqb k' k) eqn:E; simpl.
    + by rewrite String.eqb_refl.
    + by rewrite E.
Qed.

Lemma py_add_float_l (a : float) (m v : value) :
  py_add (VFloat a) m = Ok v -> exists s, v = VFloat s.
Proof.
  unfold py_add. destruct m; simpl; try discriminate.
  all: try (intros [= <-]; eauto).
  destruct (int_to_float z); simpl; [|discriminate]. intros [= <-]. eauto.
Qed.

Lemma bind_Ok {A B} (c : result A) (k : A -> result B) (b : B) :
  mbind k c = Ok b -> exists a, c = Ok a /\ k a = Ok b.
Proof. destruct c as [a|e]; simpl; [eauto|discriminate]. Qed.

Lemma add_marks_float (d : dict) (v : value) :
  add_marks d = Ok v -> exists s, v = VFloat s.
Proof.
  unfold add_marks. intros H.
  repeat (apply bind_Ok in H as (? & ? & H)).
  repeat match goal with
         | H : py_add (VFloat _) _ = Ok _ |- _ => apply py_add_float_l in H as [? ->]
         end.
  eauto.
Qed.

Lemma total_marks_of_raise (d : dict) (e : exn) :
  sum_total_marks d = Raise e -> total_marks_of d = VNone.
Proof. unfold total_marks_of. by intros ->. Qed.

Lemma total_marks_of_sum (d : dict) (s : float) :
  add_marks d = Ok (VFloat s) ->
  total_marks_of d =
  VFloat (round2 (if is_nan s || is_infinity s then 0%float else s)).
Proof.
  unfold total_marks_of, sum_total_marks, nan_or_inf. intros ->. simpl.
  destruct (is_nan s); simpl; [done|]. by destruct (is_infinity s).
Qed.

Lemma calculate_ranks_unranked (l : list district) (m : gmap string Z) (n : string) :
  calculate_ranks l = Ok m ->
  (forall x, x ∈ l -> name x = n -> finite_number (total_marks x) = false) ->
  m !! n = None.
Proof.
  intros Hm Hn.
  destruct (forallb (fun d => in_double_range (total_marks d)) l) eqn:Hrange.
  - destruct (calculate_ranks_lookup l Hrange) as (m' & Hm' & Hlook).
    rewrite Hm in Hm'. injection Hm' as <-.
    apply eq_None_not_Some. intros [r Hr].
    apply Hlook in Hr as (_ & d & Hd & Hdn & Hdf & _).
    rewrite (Hn d Hd Hdn) in Hdf. discriminate.
  - rewrite (calculate_ranks_overflow l Hrange) in Hm. discriminate.
Qed.

(** C2, amended.  Every district of the batch gets a [total_marks] of its
    own, whatever happens to the others.  A computation that raises sets it
    to null, which is not 0 and is left out of the ranking.  A sum that
    overflows to infinity, or is NaN, does not raise: it is replaced by 0.0,
    and the district is scored like any other. *)
Theorem total_marks_failure_isolated (processed : list (string * dict)) (i : nat)
    (dist_name : string) (dist_data : dict) :
  processed !! i = Some (dist_name, dist_data) ->
  (exists dist_data',
     calculate_total_marks processed !! i = Some (dist_name, dist_data') /\
     dict_get dist_data' TOTAL_MARKS_KEY = total_marks_of dist_data) /\
  (forall e, sum_total_marks dist_data = Raise e -> total_marks_of dist_data = VNone) /\
  (forall s, add_marks dist_data = Ok (VFloat s) ->
     total_marks_of dist_data =
     VFloat (round2 (if is_nan s || is_infinity s then 0%float else s))) /\
  VNone <> VFloat 0 /\
  (forall l m n, calculate_ranks l = Ok m ->
     (forall x, x ∈ l -> name x = n -> total_marks x = VNone) -> m !! n = None).
Proof.
  intros Hi. split_and!.
  - exists (dict_set dist_data TOTAL_MARKS_KEY (total_marks_of dist_data)). split.
    + unfold calculate_total_marks.
      change (List.map ?f ?l) with (f <$> l).
      by rewrite list_lookup_fmap, Hi.
    + apply dict_get_set.
  - apply total_marks_of_raise.
  - apply total_marks_of_sum.
  - discriminate.
  - intros l m n Hm Hn. apply (calculate_ranks_unranked l m n Hm).
    intros x Hx Hxn. by rewrite (Hn x Hx Hxn).
Qed.

(** * [get_top_bottom_by_field] *)

Lemma last_cons_default {A} (es : list A) (e d : A) :
  List.last (e :: es) d = List.last es e.
Proof.
  revert e d. induction es as [|x es IH]; intros e d; [done|].
  change (List.last (e :: x :: es) d) with (List.last (x :: es) d).
  by rewrite (IH x d), (IH x e).
Qed.

Lemma num_leb_refl (v : value) : comparable v = true -> num_leb v v = true.
Proof.
  unfold comparable, num_eqb, num_leb, ext_leb.
  destruct (num_ext v); [|by rewrite andb_false_r].
  intros [_ ->]%andb_true_iff. apply orb_true_r.
Qed.

Lemma keep_entry_spec (field_key : string) (nested_keys : list string)
    (name_key : string) (it : value) :
  keep_entry field_key nested_keys name_key it =
  if survives field_key nested_keys name_key it
  then Some {| item := it; entry_value := compared_value field_key nested_keys it |}
  else None.
Proof. reflexivity. Qed.

Lemma valid_entries_items (field_key : string) (nested_keys : list string)
    (name_key : string) (data_list : list value) :
  item <$> omap (keep_entry field_key nested_keys name_key) data_list =
  List.filter (survives field_key nested_keys name_key) data_list.
Proof.
  induction data_list as [|it l IH]; [done|].
  simpl. rewrite keep_entry_spec.
  destruct (survives field_key nested_keys name_key it); simpl; by rewrite <- IH.
Qed.

Lemma valid_entries_values (field_key : string) (nested_keys : list string)
    (name_key : string) (data_list : list value) (e : entry) :
  e ∈ omap (keep_entry field_key nested_keys name_key) data_list ->
  entry_value e = compared_value field_key nested_keys (item e) /\
  comparable (entry_value e) = true.
Proof.
  intros (it & _ & He)%list_elem_of_omap.
  rewrite keep_entry_spec in He.
  destruct (survives field_key nested_keys name_key it) eqn:Hs; [|discriminate].
  injection He as <-. simpl. split; [done|].
  by apply andb_true_iff in Hs as [Hs _].
Qed.

(** C3, amended.  [get_top_bottom_by_field] keeps the items whose compared
    value is a number other than NaN (an infinite value stays) and whose name
    is not empty.  With none left, top and bottom are null; otherwise both
    are items of the input as they stand, the top is at least as good as
    every item kept and every item kept is at least as good as the bottom. *)
Theorem get_top_bottom_by_field_spec (data_list : list value) (field_key : string)
    (nested_keys : list string) (name_key : string) (higher_is_better : bool) :
  let kept := List.filter (survives field_key nested_keys name_key) data_list in
  match kept with
  | [] =>
      get_top_bottom_by_field data_list field_key nested_keys name_key higher_is_better
      = {| top := None; bottom := None |}
  | _ =>
      exists t b,
        get_top_bottom_by_field data_list field_key nested_keys name_key higher_is_better
        = {| top := Some t; bottom := Some b |} /\
        t ∈ kept /\ b ∈ kept /\
        forall x, x ∈ kept ->
          in_order (compared_value field_key nested_keys) higher_is_better t x /\
          in_order (compared_value field_key nested_keys) higher_is_better x b
  end.
Proof.
  intros kept. unfold get_top_bottom_by_field.
  set (valid := omap (keep_entry field_key nested_keys name_key) data_list).
  set (sorted := py_sorted entry_value higher_is_better valid).
  assert (Hitems : item <$> valid = kept) by apply valid_entries_items.
  assert (Hperm : sorted ≡ₚ valid) by apply py_sorted_Permutation.
  assert (Hvals : forall e, e ∈ sorted ->
            entry_value e = compared_value field_key nested_keys (item e) /\
            comparable (entry_value e) = true).
  { intros e He. rewrite Hperm in He.
    by apply (valid_entries_values field_key nested_keys name_key data_list). }
  assert (Hsort : StronglySorted (in_order entry_value higher_is_better) sorted).
  { apply py_sorted_StronglySorted. apply Forall_forall. intros e He.
    apply Hvals. by rewrite Hperm. }
  assert (Hkept : forall x, x ∈ kept <-> exists e, e ∈ sorted /\ item e = x).
  { intros x. rewrite <- Hitems, list_elem_of_fmap. split.
    - intros (e & -> & He). exists e. split; [by rewrite Hperm|done].
    - intros (e & He & <-). exists e. split; [done|by rewrite <- Hperm]. }
  assert (Hord : forall e1 e2, e1 ∈ sorted -> e2 ∈ sorted ->
            in_order entry_value higher_is_better e1 e2 ->
            in_order (compared_value field_key nested_keys) higher_is_better
              (item e1) (item e2)).
  { intros e1 e2 [E1 _]%Hvals [E2 _]%Hvals. unfold in_order. by rewrite E1, E2. }
  assert (Hrefl : forall e, e ∈ sorted -> in_order entry_value higher_is_better e e).
  { intros e [_ He]%Hvals. unfold in_order. destruct higher_is_better; by apply num_leb_refl. }
  destruct sorted as [|e es] eqn:Es.
  - apply Permutation_nil_l in Hperm. rewrite <- Hperm in Hitems.
    simpl in Hitems. by rewrite <- Hitems.
  - assert (Hne : kept <> []).
    { intros Hk. assert (H0 : item e ∈ kept) by (apply Hkept; exists e; split; [left|done]).
      rewrite Hk in H0. by apply elem_of_nil in H0. }
    destruct kept as [|k0 kept0] eqn:Ek; [done|]. rewrite <- Ek in *.
    exists (item e), (item (List.last es e)).
    assert (Hlast : exists init, e :: es = init ++ [List.last es e]).
    { exists (removelast (e :: es)).
      rewrite <- (last_cons_default es e e). by apply app_removelast_last. }
    destruct Hlast as [init Hlast].
    assert (Hl : List.last es e ∈ e :: es).
    { rewrite Hlast. apply elem_of_app. right. left. }
    split_and!; try done.
    + apply Hkept. exists e. split; [left|done].
    + apply Hkept. by exists (List.last es e).
    + intros x (ex & Hex & <-)%Hkept. split.
      * apply Hord; [left|done|].
        apply elem_of_cons in Hex as [-> | Hex]; [apply Hrefl; left|].
        apply StronglySorted_cons in Hsort as [Hsort _].
        rewrite Forall_forall in Hsort. by apply Hsort.
      * apply Hord; [done|done|].
        rewrite Hlast in Hsort, Hex.
        apply elem_of_app in Hex as [Hex | ->%list_elem_of_singleton].
        -- eapply StronglySorted_app_1_elem_of; [exact Hsort|done|left].
        -- by apply Hrefl.
Qed.

(** * Day-over-day changes *)

Lemma int_to_float_in_range (z : Z) :
  in_double_range (VInt z) = true ->
  int_to_float z = Ok (nearest_float z).
Proof.
  unfold in_double_range, int_to_float. intros Hz%Z.ltb_lt.
  destruct (Z.leb_spec DBL_OVERFLOW (Z.abs z)); [lia|done].
Qed.

Lemma safe_convert_float `{Parsers} (v : value) :
  in_double_range v = true ->
  _safe_convert v float_type VNone =
  Ok (match coerce_finite v with Some f => VFloat f | None => VNone end).
Proof.
  intros Hv. destruct v as [| b | z | f | s | l | d]; try reflexivity.
  - simpl. by destruct b.
  - unfold _safe_convert, coerce_finite, py_float.
    rewrite (int_to_float_in_range z Hv). simpl.
    by destruct (is_nan _ || is_infinity _).
  - unfold _safe_convert, coerce_finite. simpl.
    by destruct (is_nan f || is_infinity f).
  - unfold _safe_convert, coerce_finite. simpl.
    destruct (float_of_str s) as [f|]; simpl; [|done].
    by destruct (is_nan f || is_infinity f).
Qed.



(** C8. For all ranks, null or an integer, [_calculate_rank_change] returns
    null when either rank is null and previous - current otherwise, so a
    positive result is an improvement; from rank 3 to rank 5 it is -2. *)
Theorem calculate_rank_change_spec `{Parsers} (current_rank previous_rank : option Z) :
  _calculate_rank_change (rank_value current_rank) (rank_value previous_rank) =
  Ok (match current_rank, previous_rank with
      | Some c, Some p => VInt (p - c)
      | _, _ => VNone
      end) /\
  _calculate_rank_change (VInt 5) (VInt 3) = Ok (VInt (-2)).
Proof.
  split; [|reflexivity].
  destruct current_rank as [c|], previous_rank as [p|]; reflexivity.
Qed.

(** * Per-category changes of the old works *)

Lemma changes_loop_spec `{Parsers} (curr_types prev_types : value)
    (categories : list string) (acc : gmap string OldWorks.category_change) :
  (forall c, c ∈ categories ->
     exists e, OldWorks.category_delta curr_types prev_types c = Ok e) ->
  exists m, OldWorks.changes_loop curr_types prev_types categories acc = Ok m /\
    (forall c e, c ∈ categories ->
       OldWorks.category_delta curr_types prev_types c = Ok e ->
       m !! c = if OldWorks.changed e then Some e else acc !! c) /\
    (forall c, c ∉ categories -> m !! c = acc !! c).
Proof.
  revert acc. induction categories as [|cat rest IH]; intros acc Hall.
  { exists acc. split_and!; [done| |done]. intros c e Hc. by apply elem_of_nil in Hc. }
  destruct (Hall cat (list_elem_of_here _ _)) as [e0 He0].
  simpl. rewrite He0. simpl.
  set (acc' := if OldWorks.changed e0 then <[cat:=e0]> acc else acc).
  destruct (IH acc') as (m & Hm & Hin & Hout).
  { intros c Hc. apply Hall. by right. }
  assert (Hcat : acc' !! cat = if OldWorks.changed e0 then Some e0 else acc !! cat).
  { unfold acc'. destruct (OldWorks.changed e0); [apply lookup_insert_eq|done]. }
  assert (Hother : forall c, c <> cat -> acc' !! c = acc !! c).
  { intros c Hc. unfold acc'. destruct (OldWorks.changed e0); [|done].
    by apply lookup_insert_ne. }
  exists m. split_and!; [done| |].
  - intros c e Hc He. destruct (decide (c ∈ rest)) as [Hr|Hr].
    + rewrite (Hin c e Hr He). destruct (OldWorks.changed e) eqn:Ee; [done|].
      destruct (decide (c = cat)) as [->|Hne]; [|by apply Hother].
      rewrite Hcat. rewrite He0 in He. injection He as ->. by rewrite Ee.
    + apply elem_of_cons in Hc as [-> | Hc]; [|done].
      rewrite (Hout cat Hr), Hcat. rewrite He0 in He. by injection He as ->.
  - intros c Hc. apply not_elem_of_cons in Hc as [Hne Hc].
    rewrite (Hout c Hc). by apply Hother.
Qed.

(** C7. When the two snapshots of a district are well-formed (every
    category's counts and marks convert), the per-category change map holds a
    category, with its [completed_change] and [marks_change], if and only if
    it is one of the tracked categories and one of the two changes is not
    zero; a category with both changes zero is not in the map. *)
Theorem individual_changes_sparse `{Parsers} (curr_dist_data prev_dist_data : value) :
  let curr_types := safe_get curr_dist_data ["individual_work_types"] (VDict []) in
  let prev_types := safe_get prev_dist_data ["individual_work_types"] (VDict []) in
  (forall c, c ∈ OldWorks.OLD_NRM_TARGET_CATEGORIES ->
     exists e, OldWorks.category_delta curr_types prev_types c = Ok e) ->
  exists m, OldWorks.individual_work_type_changes curr_dist_data prev_dist_data = Ok m /\
    forall c e, m !! c = Some e <->
      c ∈ OldWorks.OLD_NRM_TARGET_CATEGORIES /\
      OldWorks.category_delta curr_types prev_types c = Ok e /\
      (OldWorks.completed_change e <> 0 \/
       num_eqb (VFloat (OldWorks.marks_change e)) (VFloat 0) = false).
Proof.
  intros curr_types prev_types Hall.
  destruct (changes_loop_spec curr_types prev_types
              OldWorks.OLD_NRM_TARGET_CATEGORIES ∅ Hall) as (m & Hm & Hin & Hout).
  exists m. split; [done|].
  assert (Hchanged : forall e, OldWorks.changed e = true <->
            OldWorks.completed_change e <> 0 \/
            num_eqb (VFloat (OldWorks.marks_change e)) (VFloat 0) = false).
  { intros e. unfold OldWorks.changed.
    rewrite orb_true_iff, !negb_true_iff, Z.eqb_neq. done. }
  intros c e. split.
  - intros Hce.
    destruct (decide (c ∈ OldWorks.OLD_NRM_TARGET_CATEGORIES)) as [Hc|Hc].
    + destruct (Hall c Hc) as [e' He']. rewrite (Hin c e' Hc He') in Hce.
      destruct (OldWorks.changed e') eqn:Ee; [|by rewrite lookup_empty in Hce].
      injection Hce as <-. split_and!; [done|done|]. by apply Hchanged.
    + rewrite (Hout c Hc), lookup_empty in Hce. done.
  - intros (Hc & He & Hnz). rewrite (Hin c e Hc He).
    apply Hchanged in Hnz. by rewrite Hnz.
Qed.

(** * Grades *)

Ltac grade_cases :=
  repeat (simpl;
          match goal with
          | |- context [mbind _ ?c] =>
              let x := fresh "x" in
              destruct c as [x|?];
              [match type of x with bool => destruct x | _ => idtac end|]
          end);
  try reflexivity.

Lemma get_grade_label_decisions (value max_value state_stats : value) :
  get_grade_label value max_value state_stats =
  b ← grade_decisions value max_value state_stats; Ok (band_label b).
Proof.
  unfold get_grade_label, grade_decisions.
  destruct (negb (is_number value) || negb (is_number max_value)
            || num_eqb max_value (VInt 0)); [reflexivity|].
  destruct (py_truthy state_stats && is_dict state_stats
            && (py_truthy (stats_get state_stats "average")
                && py_truthy (stats_get state_stats "median"))); grade_cases.
Qed.

Lemma get_grade_class_decisions (value max_value state_stats : value) :
  get_grade_class value max_value state_stats =
  b ← grade_decisions value max_value state_stats; Ok (band_class b).
Proof.
  unfold get_grade_class, grade_decisions.
  destruct (negb (is_number value) || negb (is_number max_value)
            || num_eqb max_value (VInt 0)); [reflexivity|].
  destruct (py_truthy state_stats && is_dict state_stats
            && (py_truthy (stats_get state_stats "average")
                && py_truthy (stats_get state_stats "median"))); grade_cases.
Qed.

(** C10. For every input, the two grade functions agree: the label is
    the one of a band exactly when the class is the one of the same band,
    and "N/A" exactly when the class is the bare "grade-badge". *)
Theorem grade_label_class_agree (value max_value state_stats : value) :
  (get_grade_label value max_value state_stats = Ok "उत्कृष्ट" <->
   get_grade_class value max_value state_stats = Ok "grade-badge excellent") /\
  (get_grade_label value max_value state_stats = Ok "अच्छा" <->
   get_grade_class value max_value state_stats = Ok "grade-badge good") /\
  (get_grade_label value max_value state_stats = Ok "औसत" <->
   get_grade_class value max_value state_stats = Ok "grade-badge average") /\
  (get_grade_label value max_value state_stats = Ok "निम्न" <->
   get_grade_class value max_value state_stats = Ok "grade-badge poor") /\
  (get_grade_label value max_value state_stats = Ok "अति निम्न" <->
   get_grade_class value max_value state_stats = Ok "grade-badge very-poor") /\
  (get_grade_label value max_value state_stats = Ok "N/A" <->
   get_grade_class value max_value state_stats = Ok "grade-badge").
Proof.
  rewrite get_grade_label_decisions, get_grade_class_decisions.
  destruct (grade_decisions value max_value state_stats) as [b|e]; simpl.
  - destruct b; simpl; split_and!; split; intros E; try reflexivity; discriminate E.
  - split_and!; split; discriminate.
Qed.

Lemma int_ext_0 : int_ext 0 = EFin 0.
Proof. reflexivity. Qed.

Lemma int_ext_eq_0 (z : Z) : ext_eqb (int_ext z) (int_ext 0) = (z =? 0).
Proof.
  unfold int_ext, SCALE. cbn [ext_eqb]. rewrite Z.shiftl_0_l.
  destruct (Z.eqb_spec z 0) as [->|Hz]; [reflexivity|].
  apply Z.eqb_neq. rewrite Z.shiftl_eq_0_iff by lia. done.
Qed.

Lemma py_truthy_typed (v : value) :
  stat_typed v = true -> py_truthy v = nonzero_number v.
Proof.
  unfold nonzero_number, num_eqb.
  destruct v as [| b | z | f | | |]; try discriminate; intros _;
    cbn [py_truthy is_number num_ext andb].
  - reflexivity.
  - rewrite int_ext_eq_0. by destruct b.
  - by rewrite int_ext_eq_0.
  - by rewrite int_ext_0.
Qed.

Lemma dict_get_or_cases (d : dict) (k : string) (default : value) :
  dict_get_or d k default = dict_get d k \/
  (dict_get_or d k default = default /\ dict_get d k = VNone).
Proof.
  unfold dict_get. induction d as [|[k' v] d IH]; simpl; [by right|].
  destruct (String.eqb k' k); [by left|done].
Qed.

Lemma stat_truthy (d : dict) (k : string) :
  stat_typed (dict_get d k) = true ->
  py_truthy (dict_get_or d k (VInt 0)) = nonzero_number (dict_get d k) /\
  (nonzero_number (dict_get d k) = true ->
   dict_get_or d k (VInt 0) = dict_get d k /\
   is_number (dict_get d k) = true /\ in_double_range (dict_get d k) = true).
Proof.
  intros Ht. destruct (dict_get_or_cases d k (VInt 0)) as [E | [E1 E2]].
  - rewrite E. split; [by apply py_truthy_typed|].
    intros Hnz. split; [done|].
    unfold stat_typed in Ht. destruct (dict_get d k); try discriminate.
    all: by apply andb_true_iff in Ht.
  - rewrite E1, E2. split; [reflexivity|]. discriminate.
Qed.

(** Whether the grade functions take the relative branch. *)
Lemma stats_condition (state_stats : value) :
  stats_typed state_stats = true ->
  match usable_stats state_stats with
  | Some (avg, median) =>
      py_truthy state_stats && is_dict state_stats
      && (py_truthy (stats_get state_stats "average")
          && py_truthy (stats_get state_stats "median")) = true /\
      stats_get state_stats "average" = avg /\
      stats_get state_stats "median" = median /\
      (is_number avg = true /\ in_double_range avg = true) /\
      (is_number median = true /\ in_double_range median = true)
  | None =>
      py_truthy state_stats && is_dict state_stats
      && (py_truthy (stats_get state_stats "average")
          && py_truthy (stats_get state_stats "median")) = false
  end.
Proof.
  destruct state_stats as [| | | | | |d]; try (intros _; simpl; by rewrite ?andb_false_r).
  unfold stats_typed, usable_stats, stats_get, is_dict.
  intros [Ha Hm]%andb_true_iff.
  destruct (stat_truthy d "average" Ha) as [Ta Ua].
  destruct (stat_truthy d "median" Hm) as [Tm Um].
  rewrite Ta, Tm.
  destruct (nonzero_number (dict_get d "average")) eqn:Na; simpl.
  - destruct (nonzero_number (dict_get d "median")) eqn:Nm; simpl.
    + destruct (Ua eq_refl) as (? & ? & ?). destruct (Um eq_refl) as (? & ? & ?).
      split_and!; try done.
      destruct d; [discriminate Na|reflexivity].
    + by rewrite !andb_false_r.
  - by rewrite andb_false_r.
Qed.

Lemma operand_float_typed (v : value) :
  is_number v = true -> in_double_range v = true ->
  operand_float v = Ok (as_float v).
Proof.
  destruct v as [| b | z | f | | |]; try discriminate; intros _ Hr; try reflexivity.
  simpl. by apply int_to_float_in_range.
Qed.

Lemma py_mul_float (v : value) (c : float) :
  is_number v = true -> in_double_range v = true ->
  py_mul v (VFloat c) = Ok (times c v).
Proof.
  intros Hn Hr. unfold py_mul, times.
  rewrite (operand_float_typed v Hn Hr). simpl.
  by destruct (operand_int v).
Qed.

Lemma num_ge_numbers (a b : value) :
  is_number a = true -> is_number b = true -> num_ge a b = Ok (at_least a b).
Proof.
  unfold num_ge, at_least, num_leb.
  destruct a; try discriminate; destruct b; try discriminate; reflexivity.
Qed.

Lemma operand_int_range (v : value) (x : Z) :
  operand_int v = Some x -> in_double_range v = true -> Z.abs x < DBL_OVERFLOW.
Proof.
  assert (1 < DBL_OVERFLOW) by reflexivity.
  destruct v as [| b | z | | | |]; try discriminate; intros [= <-] Hr.
  - destruct b; simpl; lia.
  - simpl in Hr. by apply Z.ltb_lt in Hr.
Qed.

Lemma operand_int_nonzero (v : value) (y : Z) :
  operand_int v = Some y -> num_eqb v (VInt 0) = false -> y <> 0.
Proof.
  intros Hv Hz ->. destruct v as [| b | z | | | |]; try discriminate.
  - destruct b; [discriminate Hv|discriminate Hz].
  - injection Hv as ->. discriminate Hz.
Qed.

Lemma py_truediv_percent (v max_value : value) :
  is_number v = true -> is_number max_value = true ->
  in_double_range v = true -> in_double_range max_value = true ->
  num_eqb max_value (VInt 0) = false ->
  (q ← py_truediv v max_value; py_mul q (VInt 100)) = Ok (percent_of v max_value).
Proof.
  intros Hv Hm Rv Rm Hz. unfold py_truediv, percent_of.
  rewrite Hv, Hm, Hz. simpl.
  destruct (operand_int v) as [x|] eqn:Ex.
  - destruct (operand_int max_value) as [y|] eqn:Ey.
    + unfold int_truediv.
      pose proof (operand_int_range v x Ex Rv).
      pose proof (operand_int_nonzero max_value y Ey Hz).
      destruct (Z.leb_spec (DBL_OVERFLOW * Z.abs y) (Z.abs x)); [nia|].
      reflexivity.
    + by rewrite (operand_float_typed v Hv Rv), (operand_float_typed max_value Hm Rm).
  - by rewrite (operand_float_typed v Hv Rv), (operand_float_typed max_value Hm Rm).
Qed.

Lemma grade_decisions_typed (value max_value state_stats : value) :
  in_double_range value = true ->
  in_double_range max_value = true ->
  stats_typed state_stats = true ->
  grade_decisions value max_value state_stats =
  Ok (grade value max_value state_stats).
Proof.
  intros Rv Rm Hst. unfold grade_decisions, grade.
  destruct (negb (is_number value) || negb (is_number max_value)
            || num_eqb max_value (VInt 0)) eqn:Hna; [reflexivity|].
  apply orb_false_iff in Hna as [Hna Hz]. apply orb_false_iff in Hna as [Hv Hm].
  apply negb_false_iff in Hv, Hm.
  pose proof (stats_condition state_stats Hst) as Hc.
  destruct (usable_stats state_stats) as [[avg median]|].
  - destruct Hc as (-> & -> & -> & [Ha Ra] & [Hmd Rmd]).
    rewrite (py_mul_float avg 1.25 Ha Ra). simpl.
    rewrite (num_ge_numbers value (times 1.25 avg) Hv eq_refl). simpl.
    destruct (at_least value (times 1.25 avg)); [reflexivity|].
    rewrite (num_ge_numbers value avg Hv Ha). simpl.
    destruct (at_least value avg); [reflexivity|].
    rewrite (num_ge_numbers value median Hv Hmd). simpl.
    destruct (at_least value median); [reflexivity|].
    rewrite (py_mul_float median 0.7 Hmd Rmd). simpl.
    rewrite (num_ge_numbers value (times 0.7 median) Hv eq_refl). simpl.
    by destruct (at_least value (times 0.7 median)).
  - rewrite Hc.
    pose proof (py_truediv_percent value max_value Hv Hm Rv Rm Hz) as Hp.
    assert (Hpct : is_number (percent_of value max_value) = true) by reflexivity.
    set (pct := percent_of value max_value) in *. clearbody pct.
    destruct (py_truediv value max_value) as [q|]; [|discriminate Hp].
    simpl in Hp |- *. rewrite Hp. simpl.
    rewrite !(num_ge_numbers pct) by done. simpl.
    destruct (at_least pct (VInt 90)); [reflexivity|].
    destruct (at_least pct (VInt 70)); [reflexivity|].
    destruct (at_least pct (VInt 50)); [reflexivity|].
    by destruct (at_least pct (VInt 30)).
Qed.

(** C6. For every value and maximum in the range of a float, and state
    statistics that are absent or hold null or numeric average and median,
    [get_grade_label] returns the label of the grade: "N/A" when an input is
    not a number or the maximum is 0; with an average and a median both
    present and not zero, the band of the value against 1.25 x average,
    average, median and 0.7 x median; and otherwise the band of the
    percentage of the maximum against 90, 70, 50 and 30. *)
Theorem get_grade_label_spec (value max_value state_stats : value) :
  in_double_range value = true ->
  in_double_range max_value = true ->
  stats_typed state_stats = true ->
  get_grade_label value max_value state_stats =
  Ok (band_label (grade value max_value state_stats)).
Proof.
  intros Rv Rm Hst.
  rewrite get_grade_label_decisions, (grade_decisions_typed _ _ _ Rv Rm Hst).
  reflexivity.
Qed.

(** * Names of the farm ponds records *)

Lemma process_component_data_name `{Parsers} (data r : value) :
  FarmPonds.process_component_data data = Ok r ->
  (py_truthy data = false /\ r = VNone) \/
  (py_truthy data = true /\ py_truthy r = true /\
   FarmPonds.field r "name" = safe_get data [FarmPonds.NAME_KEY] VNone).
Proof.
  unfold FarmPonds.process_component_data.
  destruct (py_truthy data); simpl.
  - intros Hr. right.
    repeat (apply bind_Ok in Hr as (? & ? & Hr)).
    injection Hr as <-. done.
  - intros [= <-]. by left.
Qed.

Lemma state_results_processed_names `{Parsers} (l rs : list value) (r : value) :
  FarmPonds.state_results_processed l = Ok rs -> r ∈ rs ->
  exists raw, raw ∈ l /\ py_truthy raw = true /\
    FarmPonds.field r "name" = safe_get raw [FarmPonds.NAME_KEY] VNone.
Proof.
  revert rs. induction l as [|raw l IH]; intros rs Hrs Hr.
  { injection Hrs as <-. by apply elem_of_nil in Hr. }
  simpl in Hrs.
  apply bind_Ok in Hrs as (processed & Hp & Hrs).
  apply bind_Ok in Hrs as (others & Ho & Hrs).
  injection Hrs as <-.
  assert (Hrest : r ∈ others -> exists raw0, raw0 ∈ raw :: l /\ py_truthy raw0 = true /\
            FarmPonds.field r "name" = safe_get raw0 [FarmPonds.NAME_KEY] VNone).
  { intros Hin. destruct (IH others Ho Hin) as (raw0 & ? & ? & ?).
    exists raw0. split_and!; try done. by right. }
  destruct (py_truthy processed) eqn:Et; [|auto].
  apply elem_of_cons in Hr as [-> | Hr]; [|auto].
  apply process_component_data_name in Hp as [[_ ->] | (Hd & _ & Hn)]; [discriminate Et|].
  exists raw. split_and!; try done. left.
Qed.

Lemma panchayat_processed_list_names `{Parsers} (l ps : list value) (p : value) :
  FarmPonds.panchayat_processed_list l = Ok ps -> p ∈ ps ->
  py_truthy (FarmPonds.field p "name") = true.
Proof.
  revert ps. induction l as [|raw l IH]; intros ps Hps Hp.
  { injection Hps as <-. by apply elem_of_nil in Hp. }
  simpl in Hps.
  apply bind_Ok in Hps as (processed & _ & Hps).
  apply bind_Ok in Hps as (others & Ho & Hps).
  injection Hps as <-.
  destruct (py_truthy processed && py_truthy (FarmPonds.field processed "name")) eqn:Et;
    [|eauto].
  apply elem_of_cons in Hp as [-> | Hp]; [|eauto].
  by apply andb_true_iff in Et as [_ Et].
Qed.

Lemma top_5_panchayats_names `{Parsers} (l ps : list value) (p : value) :
  FarmPonds.top_5_panchayats l = Ok ps -> p ∈ ps ->
  py_truthy (FarmPonds.field p "name") = true.
Proof.
  unfold FarmPonds.top_5_panchayats. intros Hps Hp.
  apply bind_Ok in Hps as (all & Hall & Hps). injection Hps as <-.
  apply elem_of_take in Hp as (i & Hi & _). apply list_elem_of_lookup_2 in Hi.
  rewrite py_sorted_Permutation in Hi.
  by apply (panchayat_processed_list_names l all).
Qed.

Lemma processed_blocks_names `{Parsers} (fetch_panchayats : value -> list value)
    (l bs : list value) (b : value) :
  FarmPonds.processed_blocks fetch_panchayats l = Ok bs -> b ∈ bs ->
  py_truthy (FarmPonds.field b "name") = true /\
  (exists raw, raw ∈ l /\
     FarmPonds.field b "name" = safe_get raw [FarmPonds.NAME_KEY] VNone) /\
  (forall ps p, FarmPonds.field b "top_5_panchayats" = VList ps -> p ∈ ps ->
     py_truthy (FarmPonds.field p "name") = true).
Proof.
  revert bs. induction l as [|raw l IH]; intros bs Hbs Hb.
  { injection Hbs as <-. by apply elem_of_nil in Hb. }
  simpl in Hbs.
  apply bind_Ok in Hbs as (processed & Hp & Hbs).
  assert (Hrest : forall bs', FarmPonds.processed_blocks fetch_panchayats l = Ok bs' ->
            b ∈ bs' ->
            py_truthy (FarmPonds.field b "name") = true /\
            (exists raw0, raw0 ∈ raw :: l /\
               FarmPonds.field b "name" = safe_get raw0 [FarmPonds.NAME_KEY] VNone) /\
            (forall ps p, FarmPonds.field b "top_5_panchayats" = VList ps -> p ∈ ps ->
               py_truthy (FarmPonds.field p "name") = true)).
  { intros bs' Hbs' Hb'. destruct (IH bs' Hbs' Hb') as (? & (raw0 & ? & ?) & ?).
    split_and!; try done. exists raw0. split; [by right|done]. }
  destruct (negb (py_truthy processed)
            || negb (py_truthy (FarmPonds.field processed "name"))) eqn:Eskip;
    [by eauto|].
  apply orb_false_iff in Eskip as [Et En]. apply negb_false_iff in Et, En.
  apply bind_Ok in Hbs as (top5 & Htop & Hbs).
  apply bind_Ok in Hbs as (others & Ho & Hbs).
  injection Hbs as <-.
  apply elem_of_cons in Hb as [-> | Hb]; [|by eauto].
  apply process_component_data_name in Hp as [[_ ->] | (_ & _ & Hn)]; [discriminate Et|].
  split_and!.
  - exact En.
  - exists raw. split; [left|exact Hn].
  - intros ps p [= <-] Hp. by apply (top_5_panchayats_names _ _ _ Htop).
Qed.

(** C4, amended.  An empty or null raw record normalizes to nothing and
    is in no list.  Every other raw record is accepted, and the name stored
    for it is the raw name field as it was received, neither trimmed nor
    upper-cased (null when the field is missing or null).  The block-level
    list and the panchayat lists hold no record whose name is missing or
    empty. *)
Theorem process_component_data_names `{Parsers} (data : value) :
  (py_truthy data = false -> FarmPonds.process_component_data data = Ok VNone) /\
  (forall r, FarmPonds.process_component_data data = Ok r -> py_truthy data = true ->
     py_truthy r = true /\
     FarmPonds.field r "name" = safe_get data [FarmPonds.NAME_KEY] VNone) /\
  (forall l rs r, FarmPonds.state_results_processed l = Ok rs -> r ∈ rs ->
     exists raw, raw ∈ l /\ py_truthy raw = true /\
       FarmPonds.field r "name" = safe_get raw [FarmPonds.NAME_KEY] VNone) /\
  (forall fetch_panchayats l bs b,
     FarmPonds.block_level_data fetch_panchayats l = Ok bs -> b ∈ bs ->
     py_truthy (FarmPonds.field b "name") = true /\
     (exists raw, raw ∈ l /\
        FarmPonds.field b "name" = safe_get raw [FarmPonds.NAME_KEY] VNone) /\
     (forall ps p, FarmPonds.field b "top_5_panchayats" = VList ps -> p ∈ ps ->
        py_truthy (FarmPonds.field p "name") = true)).
Proof.
  split_and!.
  - intros Hd. unfold FarmPonds.process_component_data. by rewrite Hd.
  - intros r Hr Hd.
    apply process_component_data_name in Hr as [[Hd' _] | (_ & ? & ?)]; [congruence|done].
  - apply state_results_processed_names.
  - intros fetch_panchayats l bs b Hbs Hb. unfold FarmPonds.block_level_data in Hbs.
    apply bind_Ok in Hbs as (all & Hall & Hbs). injection Hbs as <-.
    rewrite py_sorted_Permutation in Hb.
    by apply (processed_blocks_names fetch_panchayats l all).
Qed.

(** * Text: characters and normal forms *)

Lemma characters_nil (s : string) : characters s = [] -> s = EmptyString.
Proof.
  destruct s as [|b r]; [done|]. simpl.
  destruct (characters r) as [|c l]; [done|]. by destruct (continues c).
Qed.

Lemma characters_join (s : string) : join (characters s) = s.
Proof.
  induction s as [|b r IH]; [done|]. simpl.
  destruct (characters r) as [|c l] eqn:E.
  - apply characters_nil in E as ->. done.
  - rewrite <- IH. by destruct (continues c).
Qed.

Lemma characters_continues (s c : string) (l : list string) :
  characters s = c :: l -> continues c = continues s.
Proof.
  destruct s as [|b r]; [done|]. simpl.
  destruct (characters r) as [|c' l']; [by intros [= <- <-]|].
  destruct (continues c'); by intros [= <- <-].
Qed.

Lemma characters_app (s1 s2 : string) :
  continues s2 = false -> characters (s1 ++ s2) = characters s1 ++ characters s2.
Proof.
  intros H2. induction s1 as [|b r IH]; [done|].
  change (String b r ++ s2)%string with (String b (r ++ s2)).
  cbn [characters]. rewrite IH.
  destruct (characters r) as [|c l] eqn:E; [|simpl; by destruct (continues c)].
  simpl. destruct (characters s2) as [|c l] eqn:E2; [done|].
  by rewrite (characters_continues s2 c l E2), H2.
Qed.

Lemma characters_all_continuation (t : string) :
  all_continuation t = true -> t <> EmptyString -> characters t = [t] /\ continues t = true.
Proof.
  induction t as [|b t IH]; [done|]. simpl. intros [Hb Ht]%andb_true_iff _.
  split; [|done]. destruct t as [|b' t']; [done|].
  destruct (IH Ht) as [-> Hc]; [done|]. by rewrite Hc.
Qed.

Lemma characters_character (c : string) : character c = true -> characters c = [c].
Proof.
  destruct c as [|b t]; [done|]. simpl. intros Ht.
  destruct t as [|b' t']; [done|].
  destruct (characters_all_continuation _ Ht) as [-> Hc]; [done|]. by rewrite Hc.
Qed.

Lemma characters_well_cut (s : string) : well_cut (characters s).
Proof.
  unfold well_cut. induction s as [|b r [IH1 IH2]]; [by split|]. simpl.
  destruct (characters r) as [|c l] eqn:E; [by split; repeat constructor|].
  apply Forall_cons in IH1 as [Hc Hl]. simpl in IH2.
  destruct (continues c) eqn:Ec.
  - split; [|done]. constructor; [|done]. simpl.
    destruct c as [|b' t]; [done|]. simpl in *. by rewrite Ec.
  - split; repeat constructor; done.
Qed.

Lemma well_cut_suffix (k l : list string) : well_cut (k ++ l) -> well_cut l.
Proof.
  intros [H1 H2]. apply Forall_app in H1 as [_ H1]. split; [done|].
  destruct k as [|x k]; [done|]. simpl in H2. apply Forall_app in H2 as [_ H2].
  destruct l; [done|]. by apply Forall_cons in H2 as [_ H2].
Qed.

Lemma well_cut_prefix (l k : list string) : well_cut (l ++ k) -> well_cut l.
Proof.
  intros [H1 H2]. apply Forall_app in H1 as [H1 _]. split; [done|].
  destruct l as [|x l]; [done|]. simpl in *. by apply Forall_app in H2 as [H2 _].
Qed.

Lemma join_continues (l : list string) :
  Forall (fun c => character c = true) l -> Forall (fun c => continues c = false) l ->
  continues (join l) = false.
Proof.
  intros H1 H2. destruct l as [|c l]; [done|].
  apply Forall_cons in H1 as [H1 _]. apply Forall_cons in H2 as [H2 _].
  by destruct c.
Qed.

Lemma characters_of_well_cut (l : list string) : well_cut l -> characters (join l) = l.
Proof.
  intros [H1 H2]. induction l as [|c l IH]; [done|].
  apply Forall_cons in H1 as [Hc Hl]. simpl in H2.
  change (join (c :: l)) with (c ++ join l)%string.
  rewrite characters_app by by apply join_continues.
  rewrite (characters_character c Hc), IH; [done|done|].
  destruct l; [done|]. by apply Forall_cons in H2 as [_ H2].
Qed.

Lemma append_assoc (a b c : string) : ((a ++ b) ++ c = a ++ (b ++ c))%string.
Proof.
  induction a as [|x a IH]; [done|].
  change (String x ((a ++ b) ++ c) = String x (a ++ (b ++ c)))%string. by rewrite IH.
Qed.

Lemma append_empty (a : string) : (a ++ EmptyString)%string = a.
Proof.
  induction a as [|x a IH]; [done|].
  change (String x (a ++ EmptyString) = String x a)%string. by rewrite IH.
Qed.

Lemma join_app (l k : list string) : join (l ++ k) = (join l ++ join k)%string.
Proof.
  induction l as [|c l IH]; [done|].
  change (join ((c :: l) ++ k)) with (c ++ join (l ++ k))%string.
  change (join (c :: l)) with (c ++ join l)%string.
  by rewrite IH, append_assoc.
Qed.

(** ** Blanks at the ends *)

Lemma lstrip_suffix (l : list string) : exists k, l = k ++ lstrip l.
Proof.
  induction l as [|c l [k IH]]; [by exists []|]. simpl.
  destruct (is_space c); [|by exists []]. exists (c :: k). simpl. by rewrite <- IH.
Qed.

Lemma rstrip_prefix (l : list string) : exists k, l = rstrip l ++ k.
Proof.
  unfold rstrip. destruct (lstrip_suffix (reverse l)) as [k Hk].
  exists (reverse k). rewrite <- reverse_app, <- Hk. by rewrite reverse_involutive.
Qed.

Lemma lstrip_solid (l : list string) : starts_solid l = true -> lstrip l = l.
Proof. destruct l as [|c l]; [done|]. simpl. by destruct (is_space c). Qed.

Lemma lstrip_starts_solid (l : list string) : starts_solid (lstrip l) = true.
Proof.
  induction l as [|c l IH]; [done|]. simpl.
  destruct (is_space c) eqn:E; [done|]. simpl. by rewrite E.
Qed.

Lemma stripped_strip (l : list string) : stripped (rstrip (lstrip l)).
Proof.
  split.
  - destruct (rstrip_prefix (lstrip l)) as [k Hk].
    pose proof (lstrip_starts_solid l) as Hs. rewrite Hk in Hs.
    by destruct (rstrip (lstrip l)).
  - unfold rstrip. rewrite reverse_involutive. apply lstrip_starts_solid.
Qed.

Lemma strip_stripped (l : list string) : stripped l -> rstrip (lstrip l) = l.
Proof.
  intros [H1 H2]. rewrite (lstrip_solid l H1). unfold rstrip.
  by rewrite (lstrip_solid _ H2), reverse_involutive.
Qed.

Lemma reverse_bind (g : string -> list string) (l : list string) :
  reverse (l ≫= g) = reverse l ≫= (reverse ∘ g).
Proof.
  induction l as [|c l IH]; [done|].
  rewrite bind_cons, reverse_app, IH, reverse_cons, bind_app. simpl.
  by rewrite app_nil_r.
Qed.

Lemma starts_solid_bind (g : string -> list string) (l : list string) :
  (forall c, c ∈ l -> is_space c = false -> g c <> [] /\ starts_solid (g c) = true) ->
  starts_solid l = true -> starts_solid (l ≫= g) = true.
Proof.
  intros Hg Hl. destruct l as [|c l]; [done|]. simpl in Hl.
  apply negb_true_iff in Hl. destruct (Hg c (list_elem_of_here _ _) Hl) as [Hne Hs].
  rewrite bind_cons. by destruct (g c).
Qed.

Lemma stripped_bind (g : string -> list string) (l : list string) :
  (forall c, c ∈ l -> is_space c = false -> g c <> [] /\ stripped (g c)) ->
  stripped l -> stripped (l ≫= g).
Proof.
  intros Hg [H1 H2]. split.
  - apply starts_solid_bind; [|done]. intros c Hin Hc.
    destruct (Hg c Hin Hc) as [? [? _]]. done.
  - rewrite reverse_bind. apply starts_solid_bind; [|done].
    intros c Hin Hc. rewrite elem_of_reverse in Hin. destruct (Hg c Hin Hc) as [Hne [_ Hr]]. split; [|done].
    simpl. intros E. apply Hne. by rewrite <- (reverse_involutive (g c)), E.
Qed.

(** ** Upper case *)

Lemma upper_form_elem (table : list (N * list N)) (n : N) (u : list N) :
  upper_form table n = Some u -> (n, u) ∈ table.
Proof.
  induction table as [|[m v] table IH]; [done|]. simpl.
  destruct (N.eqb_spec m n) as [->|Hne]; [intros [= ->]; left|].
  intros H. right. by apply IH.
Qed.

Lemma upper_table_ok (n : N) (u : list N) :
  upper_form upper_table n = Some u -> upper_form_ok u = true.
Proof.
  intros H%upper_form_elem.
  assert (Hall : forallb (fun e : N * list N => upper_form_ok e.2) upper_table = true)
    by (vm_compute; reflexivity).
  rewrite forallb_forall in Hall. apply (Hall (n, u)). by apply list_elem_of_In.
Qed.

(** The upper-case form of one character, read as a text: it does not begin
    in the middle of a character, it is its own upper-case form, and it has
    no blank at its ends unless the character is one. *)
Lemma upper_character_spec (c : string) :
  character c = true ->
  upper_character c <> EmptyString /\
  (continues c = false -> continues (upper_character c) = false) /\
  py_upper (upper_character c) = upper_character c /\
  (is_space c = false ->
   characters (upper_character c) <> [] /\ stripped (characters (upper_character c))).
Proof.
  intros Hc.
  assert (Hone : py_upper c = upper_character c).
  { unfold py_upper. rewrite (characters_character c Hc). apply append_empty. }
  unfold upper_character in *. destruct (code_point c) as [n|] eqn:En.
  2:{ split_and!; [by destruct c|done|done|]. intros Hs.
      rewrite (characters_character c Hc). split; [done|]. split; simpl; by rewrite Hs. }
  destruct (upper_form upper_table n) as [u|] eqn:Eu.
  2:{ split_and!; [by destruct c|done|done|]. intros Hs.
      rewrite (characters_character c Hc). split; [done|]. split; simpl; by rewrite Hs. }
  pose proof (upper_table_ok n u Eu) as Hok. unfold upper_form_ok in Hok.
  apply andb_true_iff in Hok as [Hok H5]. apply andb_true_iff in Hok as [Hok H4].
  apply andb_true_iff in Hok as [Hok H3]. apply andb_true_iff in Hok as [H1 H2].
  apply negb_true_iff in H1. apply negb_true_iff, String.eqb_neq in H2.
  apply String.eqb_eq in H3.
  split_and!; [done|done|done|]. intros _. split; [|by split].
  by intros E%characters_nil.
Qed.

Lemma continues_append (a b : string) :
  a <> EmptyString -> continues (a ++ b) = continues a.
Proof. by destruct a. Qed.

Lemma characters_upper (l : list string) :
  well_cut l ->
  characters (join (upper_character <$> l)) = l ≫= (characters ∘ upper_character).
Proof.
  induction l as [|c l IH]; [done|]. intros Hwf.
  pose proof (well_cut_suffix [c] l Hwf) as Hl.
  rewrite fmap_cons, bind_cons.
  change (join (upper_character c :: (upper_character <$> l)))
    with (upper_character c ++ join (upper_character <$> l))%string.
  rewrite characters_app, (IH Hl); [done|].
  destruct l as [|c' l']; [done|].
  destruct Hwf as [H1 H2]. simpl in H2.
  apply Forall_cons in H1 as [_ H1]. apply Forall_cons in H1 as [Hc' _].
  apply Forall_cons in H2 as [Hh _].
  destruct (upper_character_spec c' Hc') as (Hne & Hcont & _).
  rewrite fmap_cons.
  change (join (upper_character c' :: (upper_character <$> l')))
    with (upper_character c' ++ join (upper_character <$> l'))%string.
  rewrite continues_append by done. by apply Hcont.
Qed.

Lemma join_bind_characters (f : string -> string) (l : list string) :
  join (l ≫= (characters ∘ f)) = join (f <$> l).
Proof.
  induction l as [|c l IH]; [done|].
  rewrite bind_cons, join_app, IH. simpl. by rewrite characters_join.
Qed.

Lemma upper_bind_characters (l : list string) :
  Forall (fun c => character c = true) l ->
  join (upper_character <$> (l ≫= (characters ∘ upper_character))) =
  join (upper_character <$> l).
Proof.
  induction l as [|c l IH]; [done|]. intros [Hc Hl]%Forall_cons.
  rewrite bind_cons, fmap_app, join_app, (IH Hl), fmap_cons.
  destruct (upper_character_spec c Hc) as (_ & _ & Hup & _).
  simpl. unfold py_upper in Hup. by rewrite Hup.
Qed.

Lemma py_upper_idem (s : string) : py_upper (py_upper s) = py_upper s.
Proof.
  unfold py_upper at 1 2.
  rewrite (characters_upper _ (characters_well_cut s)).
  apply upper_bind_characters. apply characters_well_cut.
Qed.

Lemma well_cut_strip (l : list string) : well_cut l -> well_cut (rstrip (lstrip l)).
Proof.
  intros Hl. destruct (lstrip_suffix l) as [k Hk].
  destruct (rstrip_prefix (lstrip l)) as [k' Hk'].
  rewrite Hk in Hl. apply well_cut_suffix in Hl. rewrite Hk' in Hl.
  by apply well_cut_prefix in Hl.
Qed.

Lemma normal_form_strip (s : string) :
  py_strip (py_upper (py_strip s)) = py_upper (py_strip s).
Proof.
  unfold py_strip at 2 3.
  set (l := rstrip (lstrip (characters s))).
  assert (Hwf : well_cut l) by apply well_cut_strip, characters_well_cut.
  assert (Hs : stripped l) by apply stripped_strip.
  unfold py_upper, py_strip.
  rewrite (characters_of_well_cut l Hwf), (characters_upper l Hwf).
  rewrite strip_stripped; [apply join_bind_characters|].
  apply stripped_bind; [|done]. intros c Hin Hc.
  destruct Hwf as [Hall _]. rewrite Forall_forall in Hall.
  destruct (upper_character_spec c (Hall c Hin)) as (_ & _ & _ & H). by apply H.
Qed.

(** * Dicts and association lists *)

Lemma dict_get_or_set (d : dict) (k k' : string) (v dflt : value) :
  dict_get_or (dict_set d k v) k' dflt =
  if String.eqb k k' then v else dict_get_or d k' dflt.
Proof.
  induction d as [|[k0 v0] d IH]; simpl; [done|].
  destruct (String.eqb_spec k0 k) as [->|Hk]; simpl.
  - by destruct (String.eqb k k').
  - destruct (String.eqb_spec k0 k') as [->|Hk']; [|apply IH].
    destruct (String.eqb_spec k k'); congruence.
Qed.

Lemma assoc_get_Some {V} (m : list (string * V)) (k : string) (v : V) :
  assoc_get m k = Some v -> (k, v) ∈ m.
Proof.
  induction m as [|[k0 v0] m IH]; simpl; [done|].
  destruct (String.eqb_spec k0 k) as [->|Hk].
  - intros [= ->]. left.
  - intros H. right. auto.
Qed.

Lemma assoc_get_None {V} (m : list (string * V)) (k : string) :
  assoc_get m k = None <-> k ∉ m.*1.
Proof.
  induction m as [|[k0 v0] m IH]; simpl.
  - split; [intros _; apply not_elem_of_nil|done].
  - rewrite not_elem_of_cons. destruct (String.eqb_spec k0 k) as [->|Hk].
    + split; [done|]. intros [H _]. done.
    + rewrite IH. split; [intros H; split; [congruence|done] | by intros [_ H]].
Qed.

Lemma assoc_set_keys {V} (m : list (string * V)) (k : string) (v : V) :
  (assoc_set m k v).*1 =
  match assoc_get m k with Some _ => m.*1 | None => m.*1 ++ [k] end.
Proof.
  induction m as [|[k0 v0] m IH]; simpl; [done|].
  destruct (String.eqb_spec k0 k) as [->|Hk]; [done|].
  rewrite fmap_cons, IH. by destruct (assoc_get m k).
Qed.

Lemma assoc_get_set {V} (m : list (string * V)) (k k' : string) (v : V) :
  assoc_get (assoc_set m k v) k' =
  if String.eqb k k' then Some v else assoc_get m k'.
Proof.
  induction m as [|[k0 v0] m IH]; simpl; [done|].
  destruct (String.eqb_spec k0 k) as [->|Hk]; simpl.
  - by destruct (String.eqb k k').
  - destruct (String.eqb_spec k0 k') as [->|Hk']; [|apply IH].
    destruct (String.eqb_spec k k'); congruence.
Qed.

Lemma assoc_get_elem {V} (m : list (string * V)) (k : string) (v : V) :
  NoDup m.*1 -> (k, v) ∈ m <-> assoc_get m k = Some v.
Proof.
  intros Hnd. split; [|apply assoc_get_Some].
  induction m as [|[k0 v0] m IH]; simpl; [by intros ?%elem_of_nil|].
  rewrite fmap_cons in Hnd. apply NoDup_cons in Hnd as [Hk0 Hnd].
  intros [[= -> ->]|Hx]%elem_of_cons.
  - by rewrite String.eqb_refl.
  - destruct (String.eqb_spec k0 k) as [->|Hk]; [|auto].
    exfalso. apply Hk0. simpl. change k with (k, v).1. by apply list_elem_of_fmap_2.
Qed.

Lemma assoc_set_NoDup {V} (m : list (string * V)) (k : string) (v : V) :
  NoDup m.*1 -> NoDup (assoc_set m k v).*1.
Proof.
  intros Hnd. rewrite assoc_set_keys.
  destruct (assoc_get m k) eqn:E; [done|].
  apply NoDup_app. split_and!; [done| |apply NoDup_singleton].
  intros x Hx ->%list_elem_of_singleton. by apply assoc_get_None in E.
Qed.

Lemma assoc_set_key_elem {V} (m : list (string * V)) (k k' : string) (v : V) :
  k' ∈ (assoc_set m k v).*1 <-> k' = k \/ k' ∈ m.*1.
Proof.
  rewrite assoc_set_keys. destruct (assoc_get m k) eqn:E.
  - split; [by right|]. intros [->|H]; [|done].
    apply assoc_get_Some in E. change k with (k, v0).1. by apply list_elem_of_fmap_2.
  - rewrite elem_of_app, list_elem_of_singleton. tauto.
Qed.

(** A property of the records survives an update when the new record has
    it. *)
Lemma assoc_set_Forall {V} (P : string * V -> Prop) (m : list (string * V))
    (k : string) (v : V) :
  Forall P m -> P (k, v) -> Forall P (assoc_set m k v).
Proof.
  intros Hm Hkv. induction Hm as [|[k0 v0] m H0 Hm IH]; simpl.
  - by constructor.
  - destruct (String.eqb k0 k); constructor; auto.
Qed.

(** * [_safe_convert] *)

Lemma safe_convert_cases `{Parsers} (v : value) (t : target_type) (default : value) :
  match _safe_convert v t default with
  | Ok r =>
      r = default \/
      match t with
      | float_type => exists f, r = VFloat f /\ is_finite f = true
      | int_type => exists z, r = VInt z
      end
  | Raise e =>
      e = OverflowError /\
      match t with
      | float_type => exists z, v = VInt z /\ DBL_OVERFLOW <= Z.abs z
      | int_type => exists f, v = VFloat f /\ is_infinity f = true
      end
  end.
Proof.
  unfold is_finite.
  destruct t, v as [| b | z | f | s | l | d]; simpl; try (by left).
  - destruct b; simpl; right; eauto.
  - unfold int_to_float. destruct (Z.leb_spec DBL_OVERFLOW (Z.abs z)); simpl.
    + split; [done|]. eauto.
    + destruct (is_nan _) eqn:En; simpl; [by left|].
      destruct (is_infinity _) eqn:Ei; simpl; [by left|].
      right. eexists. by rewrite En, Ei.
  - destruct (is_nan f) eqn:En; simpl; [by left|].
    destruct (is_infinity f) eqn:Ei; simpl; [by left|].
    right. exists f. by rewrite En, Ei.
  - destruct (float_of_str s) as [f|]; simpl; [|by left].
    destruct (is_nan f) eqn:En; simpl; [by left|].
    destruct (is_infinity f) eqn:Ei; simpl; [by left|].
    right. exists f. by rewrite En, Ei.
  - right. eauto.
  - right. eauto.
  - destruct (is_nan f) eqn:En; simpl; [by left|].
    destruct (is_infinity f) eqn:Ei; simpl; [|right; eauto].
    split; [done|]. eauto.
  - destruct (int_of_str s) as [z|]; simpl; [right; eauto|by left].
Qed.

Lemma safe_convert_raise `{Parsers} (v : value) (t : target_type) (default : value)
    (e : exn) :
  _safe_convert v t default = Raise e -> e = OverflowError.
Proof.
  intros E. pose proof (safe_convert_cases v t default) as Hr.
  rewrite E in Hr. tauto.
Qed.

Lemma safe_convert_float_typed `{Parsers} (v r : value) :
  _safe_convert v float_type (VFloat 0) = Ok r ->
  exists f, r = VFloat f /\ is_finite f = true.
Proof.
  intros E. pose proof (safe_convert_cases v float_type (VFloat 0)) as Hr.
  rewrite E in Hr. destruct Hr as [->|Hr]; [|done]. by exists 0%float.
Qed.

Lemma safe_convert_int_typed `{Parsers} (v r : value) :
  _safe_convert v int_type (VInt 0) = Ok r -> exists z, r = VInt z.
Proof.
  intros E. pose proof (safe_convert_cases v int_type (VInt 0)) as Hr.
  rewrite E in Hr. destruct Hr as [->|Hr]; [|done]. by exists 0.
Qed.

(** X1. [_safe_convert] returns the default or a value of the target type,
    and a float it returns is neither NaN nor infinite.  The one error that
    escapes its [except] is [OverflowError]: for an integer beyond the floats
    converted to a float, and for an infinite float converted to an int. *)
Theorem safe_convert_result `{Parsers} (v : value) (t : target_type) (default : value) :
  match _safe_convert v t default with
  | Ok r =>
      r = default \/
      match t with
      | float_type => exists f, r = VFloat f /\ is_finite f = true
      | int_type => exists z, r = VInt z
      end
  | Raise e =>
      e = OverflowError /\
      match t with
      | float_type => exists z, v = VInt z /\ DBL_OVERFLOW <= Z.abs z
      | int_type => exists f, v = VFloat f /\ is_infinity f = true
      end
  end.
Proof. apply safe_convert_cases. Qed.

(** * The aggregation of the state data *)

Lemma fold_result_inv {A B} (P : A -> Prop) (f : A -> B -> result A) (l : list B)
    (a a' : A) :
  (forall a x a', P a -> x ∈ l -> f a x = Ok a' -> P a') ->
  P a -> fold_result f a l = Ok a' -> P a'.
Proof.
  revert a. induction l as [|x l IH]; simpl; intros a Hf Ha E.
  - by injection E as <-.
  - apply bind_Ok in E as (a1 & E1 & E).
    apply (IH a1); [|by eapply Hf; [done|left|]|done].
    intros a0 y a0' Ha0 Hy. apply Hf; [done|by right].
Qed.

Lemma fold_result_raise {A B} (Q : exn -> Prop) (f : A -> B -> result A) (l : list B)
    (a : A) (e : exn) :
  (forall a x e, x ∈ l -> f a x = Raise e -> Q e) ->
  fold_result f a l = Raise e -> Q e.
Proof.
  revert a. induction l as [|x l IH]; simpl; intros a Hf E; [done|].
  destruct (f a x) as [a1|e1] eqn:E1; simpl in E.
  - apply (IH a1); [|done]. intros a0 y e0 Hy. apply Hf. by right.
  - injection E as <-. eapply Hf; [left|done].
Qed.

Lemma completed_of_raise `{Parsers} (categories_data : dict) (cat_name : string) (e : exn) :
  completed_of categories_data cat_name = Raise e -> e = OverflowError.
Proof.
  unfold completed_of.
  destruct (safe_get _ _ _) as [| b | z | f | s | l | d]; simpl; try done.
  - by destruct (negb _ && negb _).
  - unfold int_to_float. destruct (DBL_OVERFLOW <=? Z.abs z); simpl; [by intros [= <-]|].
    by destruct (negb _ && negb _).
  - by destruct (negb _ && negb _).
  - destruct (float_of_str s); simpl; [|done]. by destruct (negb _ && negb _).
Qed.

Lemma old_work_completed_raise `{Parsers} (perf_data : value) (e : exn) :
  _calculate_old_work_completed perf_data = Raise e -> e = OverflowError.
Proof.
  unfold _calculate_old_work_completed.
  destruct (safe_get _ _ _) as [| | | | | |categories_data]; try done.
  intros E0. eapply (fold_result_raise (fun e => e = OverflowError)); [|exact E0].
  intros a x e0 _. cbv beta.
  destruct (completed_of categories_data x) as [c|e1] eqn:Ec; simpl; [intros [=]|].
  intros [= <-]. by eapply completed_of_raise.
Qed.

Ltac invert_binds :=
  repeat match goal with
         | H : mbind _ _ = Ok _ |- _ => apply bind_Ok in H as (? & ? & H)
         | H : _safe_convert _ float_type (VFloat 0) = Ok _ |- _ =>
             apply safe_convert_float_typed in H as (? & -> & ?)
         | H : _safe_convert _ int_type (VInt 0) = Ok _ |- _ =>
             apply safe_convert_int_typed in H as (? & ->)
         | H : Ok _ = Ok _ |- _ => injection H as <-
         end.

Lemma component_entry_floats `{Parsers} (comp_key : string) (config : Config.t)
    (item_data : value) (entry : dict) (k : string) :
  component_entry comp_key config item_data = Ok entry ->
  k ∈ marks_keys ->
  exists f, dict_get_or entry k (VFloat 0) = VFloat f /\ is_finite f = true.
Proof.
  intros E Hk. unfold component_entry in E.
  assert (Hk' : k = "marks" \/ k = "target_marks" \/ k = "payment_marks").
  { unfold marks_keys in Hk. rewrite !elem_of_cons in Hk.
    destruct Hk as [?|[?|[?|?%elem_of_nil]]]; tauto. }
  destruct (Config.marks_key config), (Config.count_key config),
    (Config.target_key config), (String.eqb comp_key "performance");
    invert_binds;
    destruct Hk' as [->|[->| ->]]; rewrite ?dict_get_or_set; simpl; eauto.
Qed.

Lemma bind_Raise {A B} (c : result A) (k : A -> result B) (e : exn) :
  mbind k c = Raise e -> c = Raise e \/ exists a, c = Ok a /\ k a = Raise e.
Proof. destruct c as [a|e']; simpl; [eauto|]. intros [= <-]. by left. Qed.

Ltac invert_raise :=
  repeat match goal with
         | H : mbind _ _ = Raise _ |- _ => apply bind_Raise in H as [H | (? & ? & H)]
         | H : Ok _ = Raise _ |- _ => discriminate H
         | H : match ?o with Some _ => _ | None => _ end = Raise _ |- _ => destruct o
         | H : (if ?b then _ else _) = Raise _ |- _ => destruct b
         end.

Lemma component_entry_raise `{Parsers} (comp_key : string) (config : Config.t)
    (item_data : value) (e : exn) :
  component_entry comp_key config item_data = Raise e -> e = OverflowError.
Proof.
  unfold component_entry. intros E. invert_raise;
    eauto using safe_convert_raise, old_work_completed_raise.
Qed.

Lemma dict_get_set_ne (d : dict) (k k' : string) (v : value) :
  k <> k' -> dict_get (dict_set d k v) k' = dict_get d k'.
Proof.
  intros Hk. unfold dict_get. rewrite dict_get_or_set.
  by destruct (String.eqb_spec k k').
Qed.

Lemma component_keys (c : string) :
  c ∈ COMPONENTS_CONFIG.*1 ->
  c = "performance" \/ c = "farm_ponds" \/ c = "dugwell" \/ c = "amrit_sarovar" \/
  c = "mybharat".
Proof.
  unfold COMPONENTS_CONFIG. simpl. rewrite !elem_of_cons, elem_of_nil. tauto.
Qed.

Lemma new_record_typed (k : string) : marks_typed [("name", VStr k)].
Proof.
  intros c kk Hc Hkk. exists [], 0%float.
  by destruct (component_keys c Hc) as [->|[->|[->|[->| ->]]]].
Qed.

(** The record an item is filed in: the one already stored, or a new one. *)
Lemma filed_record (m : list (string * dict)) (k : string) :
  aggregation_inv m -> normalised k ->
  let dist_data := match assoc_get m k with
                   | Some dist_data => dist_data
                   | None => [("name", VStr k)]
                   end in
  dict_get dist_data "name" = VStr k /\ marks_typed dist_data.
Proof.
  intros [[Hnd Hnames] Htyped] Hk. simpl.
  destruct (assoc_get m k) as [d|] eqn:E.
  - apply assoc_get_Some in E. rewrite Forall_forall in Hnames, Htyped.
    split; [apply (Hnames _ E) | apply (Htyped _ E)].
  - split; [done|apply new_record_typed].
Qed.

Lemma process_item_inv `{Parsers} (comp_key : string) (config : Config.t)
    (m m' : list (string * dict)) (item_data : value) :
  comp_key <> "name" -> aggregation_inv m ->
  process_item comp_key config m item_data = Ok m' -> aggregation_inv m'.
Proof.
  intros Hcomp Hinv. unfold process_item.
  destruct item_data as [| | | | | |d0]; try (by intros [= <-]).
  destruct (safe_get _ _ _) as [| | | |s| |]; try (by intros [= <-]).
  destruct (String.eqb s ""); [by intros [= <-]|].
  set (k := py_upper (py_strip s)).
  destruct (String.eqb_spec k "") as [|Hne]; [by intros [= <-]|].
  assert (Hk : normalised k).
  { split_and!; [done|apply normal_form_strip|apply py_upper_idem]. }
  destruct (filed_record m k Hinv Hk) as [Hname Htyped].
  set (dist_data := match assoc_get m k with
                    | Some dist_data => dist_data
                    | None => [("name", VStr k)]
                    end) in *.
  intros E. apply bind_Ok in E as (entry & Hentry & [= <-]).
  destruct Hinv as [[Hnd Hnames] Hall]. split; [split|].
  - by apply assoc_set_NoDup.
  - apply assoc_set_Forall; [done|]. simpl. split; [done|].
    by rewrite dict_get_set_ne.
  - apply assoc_set_Forall; [done|]. simpl.
    intros c kk Hc Hkk. unfold float_entry. rewrite dict_get_or_set.
    destruct (String.eqb_spec comp_key c) as [->|Hne'].
    + destruct (component_entry_floats _ _ _ _ kk Hentry Hkk) as (f & Hf & Hfin).
      by exists entry, f.
    + by apply Htyped.
Qed.

Lemma process_item_raise `{Parsers} (comp_key : string) (config : Config.t)
    (m : list (string * dict)) (item_data : value) (e : exn) :
  process_item comp_key config m item_data = Raise e -> e = OverflowError.
Proof.
  unfold process_item.
  destruct item_data as [| | | | | |d0]; try done.
  destruct (safe_get _ _ _) as [| | | |s| |]; try done.
  destruct (String.eqb s ""); [done|].
  destruct (String.eqb _ ""); [done|].
  intros E. apply bind_Raise in E as [E | (? & ? & E)]; [|done].
  by eapply component_entry_raise.
Qed.

Lemma process_item_keys `{Parsers} (comp_key : string) (config : Config.t)
    (m m' : list (string * dict)) (item_data : value) :
  process_item comp_key config m item_data = Ok m' ->
  forall k, k ∈ m'.*1 <-> k ∈ m.*1 \/ item_district config item_data = Some k.
Proof.
  assert (Hsame : forall k : string, k ∈ m.*1 <-> k ∈ m.*1 \/ @None string = Some k).
  { intros k. split; [by left|]. by intros [?|?]. }
  unfold process_item, item_district.
  destruct item_data as [| | | | | |d0]; try (by intros [= <-]).
  destruct (safe_get _ _ _) as [| | | |s| |]; try (by intros [= <-]).
  destruct (String.eqb_spec s "") as [->|Hs]; [by intros [= <-]|].
  destruct (String.eqb_spec (py_upper (py_strip s)) "") as [|Hne]; [by intros [= <-]|].
  intros E k. apply bind_Ok in E as (entry & Hentry & [= <-]).
  rewrite assoc_set_key_elem. split.
  - intros [->|Hk]; [by right|by left].
  - intros [Hk|[= ->]]; [by right|by left].
Qed.

Lemma fold_items_keys `{Parsers} (comp_key : string) (config : Config.t) (l : list value) :
  forall m m', fold_result (process_item comp_key config) m l = Ok m' ->
  forall k, k ∈ m'.*1 <->
    k ∈ m.*1 \/ exists item_data, item_data ∈ l /\ item_district config item_data = Some k.
Proof.
  induction l as [|x l IH]; simpl; intros m m' E k.
  - injection E as <-. split; [by left|]. intros [?|(? & ?%elem_of_nil & _)]; done.
  - apply bind_Ok in E as (m1 & E1 & E).
    rewrite (IH m1 m' E k), (process_item_keys _ _ _ _ _ E1 k). split.
    + intros [[Hk|Hk]|(y & Hy & Hk)]; [by left| |].
      * right. exists x. split; [left|done].
      * right. exists y. split; [by right|done].
    + intros [Hk|(y & [->|Hy]%elem_of_cons & Hk)].
      * left. by left.
      * left. by right.
      * right. by exists y.
Qed.

Lemma process_component_inv `{Parsers} (fetch_api_data : string -> dict -> value)
    (target_date : string) (st st' : aggregation) (comp : string * Config.t) :
  comp.1 <> "name" -> aggregation_inv (processed_data_by_district st) ->
  process_component fetch_api_data target_date st comp = Ok st' ->
  aggregation_inv (processed_data_by_district st').
Proof.
  destruct comp as [comp_key config]. simpl. intros Hcomp Hinv.
  unfold process_component.
  destruct (negb (py_truthy _)); [by intros [= <-]|].
  destruct (safe_get _ _ _) as [| | | | |results_list|]; try (by intros [= <-]).
  intros E. apply bind_Ok in E as (m' & E & [= <-]). simpl.
  eapply (fold_result_inv aggregation_inv); [|exact Hinv|exact E].
  intros a x a' Ha _. by apply process_item_inv.
Qed.

Lemma process_component_raise `{Parsers} (fetch_api_data : string -> dict -> value)
    (target_date : string) (st : aggregation) (comp : string * Config.t) (e : exn) :
  process_component fetch_api_data target_date st comp = Raise e -> e = OverflowError.
Proof.
  destruct comp as [comp_key config]. unfold process_component.
  destruct (negb (py_truthy _)); [done|].
  destruct (safe_get _ _ _) as [| | | | |results_list|]; try done.
  intros E. apply bind_Raise in E as [E | (? & ? & E)]; [|done].
  eapply (fold_result_raise (fun e => e = OverflowError)); [|exact E].
  intros a x e0 _. apply process_item_raise.
Qed.

Lemma process_component_keys `{Parsers} (fetch_api_data : string -> dict -> value)
    (target_date : string) (st st' : aggregation) (comp : string * Config.t) :
  process_component fetch_api_data target_date st comp = Ok st' ->
  forall k, k ∈ (processed_data_by_district st').*1 <->
    k ∈ (processed_data_by_district st).*1 \/
    exists item_data, item_data ∈ component_items fetch_api_data target_date comp.2 /\
      item_district comp.2 item_data = Some k.
Proof.
  assert (Hnone : forall (P : value -> Prop) (k : string) (m : list (string * dict)),
            k ∈ m.*1 <-> k ∈ m.*1 \/ exists x : value, x ∈ @nil value /\ P x).
  { intros P k m. split; [by left|]. intros [?|(? & ?%elem_of_nil & _)]; done. }
  destruct comp as [comp_key config]. unfold process_component, component_items. simpl.
  destruct (py_truthy _); simpl; [|intros [= <-]; simpl; intros k; apply Hnone].
  destruct (safe_get _ _ _) as [| | | | |results_list|];
    try (intros [= <-]; simpl; intros k; apply Hnone).
  intros E. apply bind_Ok in E as (m' & E & [= <-]). simpl.
  by apply (fold_items_keys comp_key).
Qed.

Lemma calculate_total_marks_keys (m : list (string * dict)) :
  (calculate_total_marks m).*1 = m.*1.
Proof.
  unfold calculate_total_marks. induction m as [|[k d] m IH]; [done|].
  cbn [List.map]. by rewrite !fmap_cons, IH.
Qed.

Lemma calculate_total_marks_elem (m : list (string * dict)) (k : string) (rec' : dict) :
  (k, rec') ∈ calculate_total_marks m <->
  exists rec, (k, rec) ∈ m /\ rec' = dict_set rec TOTAL_MARKS_KEY (total_marks_of rec).
Proof.
  unfold calculate_total_marks. change (List.map ?f ?l) with (f <$> l).
  rewrite list_elem_of_fmap. split.
  - intros ([k0 d0] & [= -> ->] & Hm). eauto.
  - intros (rec & Hm & ->). by exists (k, rec).
Qed.

Lemma add_marks_typed (rec : dict) :
  marks_typed rec -> exists s, add_marks rec = Ok (VFloat s).
Proof.
  intros Hrec. unfold add_marks.
  assert (Hget : forall c k, c ∈ COMPONENTS_CONFIG.*1 -> k ∈ marks_keys ->
            exists f, value_get (dict_get_or rec c (VDict [])) k (VFloat 0) = Ok (VFloat f)).
  { intros c k Hc Hk. destruct (Hrec c k Hc Hk) as (e & f & -> & Hf & _).
    exists f. simpl. by rewrite Hf. }
  assert (Hin : forall k, k ∈ marks_keys <->
            k = "marks" \/ k = "target_marks" \/ k = "payment_marks").
  { intros k. unfold marks_keys. rewrite !elem_of_cons, elem_of_nil. tauto. }
  assert (Hc : forall c, In c (COMPONENTS_CONFIG.*1) -> c ∈ COMPONENTS_CONFIG.*1).
  { intros c. apply list_elem_of_In. }
  destruct (Hget "performance" "target_marks") as [t ->];
    [apply Hc; simpl; tauto|apply Hin; tauto|].
  destruct (Hget "performance" "payment_marks") as [p ->];
    [apply Hc; simpl; tauto|apply Hin; tauto|].
  destruct (Hget "farm_ponds" "marks") as [m1 ->];
    [apply Hc; simpl; tauto|apply Hin; tauto|].
  destruct (Hget "dugwell" "marks") as [m2 ->];
    [apply Hc; simpl; tauto|apply Hin; tauto|].
  destruct (Hget "amrit_sarovar" "marks") as [m3 ->];
    [apply Hc; simpl; tauto|apply Hin; tauto|].
  destruct (Hget "mybharat" "marks") as [m4 ->];
    [apply Hc; simpl; tauto|apply Hin; tauto|].
  simpl. eauto.
Qed.

Lemma aggregation_fold `{Parsers} (fetch_api_data : string -> dict -> value)
    (target_date : string) (st : aggregation) :
  fold_result (process_component fetch_api_data target_date)
    {| processed_data_by_district := []; fetch_errors := [] |} COMPONENTS_CONFIG = Ok st ->
  aggregation_inv (processed_data_by_district st).
Proof.
  intros E.
  eapply (fold_result_inv (fun st => aggregation_inv (processed_data_by_district st)));
    [| |exact E].
  - intros a x a' Ha Hx. apply process_component_inv; [|done].
    unfold COMPONENTS_CONFIG in Hx. rewrite !elem_of_cons, elem_of_nil in Hx.
    destruct Hx as [->|[->|[->|[->|[->|[]]]]]]; done.
  - simpl. split; [split|]; constructor.
Qed.

Lemma aggregation_cases `{Parsers} (fetch_api_data : string -> dict -> value)
    (target_date : string) :
  match _fetch_and_process_state_data_for_date fetch_api_data target_date with
  | Ok r =>
      exists st,
        fold_result (process_component fetch_api_data target_date)
          {| processed_data_by_district := []; fetch_errors := [] |} COMPONENTS_CONFIG
        = Ok st /\
        aggregation_inv (processed_data_by_district st) /\
        date r = target_date /\
        all_districts_processed r = calculate_total_marks (processed_data_by_district st)
  | Raise e => e = OverflowError
  end.
Proof.
  unfold _fetch_and_process_state_data_for_date.
  destruct (fold_result _ _ _) as [st|e] eqn:E; simpl.
  - exists st. split_and!; try done. by eapply aggregation_fold.
  - eapply (fold_result_raise (fun e => e = OverflowError)); [|exact E].
    intros a x e0 _. apply process_component_raise.
Qed.

Lemma aggregation_Ok `{Parsers} (fetch_api_data : string -> dict -> value)
    (target_date : string) (r : state_data) :
  _fetch_and_process_state_data_for_date fetch_api_data target_date = Ok r ->
  exists st,
    fold_result (process_component fetch_api_data target_date)
      {| processed_data_by_district := []; fetch_errors := [] |} COMPONENTS_CONFIG
    = Ok st /\
    aggregation_inv (processed_data_by_district st) /\
    all_districts_processed r = calculate_total_marks (processed_data_by_district st).
Proof.
  intros E. pose proof (aggregation_cases fetch_api_data target_date) as Hc.
  rewrite E in Hc. destruct Hc as (st & ? & ? & ? & ?). eauto.
Qed.

Lemma add_marks_set_total (rec : dict) (v : value) :
  add_marks (dict_set rec TOTAL_MARKS_KEY v) = add_marks rec.
Proof. unfold add_marks. rewrite !dict_get_or_set. reflexivity. Qed.

(** The records of the aggregation after the totals. *)
Lemma total_marks_record (m : list (string * dict)) (k : string) (rec' : dict) :
  aggregation_inv m -> (k, rec') ∈ calculate_total_marks m ->
  normalised k /\ dict_get rec' "name" = VStr k /\ marks_typed rec' /\
  exists s, add_marks rec' = Ok (VFloat s) /\
    dict_get rec' TOTAL_MARKS_KEY =
    VFloat (round2 (if is_nan s || is_infinity s then 0%float else s)).
Proof.
  intros [[Hnd Hnames] Htyped] (rec & Hrec & ->)%calculate_total_marks_elem.
  rewrite Forall_forall in Hnames, Htyped.
  destruct (Hnames _ Hrec) as [Hk Hname]. specialize (Htyped _ Hrec). simpl in *.
  assert (Htyped' : marks_typed (dict_set rec TOTAL_MARKS_KEY (total_marks_of rec))).
  { intros c kk Hc Hkk. unfold float_entry. rewrite dict_get_or_set.
    destruct (component_keys c Hc) as [->|[->|[->|[->| ->]]]]; by apply Htyped. }
  split_and!; try done.
  - by rewrite dict_get_set_ne.
  - destruct (add_marks_typed _ Htyped) as [s Hs].
    destruct (add_marks_typed _ Htyped') as [s' Hs'].
    assert (s' = s) as ->.
    { rewrite add_marks_set_total, Hs in Hs'. by injection Hs' as ->. }
    exists s. split; [done|].
    rewrite dict_get_set. by apply total_marks_of_sum.
Qed.

(** X2. The aggregation of the state data files every district once, under
    a name that is not empty, has no blank around it and is in upper case,
    and the record stored under a name carries that name.  The only error
    the aggregation can raise is [OverflowError]. *)
Theorem aggregation_names `{Parsers} (fetch_api_data : string -> dict -> value)
    (target_date : string) :
  match _fetch_and_process_state_data_for_date fetch_api_data target_date with
  | Ok r =>
      date r = target_date /\
      NoDup (all_districts_processed r).*1 /\
      forall k rec, (k, rec) ∈ all_districts_processed r ->
        k <> "" /\ py_strip k = k /\ py_upper k = k /\ dict_get rec "name" = VStr k
  | Raise e => e = OverflowError
  end.
Proof.
  pose proof (aggregation_cases fetch_api_data target_date) as Hc.
  destruct (_fetch_and_process_state_data_for_date _ _) as [r|e]; [|done].
  destruct Hc as (st & _ & Hinv & Hdate & ->). split_and!; [done| |].
  - rewrite calculate_total_marks_keys. apply Hinv.
  - intros k rec Hrec.
    destruct (total_marks_record _ k rec Hinv Hrec) as ((? & ? & ?) & ? & _). done.
Qed.

(** X3. In every record of the aggregation the marks of each component are
    finite floats, so the sum of the total marks never fails:
    [total_marks] is never null.  It is the sum rounded to two decimals, or
    0.0 when the sum is infinite. *)
Theorem aggregation_total_marks `{Parsers} (fetch_api_data : string -> dict -> value)
    (target_date : string) (r : state_data) (k : string) (rec : dict) :
  _fetch_and_process_state_data_for_date fetch_api_data target_date = Ok r ->
  (k, rec) ∈ all_districts_processed r ->
  (forall component key,
     component ∈ COMPONENTS_CONFIG.*1 -> key ∈ marks_keys ->
     float_entry rec component key) /\
  exists s, add_marks rec = Ok (VFloat s) /\
    dict_get rec TOTAL_MARKS_KEY =
    VFloat (round2 (if is_nan s || is_infinity s then 0%float else s)).
Proof.
  intros (st & _ & Hinv & ->)%aggregation_Ok Hrec.
  destruct (total_marks_record _ k rec Hinv Hrec) as (_ & _ & Htyped & Hsum). done.
Qed.

Lemma fold_components_keys `{Parsers} (fetch_api_data : string -> dict -> value)
    (target_date : string) (comps : list (string * Config.t)) :
  forall st st',
    fold_result (process_component fetch_api_data target_date) st comps = Ok st' ->
    forall k, k ∈ (processed_data_by_district st').*1 <->
      k ∈ (processed_data_by_district st).*1 \/
      exists comp item_data, comp ∈ comps /\
        item_data ∈ component_items fetch_api_data target_date comp.2 /\
        item_district comp.2 item_data = Some k.
Proof.
  induction comps as [|c comps IH]; simpl; intros st st' E k.
  - injection E as <-. split; [by left|].
    intros [?|(? & ? & ?%elem_of_nil & _)]; done.
  - apply bind_Ok in E as (st1 & E1 & E).
    rewrite (IH st1 st' E k), (process_component_keys _ _ _ _ _ E1 k). split.
    + intros [[Hk|(y & Hy & Hk)]|(c' & y & Hc' & Hy & Hk)]; [by left| |].
      * right. exists c, y. split; [left|done].
      * right. exists c', y. split; [by right|done].
    + intros [Hk|(c' & y & [->|Hc']%elem_of_cons & Hy & Hk)].
      * left. by left.
      * left. right. by exists y.
      * right. by exists c', y.
Qed.

(** X4. A district is in the result of the aggregation exactly when some
    component lists it: one of the items the component answered with is a
    dict whose name is a text that is not blank, and the district is filed
    under that name, stripped and in upper case.  A component that does not
    answer takes nothing away from the others. *)
Theorem aggregation_districts `{Parsers} (fetch_api_data : string -> dict -> value)
    (target_date : string) (r : state_data) (k : string) :
  _fetch_and_process_state_data_for_date fetch_api_data target_date = Ok r ->
  k ∈ (all_districts_processed r).*1 <->
  exists comp item_data, comp ∈ COMPONENTS_CONFIG /\
    item_data ∈ component_items fetch_api_data target_date comp.2 /\
    item_district comp.2 item_data = Some k.
Proof.
  intros (st & Hfold & _ & ->)%aggregation_Ok.
  rewrite calculate_total_marks_keys, (fold_components_keys _ _ _ _ _ Hfold k). simpl.
  split; [|by right]. intros [?%elem_of_nil|?]; done.
Qed.

(** * Ranks of the aggregated districts *)

Lemma keyed_names (pm : list (string * dict)) :
  keyed_by_name pm -> name <$> (district_of <$> pm.*2) = pm.*1.
Proof.
  intros [_ Hnames]. induction Hnames as [|[k rec] pm [_ Hname] _ IH]; [done|].
  rewrite !fmap_cons, IH. simpl in *. f_equal.
  unfold district_of. simpl. by rewrite Hname.
Qed.

Lemma keyed_district (pm : list (string * dict)) (k : string) (rec : dict) :
  keyed_by_name pm -> (k, rec) ∈ pm ->
  district_of rec ∈ district_of <$> pm.*2 /\ name (district_of rec) = k /\ k <> "".
Proof.
  intros [_ Hnames] Hrec. rewrite Forall_forall in Hnames.
  destruct (Hnames _ Hrec) as [(Hne & _) Hname]. simpl in *. split_and!; [|by unfold district_of; simpl; rewrite Hname|done].
  apply list_elem_of_fmap_2. change rec with (k, rec).2. by apply list_elem_of_fmap_2.
Qed.

(** On records keyed by their names, [calculate_ranks] gives every record
    with finite marks its competition rank, under its key. *)
Lemma keyed_ranks (pm : list (string * dict)) :
  keyed_by_name pm ->
  forallb (fun d => in_double_range (total_marks d)) (district_of <$> pm.*2) = true ->
  exists m, calculate_ranks (district_of <$> pm.*2) = Ok m /\
    (forall k rec, (k, rec) ∈ pm ->
       m !! k = if finite_number (dict_get rec TOTAL_MARKS_KEY)
                then Some (rank_among (district_of <$> pm.*2) (dict_get rec TOTAL_MARKS_KEY))
                else None) /\
    (forall n, is_Some (m !! n) -> n ∈ pm.*1).
Proof.
  intros Hkeyed Hrange. set (l := district_of <$> pm.*2) in *.
  destruct (calculate_ranks_lookup l Hrange) as (m & Hm & Hlook).
  assert (Hnd : NoDup (name <$> l)).
  { unfold l. rewrite keyed_names by done. apply Hkeyed. }
  exists m. split_and!; [done| |].
  - intros k rec Hrec.
    destruct (keyed_district pm k rec Hkeyed Hrec) as (Hd & Hdn & Hne). fold l in Hd.
    destruct (finite_number (dict_get rec TOTAL_MARKS_KEY)) eqn:Hfin.
    + apply Hlook. split; [done|]. exists (district_of rec). split_and!; try done.
      intros e He Hen _. rewrite (name_unique l e (district_of rec) Hnd He Hd); [done|].
      by rewrite Hdn.
    + apply eq_None_not_Some. intros [r Hr].
      apply Hlook in Hr as (_ & d & Hd' & Hdn' & Hdf & _).
      rewrite (name_unique l d (district_of rec) Hnd Hd' Hd) in Hdf by congruence.
      simpl in Hdf. congruence.
  - intros n [r Hr]. apply Hlook in Hr as (_ & d & Hd & <- & _).
    rewrite <- (keyed_names pm Hkeyed). fold l. by apply list_elem_of_fmap_2.
Qed.

(** X5. The ranking of the aggregated districts never fails.  A district
    whose total is finite is ranked under its key, 1 plus the number of
    districts with a strictly greater total; nothing else is ranked. *)
Theorem aggregation_ranks `{Parsers} (fetch_api_data : string -> dict -> value)
    (target_date : string) (r : state_data) :
  _fetch_and_process_state_data_for_date fetch_api_data target_date = Ok r ->
  exists m, calculate_ranks (district_of <$> (all_districts_processed r).*2) = Ok m /\
    (forall k rec, (k, rec) ∈ all_districts_processed r ->
       m !! k =
       if finite_number (dict_get rec TOTAL_MARKS_KEY)
       then Some (1 + strictly_greater (district_of <$> (all_districts_processed r).*2)
                        (dict_get rec TOTAL_MARKS_KEY))
       else None) /\
    (forall n, is_Some (m !! n) -> n ∈ (all_districts_processed r).*1).
Proof.
  intros (st & _ & Hinv & Hall)%aggregation_Ok. rewrite Hall.
  set (pm := calculate_total_marks (processed_data_by_district st)).
  assert (Hrec : forall k rec, (k, rec) ∈ pm ->
            normalised k /\ dict_get rec "name" = VStr k /\
            exists s, dict_get rec TOTAL_MARKS_KEY = VFloat s).
  { intros k rec Hkr. destruct (total_marks_record _ k rec Hinv Hkr)
      as (? & ? & _ & s & _ & ?). eauto. }
  apply keyed_ranks.
  - split.
    + unfold pm. rewrite calculate_total_marks_keys. apply Hinv.
    + apply Forall_forall. intros [k rec] Hkr. destruct (Hrec k rec Hkr) as (? & ? & _). done.
  - apply forallb_forall. intros d (rec & -> & ([k rec'] & -> & Hkr)%list_elem_of_fmap_1)%list_elem_of_In%list_elem_of_fmap_1.
    destruct (Hrec k rec' Hkr) as (_ & _ & s & Hs). simpl. by rewrite Hs.
Qed.

(** * Ranks and marks *)

Lemma count_if_le {A} (f g : A -> bool) (l : list A) :
  (forall x, x ∈ l -> f x = true -> g x = true) -> count_if f l <= count_if g l.
Proof.
  induction l as [|x l IH]; simpl; intros Hfg; [lia|].
  assert (count_if f l <= count_if g l) by (apply IH; intros y Hy; apply Hfg; by right).
  pose proof (Hfg x (list_elem_of_here _ _)) as Hx.
  destruct (f x), (g x); first [lia | by specialize (Hx eq_refl)].
Qed.

Lemma count_if_lt {A} (f g : A -> bool) (l : list A) (y : A) :
  (forall x, x ∈ l -> f x = true -> g x = true) ->
  y ∈ l -> f y = false -> g y = true -> count_if f l < count_if g l.
Proof.
  induction l as [|x l IH]; simpl; intros Hfg Hy Hfy Hgy; [by apply elem_of_nil in Hy|].
  assert (Hle : count_if f l <= count_if g l).
  { apply count_if_le. intros z Hz. apply Hfg. by right. }
  pose proof (Hfg x (list_elem_of_here _ _)) as Hx.
  apply elem_of_cons in Hy as [->|Hy].
  - rewrite Hfy, Hgy. lia.
  - assert (count_if f l < count_if g l).
    { apply IH; try done. intros z Hz. apply Hfg. by right. }
    destruct (f x), (g x); first [lia | by specialize (Hx eq_refl)].
Qed.

(** The rank of a valid district through the keys of the valid districts. *)
Lemma rank_among_valid (l : list district) (d : district) :
  finite_number (total_marks d) = true ->
  rank_among l (total_marks d) =
  1 + count_if (fun e => key_of d <? key_of e)
        (List.filter (fun d => finite_number (total_marks d)) l).
Proof.
  intros Hd. rewrite <- rank_among_filter. apply rank_among_keys; [|done].
  apply Forall_forall. intros x Hx. by apply filter_finite_elem in Hx as [_ Hx].
Qed.

(** With one entry per name, the rank stored under a district's name is
    the district's own. *)
Lemma calculate_ranks_own (l : list district) :
  Forall (fun d => name d <> "") l ->
  NoDup (name <$> l) ->
  forallb (fun d => in_double_range (total_marks d)) l = true ->
  exists m, calculate_ranks l = Ok m /\
    (forall d r, d ∈ l ->
       m !! name d = Some r <->
       finite_number (total_marks d) = true /\ r = rank_among l (total_marks d)) /\
    (forall n r, m !! n = Some r -> exists d, d ∈ l /\ name d = n).
Proof.
  intros Hnames Hnd Hrange.
  destruct (calculate_ranks_lookup l Hrange) as (m & Hm & Hlook).
  exists m. split_and!; [done| |].
  - intros d r Hd. rewrite Hlook. split.
    + intros (_ & d' & Hd' & Hn & Hfin & -> & _).
      by rewrite (name_unique l d' d Hnd Hd' Hd Hn) in *.
    + intros [Hfin ->]. split; [rewrite Forall_forall in Hnames; by apply Hnames|].
      exists d. split_and!; try done.
      intros e He Hen _. by rewrite (name_unique l e d Hnd He Hd Hen).
  - intros n r (_ & d & Hd & Hn & _)%Hlook. eauto.
Qed.

(** X6. Ranks follow the marks: of two ranked districts the one with the
    greater total has the smaller rank number, and the two have the same rank
    exactly when their totals are equal. *)
Theorem ranks_follow_marks (l : list district) :
  Forall (fun d => name d <> "") l ->
  NoDup (name <$> l) ->
  forallb (fun d => in_double_range (total_marks d)) l = true ->
  exists m, calculate_ranks l = Ok m /\
    forall d e rd re, d ∈ l -> e ∈ l ->
      m !! name d = Some rd -> m !! name e = Some re ->
      (rd < re <-> num_ltb (total_marks e) (total_marks d) = true) /\
      (rd = re <-> num_eqb (total_marks d) (total_marks e) = true).
Proof.
  intros Hnames Hnd Hrange.
  destruct (calculate_ranks_own l Hnames Hnd Hrange) as (m & Hm & Hown & _).
  exists m. split; [done|].
  intros d e rd re Hd He [Hdf ->]%Hown [Hef ->]%Hown; try done.
  rewrite (num_ltb_fin _ _ Hef Hdf), (num_eqb_fin _ _ Hdf Hef), Z.ltb_lt, Z.eqb_eq.
  rewrite !rank_among_valid by done. fold (key_of d) (key_of e).
  set (valid := List.filter (fun d => finite_number (total_marks d)) l).
  assert (Hdv : d ∈ valid) by by apply filter_finite_elem.
  assert (Hev : e ∈ valid) by by apply filter_finite_elem.
  assert (Hlt : forall a b, a ∈ valid -> key_of b < key_of a ->
            count_if (fun x => key_of a <? key_of x) valid <
            count_if (fun x => key_of b <? key_of x) valid).
  { intros a b Ha Hab. apply (count_if_lt _ _ _ a); [|done| |].
    - intros x _ Hx%Z.ltb_lt. apply Z.ltb_lt. lia.
    - apply Z.ltb_irrefl.
    - by apply Z.ltb_lt. }
  destruct (Z.lt_trichotomy (key_of d) (key_of e)) as [Hlt'|[Heq|Hgt]].
  - pose proof (Hlt e d Hev Hlt'). split; split; lia.
  - rewrite Heq. split; split; lia.
  - pose proof (Hlt d e Hdv Hgt). split; split; lia.
Qed.

(** A list that is not empty has an entry of greatest key. *)
Lemma greatest_key (l : list district) :
  l <> [] -> exists d, d ∈ l /\ forall e, e ∈ l -> key_of e <= key_of d.
Proof.
  induction l as [|x l IH]; [done|]. intros _.
  destruct l as [|y l'].
  - exists x. split; [left|]. intros e ->%list_elem_of_singleton. lia.
  - destruct IH as (d & Hd & Hmax); [done|].
    destruct (Z.le_gt_cases (key_of x) (key_of d)).
    + exists d. split; [by right|]. intros e [->|He]%elem_of_cons; auto.
    + exists x. split; [left|]. intros e [->|He]%elem_of_cons; [lia|].
      specialize (Hmax e He). lia.
Qed.

(** X7. Every rank lies between 1 and the number of ranked districts, and
    as soon as one district is ranked, one is ranked first. *)
Theorem ranks_bounds (l : list district) :
  Forall (fun d => name d <> "") l ->
  NoDup (name <$> l) ->
  forallb (fun d => in_double_range (total_marks d)) l = true ->
  exists m, calculate_ranks l = Ok m /\
    (forall n r, m !! n = Some r ->
       1 <= r <= count_if (fun d => finite_number (total_marks d)) l) /\
    (forall n r, m !! n = Some r -> exists n1, m !! n1 = Some 1).
Proof.
  intros Hnames Hnd Hrange.
  destruct (calculate_ranks_own l Hnames Hnd Hrange) as (m & Hm & Hown & Hdom).
  exists m. split; [done|].
  set (valid := List.filter (fun d => finite_number (total_marks d)) l).
  assert (Hcount : count_if (fun d => finite_number (total_marks d)) l =
                   Z.of_nat (length valid)).
  { unfold valid. clear. induction l as [|x l IH]; simpl; [done|].
    destruct (finite_number (total_marks x)); simpl; lia. }
  split.
  - intros n r Hr. destruct (Hdom n r Hr) as (d & Hd & <-).
    apply Hown in Hr as [Hfin ->]; [|done].
    rewrite (rank_among_valid l d Hfin). fold valid. rewrite Hcount.
    assert (Hdv : d ∈ valid) by by apply filter_finite_elem.
    pose proof (count_if_bounds (fun e => key_of d <? key_of e) valid) as Hb.
    assert (count_if (fun e => key_of d <? key_of e) valid <
            count_if (fun _ => true) valid).
    { apply (count_if_lt _ _ _ d); [done|done|apply Z.ltb_irrefl|done]. }
    assert (count_if (fun _ : district => true) valid = Z.of_nat (length valid)).
    { apply count_if_all. by apply Forall_forall. }
    lia.
  - intros n r Hr. destruct (Hdom n r Hr) as (d & Hd & <-).
    apply Hown in Hr as [Hfin _]; [|done].
    destruct (greatest_key valid) as (g & Hg & Hmax).
    { intros Hnil. assert (Hdv : d ∈ valid) by by apply filter_finite_elem.
      rewrite Hnil in Hdv. by apply elem_of_nil in Hdv. }
    apply filter_finite_elem in Hg as [Hgl Hgf].
    exists (name g). apply Hown; [done|]. split; [done|].
    rewrite (rank_among_valid l g Hgf). fold valid.
    rewrite count_if_none; [done|].
    apply Forall_forall. intros e He. apply Z.ltb_ge. by apply Hmax.
Qed.

(** * [get_top_bottom_by_field]: the extrema and the ties *)

(** The two results in terms of the items kept: both are items kept, the
    top is in order before every item kept and every item kept is in order
    before the bottom. *)
Lemma top_bottom_extrema (data_list : list value) (field_key : string)
    (nested_keys : list string) (name_key : string) (higher_is_better : bool) :
  let kept := List.filter (survives field_key nested_keys name_key) data_list in
  match kept with
  | [] =>
      get_top_bottom_by_field data_list field_key nested_keys name_key higher_is_better
      = {| top := None; bottom := None |}
  | _ =>
      exists t b,
        get_top_bottom_by_field data_list field_key nested_keys name_key higher_is_better
        = {| top := Some t; bottom := Some b |} /\
        t ∈ kept /\ b ∈ kept /\
        forall x, x ∈ kept ->
          in_order (compared_value field_key nested_keys) higher_is_better t x /\
          in_order (compared_value field_key nested_keys) higher_is_better x b
  end.
Proof.
  intros kept. unfold get_top_bottom_by_field.
  set (valid := omap (keep_entry field_key nested_keys name_key) data_list).
  set (sorted := py_sorted entry_value higher_is_better valid).
  assert (Hitems : item <$> valid = kept) by apply valid_entries_items.
  assert (Hperm : sorted ≡ₚ valid) by apply py_sorted_Permutation.
  assert (Hvals : forall e, e ∈ sorted ->
            entry_value e = compared_value field_key nested_keys (item e) /\
            comparable (entry_value e) = true).
  { intros e He. rewrite Hperm in He.
    by apply (valid_entries_values field_key nested_keys name_key data_list). }
  assert (Hsort : StronglySorted (in_order entry_value higher_is_better) sorted).
  { apply py_sorted_StronglySorted. apply Forall_forall. intros e He.
    apply Hvals. by rewrite Hperm. }
  assert (Hkept : forall x, x ∈ kept <-> exists e, e ∈ sorted /\ item e = x).
  { intros x. rewrite <- Hitems, list_elem_of_fmap. split.
    - intros (e & -> & He). exists e. split; [by rewrite Hperm|done].
    - intros (e & He & <-). exists e. split; [done|by rewrite <- Hperm]. }
  assert (Hord : forall e1 e2, e1 ∈ sorted -> e2 ∈ sorted ->
            in_order entry_value higher_is_better e1 e2 ->
            in_order (compared_value field_key nested_keys) higher_is_better
              (item e1) (item e2)).
  { intros e1 e2 [E1 _]%Hvals [E2 _]%Hvals. unfold in_order. by rewrite E1, E2. }
  assert (Hrefl : forall e, e ∈ sorted -> in_order entry_value higher_is_better e e).
  { intros e [_ He]%Hvals. unfold in_order. destruct higher_is_better; by apply num_leb_refl. }
  destruct sorted as [|e es] eqn:Es.
  - apply Permutation_nil_l in Hperm. rewrite <- Hperm in Hitems.
    simpl in Hitems. by rewrite <- Hitems.
  - assert (Hne : kept <> []).
    { intros Hk. assert (H0 : item e ∈ kept) by (apply Hkept; exists e; split; [left|done]).
      rewrite Hk in H0. by apply elem_of_nil in H0. }
    destruct kept as [|k0 kept0] eqn:Ek; [done|]. rewrite <- Ek in *.
    exists (item e), (item (List.last es e)).
    assert (Hlast : exists init, e :: es = init ++ [List.last es e]).
    { exists (removelast (e :: es)).
      rewrite <- (last_cons_default es e e). by apply app_removelast_last. }
    destruct Hlast as [init Hlast].
    assert (Hl : List.last es e ∈ e :: es).
    { rewrite Hlast. apply elem_of_app. right. left. }
    split_and!; try done.
    + apply Hkept. exists e. split; [left|done].
    + apply Hkept. by exists (List.last es e).
    + intros x (ex & Hex & <-)%Hkept. split.
      * apply Hord; [left|done|].
        apply elem_of_cons in Hex as [-> | Hex]; [apply Hrefl; left|].
        apply StronglySorted_cons in Hsort as [Hsort _].
        rewrite Forall_forall in Hsort. by apply Hsort.
      * apply Hord; [done|done|].
        rewrite Hlast in Hsort, Hex.
        apply elem_of_app in Hex as [Hex | ->%list_elem_of_singleton].
        -- eapply StronglySorted_app_1_elem_of; [exact Hsort|done|left].
        -- by apply Hrefl.
Qed.

(** The sort is stable: the entries of one key keep their order. *)
Lemma insert_sorted_filter {A} (before : A -> A -> bool) (P : A -> bool) (x : A)
    (l : list A) :
  (forall y, y ∈ l -> P y = true -> P x = true -> before y x = false) ->
  List.filter P (insert_sorted before x l) =
  if P x then x :: List.filter P l else List.filter P l.
Proof.
  induction l as [|y r IH]; simpl; intros Hb; [done|].
  pose proof (Hb y (list_elem_of_here _ _)) as Hy.
  assert (IH' : List.filter P (insert_sorted before x r) =
                if P x then x :: List.filter P r else List.filter P r).
  { apply IH. intros z Hz. apply Hb. by right. }
  destruct (before y x) eqn:E; simpl.
  - rewrite IH'. destruct (P y) eqn:Ey, (P x) eqn:Ex; try done.
    specialize (Hy eq_refl eq_refl). congruence.
  - done.
Qed.

Lemma sort_by_filter {A} (before : A -> A -> bool) (P : A -> bool) (l : list A) :
  (forall x y, P x = true -> P y = true -> before y x = false) ->
  List.filter P (sort_by before l) = List.filter P l.
Proof.
  intros Hb. induction l as [|x r IH]; simpl; [done|].
  rewrite insert_sorted_filter by (intros y _ Hy Hx; by apply Hb).
  by rewrite IH.
Qed.

Lemma num_eqb_not_ltb (a b v : value) :
  num_eqb a v = true -> num_eqb b v = true -> num_ltb a b = false.
Proof.
  unfold num_eqb, num_ltb.
  destruct (num_ext a) as [[| |x|]|], (num_ext b) as [[| |y|]|], (num_ext v) as [[| |z|]|];
    simpl; try done.
  intros ->%Z.eqb_eq ->%Z.eqb_eq. apply Z.ltb_irrefl.
Qed.

Lemma py_sorted_stable {A} (key : A -> value) (reverse : bool) (v : value) (l : list A) :
  List.filter (fun x => num_eqb (key x) v) (py_sorted key reverse l) =
  List.filter (fun x => num_eqb (key x) v) l.
Proof.
  apply sort_by_filter. intros x y Hx Hy.
  destruct reverse; by eapply num_eqb_not_ltb.
Qed.

Lemma filter_fmap {A B} (P : B -> bool) (f : A -> B) (l : list A) :
  List.filter P (f <$> l) = f <$> List.filter (fun x => P (f x)) l.
Proof.
  induction l as [|x l IH]; [done|].
  rewrite fmap_cons. cbn [List.filter].
  destruct (P (f x)); by rewrite ?fmap_cons, IH.
Qed.

Lemma entries_of_value (field_key : string) (nested_keys : list string)
    (name_key : string) (data_list : list value) (v : value) :
  List.filter (fun x => num_eqb (compared_value field_key nested_keys x) v)
    (List.filter (survives field_key nested_keys name_key) data_list) =
  item <$> List.filter (fun e => num_eqb (entry_value e) v)
             (omap (keep_entry field_key nested_keys name_key) data_list).
Proof.
  rewrite <- valid_entries_items, filter_fmap. f_equal.
  apply filter_ext_in. intros e He%list_elem_of_In.
  by destruct (valid_entries_values _ _ _ _ e He) as [-> _].
Qed.

(** X8. Ties in [get_top_bottom_by_field] are broken by the order of the
    input: of the records kept, the top is the first one that holds the
    value of the top, and the bottom is the last one that holds the value of
    the bottom. *)
Theorem top_bottom_ties (data_list : list value) (field_key : string)
    (nested_keys : list string) (name_key : string) (higher_is_better : bool)
    (t b : value) :
  get_top_bottom_by_field data_list field_key nested_keys name_key higher_is_better
  = {| top := Some t; bottom := Some b |} ->
  let kept := List.filter (survives field_key nested_keys name_key) data_list in
  let value_of := compared_value field_key nested_keys in
  head (List.filter (fun x => num_eqb (value_of x) (value_of t)) kept) = Some t /\
  last (List.filter (fun x => num_eqb (value_of x) (value_of b)) kept) = Some b.
Proof.
  unfold get_top_bottom_by_field.
  set (valid := omap (keep_entry field_key nested_keys name_key) data_list).
  destruct (py_sorted entry_value higher_is_better valid) as [|e es] eqn:Es; [done|].
  intros [= <- <-]. simpl.
  assert (Hperm : e :: es ≡ₚ valid) by (rewrite <- Es; apply py_sorted_Permutation).
  assert (Hvals : forall x, x ∈ e :: es ->
            entry_value x = compared_value field_key nested_keys (item x) /\
            num_eqb (entry_value x) (entry_value x) = true).
  { intros x Hx. rewrite Hperm in Hx.
    destruct (valid_entries_values _ _ _ _ x Hx) as [Hv Hc].
    split; [done|]. by apply andb_true_iff in Hc as [_ Hc]. }
  assert (Hstable : forall v,
            List.filter (fun x => num_eqb (entry_value x) v) valid =
            List.filter (fun x => num_eqb (entry_value x) v) (e :: es)).
  { intros v. rewrite <- Es. symmetry. apply py_sorted_stable. }
  rewrite !entries_of_value. fold valid. split.
  - destruct (Hvals e) as [<- He]; [left|].
    rewrite Hstable. simpl. by rewrite He.
  - assert (Hlast : exists init, e :: es = init ++ [List.last es e]).
    { exists (removelast (e :: es)).
      rewrite <- (last_cons_default es e e). by apply app_removelast_last. }
    destruct Hlast as [init Hlast].
    destruct (Hvals (List.last es e)) as [<- Hl].
    { rewrite Hlast. apply elem_of_app. right. left. }
    rewrite Hstable, Hlast, List.filter_app. simpl. rewrite Hl.
    rewrite fmap_app. apply last_snoc.
Qed.

(** * The top and the bottom performer of the state *)

Lemma current_district_list_spec (records : list dict) :
  Forall (fun d => in_double_range (dict_get d TOTAL_MARKS_KEY) = true) records ->
  current_district_list records =
  Ok (VDict <$> List.filter (fun d => finite_number (dict_get d TOTAL_MARKS_KEY)) records).
Proof.
  induction 1 as [|d records Hd _ IH]; [done|].
  simpl. rewrite valid_marks_spec, Hd, IH. simpl.
  by destruct (finite_number (dict_get d TOTAL_MARKS_KEY)).
Qed.

Lemma safe_get_finite (d : dict) (k : string) (default : value) :
  finite_number (dict_get d k) = true -> safe_get (VDict d) [k] default = dict_get d k.
Proof.
  unfold safe_get. simpl. unfold finite_number, is_nan_value.
  destruct (dict_get d k) as [| | |f| | |]; simpl; try done.
  unfold float_ext. by destruct (is_nan f).
Qed.

Lemma valid_record_survives (d : dict) (k : string) :
  dict_get d "name" = VStr k -> k <> "" ->
  finite_number (dict_get d TOTAL_MARKS_KEY) = true ->
  survives TOTAL_MARKS_KEY [] "name" (VDict d) = true /\
  compared_value TOTAL_MARKS_KEY [] (VDict d) = dict_get d TOTAL_MARKS_KEY.
Proof.
  intros Hname Hk Hfin. unfold survives, compared_value. simpl app.
  rewrite (safe_get_finite d TOTAL_MARKS_KEY VNone Hfin). split; [|done].
  rewrite (finite_number_comparable _ Hfin). simpl.
  unfold safe_get. simpl. rewrite Hname. simpl.
  by destruct (String.eqb_spec k "").
Qed.

Lemma extract_summary_valid (d : dict) (k : string) :
  dict_get d "name" = VStr k -> k <> "" ->
  in_double_range (dict_get d TOTAL_MARKS_KEY) = true ->
  finite_number (dict_get d TOTAL_MARKS_KEY) = true ->
  _extract_performer_summary (VDict d) =
  Ok (VDict [("name", VStr k); ("score", dict_get d TOTAL_MARKS_KEY)]).
Proof.
  intros Hname Hk Hrange Hfin. unfold _extract_performer_summary.
  rewrite Hname, valid_marks_spec, Hrange, Hfin. simpl.
  by destruct (String.eqb_spec k "").
Qed.

(** A greater total never has a worse rank. *)
Lemma rank_among_le (l : list district) (a b : value) :
  finite_number a = true -> finite_number b = true -> num_leb a b = true ->
  rank_among l b <= rank_among l a.
Proof.
  intros Ha Hb Hab. unfold rank_among, strictly_greater.
  assert (count_if (fun e => finite_number (total_marks e) && num_ltb b (total_marks e)) l
          <= count_if (fun e => finite_number (total_marks e) && num_ltb a (total_marks e)) l);
    [|lia].
  apply count_if_le. intros x _ [Hx Hbx]%andb_true_iff. rewrite Hx. simpl.
  rewrite (num_leb_fin _ _ Ha Hb) in Hab. rewrite (num_ltb_fin _ _ Hb Hx) in Hbx.
  rewrite (num_ltb_fin _ _ Ha Hx). apply Z.leb_le in Hab. apply Z.ltb_lt in Hbx.
  apply Z.ltb_lt. lia.
Qed.

Lemma rank_among_first (l : list district) (a : value) :
  finite_number a = true ->
  (forall e, e ∈ l -> finite_number (total_marks e) = true ->
     num_leb (total_marks e) a = true) ->
  rank_among l a = 1.
Proof.
  intros Ha Hmax. unfold rank_among, strictly_greater.
  rewrite count_if_none; [done|]. apply Forall_forall. intros e He.
  destruct (finite_number (total_marks e)) eqn:Hfin; [|done]. simpl.
  specialize (Hmax e He Hfin).
  rewrite (num_leb_fin _ _ Hfin Ha) in Hmax. rewrite (num_ltb_fin _ _ Ha Hfin).
  apply Z.leb_le in Hmax. apply Z.ltb_ge. lia.
Qed.

Lemma state_performers_unfold (pm : list (string * dict)) :
  state_performers pm =
  l ← current_district_list pm.*2;
  match l with
  | [] => Ok {| top_performer := VNone; bottom_performer := VNone |}
  | _ =>
      let top_bottom_full := get_top_bottom_by_field l TOTAL_MARKS_KEY [] "name" true in
      t ← _extract_performer_summary (default VNone (top top_bottom_full));
      b ← _extract_performer_summary (default VNone (bottom top_bottom_full));
      Ok {| top_performer := t; bottom_performer := b |}
  end.
Proof. by destruct pm. Qed.

(** The top and the bottom of records that all have a name and finite
    marks. *)
Lemma top_bottom_valid (valid : list dict) :
  (forall d, d ∈ valid ->
     survives TOTAL_MARKS_KEY [] "name" (VDict d) = true /\
     compared_value TOTAL_MARKS_KEY [] (VDict d) = dict_get d TOTAL_MARKS_KEY) ->
  valid <> [] ->
  exists dt db,
    get_top_bottom_by_field (VDict <$> valid) TOTAL_MARKS_KEY [] "name" true =
    {| top := Some (VDict dt); bottom := Some (VDict db) |} /\
    dt ∈ valid /\ db ∈ valid /\
    forall d, d ∈ valid ->
      num_leb (dict_get d TOTAL_MARKS_KEY) (dict_get dt TOTAL_MARKS_KEY) = true /\
      num_leb (dict_get db TOTAL_MARKS_KEY) (dict_get d TOTAL_MARKS_KEY) = true.
Proof.
  intros Hsurv Hne.
  pose proof (top_bottom_extrema (VDict <$> valid) TOTAL_MARKS_KEY [] "name" true) as Htb.
  assert (Hkept : List.filter (survives TOTAL_MARKS_KEY [] "name") (VDict <$> valid) =
                  VDict <$> valid).
  { rewrite filter_fmap. f_equal.
    rewrite <- (filter_ext_in (fun _ => true)).
    - clear. induction valid as [|x valid IH]; simpl; [done|]. by rewrite IH.
    - intros d Hd%list_elem_of_In. symmetry. by apply Hsurv. }
  simpl in Htb. rewrite Hkept in Htb.
  destruct valid as [|v0 valid0]; [done|].
  rewrite fmap_cons in Htb. rewrite <- fmap_cons in Htb.
  destruct Htb as (t & b & Htb & Ht & Hb & Hext).
  apply list_elem_of_fmap in Ht as (dt & -> & Hdt).
  apply list_elem_of_fmap in Hb as (db & -> & Hdb).
  exists dt, db. split_and!; try done.
  intros d Hd. destruct (Hext (VDict d)) as [H1 H2]; [by apply list_elem_of_fmap_2|].
  unfold in_order in H1, H2.
  rewrite (proj2 (Hsurv d Hd)) in H1, H2.
  rewrite (proj2 (Hsurv dt Hdt)) in H1. rewrite (proj2 (Hsurv db Hdb)) in H2. done.
Qed.

(** X9. On the districts of one date, the top performer of the state
    context is a district ranked first by [calculate_ranks], the bottom
    performer is one with the last rank, and each summary holds the
    district's name and its total; there is no performer exactly when no
    district is ranked. *)
Theorem performers_ranks (pm : list (string * dict)) :
  keyed_by_name pm ->
  Forall (fun kd => in_double_range (dict_get kd.2 TOTAL_MARKS_KEY) = true) pm ->
  exists m p,
    calculate_ranks (district_of <$> pm.*2) = Ok m /\
    state_performers pm = Ok p /\
    match top_performer p with
    | VNone => m = ∅
    | t =>
        exists k rec, (k, rec) ∈ pm /\
          t = VDict [("name", VStr k); ("score", dict_get rec TOTAL_MARKS_KEY)] /\
          m !! k = Some 1
    end /\
    match bottom_performer p with
    | VNone => m = ∅
    | b =>
        exists k rec rb, (k, rec) ∈ pm /\
          b = VDict [("name", VStr k); ("score", dict_get rec TOTAL_MARKS_KEY)] /\
          m !! k = Some rb /\ forall n r, m !! n = Some r -> r <= rb
    end.
Proof.
  intros Hkeyed Hrange.
  set (l := district_of <$> pm.*2).
  set (marks := fun d : dict => dict_get d TOTAL_MARKS_KEY).
  assert (Hrange' : forallb (fun d => in_double_range (total_marks d)) l = true).
  { apply forallb_forall.
    intros d (rec & -> & ([k rec'] & -> & Hkr)%list_elem_of_fmap_1)%list_elem_of_In%list_elem_of_fmap_1.
    rewrite Forall_forall in Hrange. apply (Hrange _ Hkr). }
  destruct (keyed_ranks pm Hkeyed Hrange') as (m & Hm & Hrank & Hdom). fold l in Hm, Hrank.
  assert (Hrec : forall k rec, (k, rec) ∈ pm ->
            dict_get rec "name" = VStr k /\ k <> "" /\ in_double_range (marks rec) = true).
  { intros k rec Hkr. destruct Hkeyed as [_ Hnames]. rewrite Forall_forall in Hnames, Hrange.
    destruct (Hnames _ Hkr) as [(? & _) ?]. split_and!; try done. apply (Hrange _ Hkr). }
  exists m. rewrite state_performers_unfold, current_district_list_spec; cycle 1.
  { apply Forall_forall. intros rec ([k rec'] & -> & Hkr)%list_elem_of_fmap.
    apply (Hrec k rec' Hkr). }
  simpl mbind.
  remember (List.filter (fun d => finite_number (dict_get d TOTAL_MARKS_KEY)) pm.*2)
    as valid eqn:Ev.
  assert (Hvalid : forall d, d ∈ valid <->
            exists k, (k, d) ∈ pm /\ finite_number (marks d) = true).
  { intros d. rewrite Ev, list_elem_of_In, filter_In, <- list_elem_of_In.
    rewrite list_elem_of_fmap. split.
    - intros [([k d'] & -> & Hkr) Hfin]. eauto.
    - intros (k & Hkr & Hfin). split; [by exists (k, d)|done]. }
  clear Ev.
  assert (Hsurv : forall d, d ∈ valid ->
            survives TOTAL_MARKS_KEY [] "name" (VDict d) = true /\
            compared_value TOTAL_MARKS_KEY [] (VDict d) = marks d).
  { intros d (k & Hkr & Hfin)%Hvalid. destruct (Hrec k d Hkr) as (? & ? & _).
    by apply (valid_record_survives d k). }
  destruct (decide (valid = [])) as [->|Hne].
  { assert (Hempty : m = ∅).
    { apply map_eq. intros n. rewrite lookup_empty.
      apply eq_None_not_Some. intros Hn. pose proof (Hdom n Hn) as Hk.
      apply list_elem_of_fmap in Hk as ([k rec] & -> & Hkr).
      destruct Hn as [r Hr]. simpl in Hr. rewrite (Hrank k rec Hkr) in Hr.
      fold (marks rec) in Hr.
      destruct (finite_number (marks rec)) eqn:Hfin; [|done].
      assert (Hin : rec ∈ @nil dict) by (apply Hvalid; eauto).
      by apply elem_of_nil in Hin. }
    eexists. by split_and!. }
  destruct (top_bottom_valid valid Hsurv Hne) as (dt & db & Htb & Hdt & Hdb & Hext).
  destruct valid as [|v0 valid0]; [done|].
  rewrite fmap_cons. rewrite <- fmap_cons. cbv zeta. rewrite Htb. simpl top. simpl bottom.
  pose proof Hdt as (kt & Hkt & Hft)%Hvalid. pose proof Hdb as (kb & Hkb & Hfb)%Hvalid.
  destruct (Hrec kt dt Hkt) as (Hnt & Hkt' & Hrt).
  destruct (Hrec kb db Hkb) as (Hnb & Hkb' & Hrb).
  simpl default.
  rewrite (extract_summary_valid dt kt), (extract_summary_valid db kb) by done.
  simpl. eexists. split_and!; [done|done| |]; simpl.
  - exists kt, dt. split_and!; [done|done|].
    rewrite (Hrank kt dt Hkt). fold (marks dt). rewrite Hft. f_equal.
    apply rank_among_first; [done|].
    intros e He Hfin. unfold l in He.
    apply list_elem_of_fmap in He as (rec & -> & ([k rec'] & -> & Hkr)%list_elem_of_fmap).
    simpl in *. fold (marks rec') in *.
    apply Hext. apply Hvalid. eauto.
  - exists kb, db, (rank_among l (marks db)). split_and!; [done|done| |].
    + rewrite (Hrank kb db Hkb). fold (marks db). by rewrite Hfb.
    + intros n r Hr. assert (Hn : n ∈ pm.*1) by (apply Hdom; eauto).
      apply list_elem_of_fmap in Hn as ([k rec] & -> & Hkr). simpl in Hr.
      rewrite (Hrank k rec Hkr) in Hr. fold (marks rec) in Hr.
      destruct (finite_number (marks rec)) eqn:Hfin; [|done]. injection Hr as <-.
      apply rank_among_le; [done|done|].
      apply Hext. apply Hvalid. eauto.
Qed.

(** * [safe_get] *)

Lemma safe_get_walk_app (data : value) (ks1 ks2 : list string) :
  safe_get_walk data (ks1 ++ ks2) =
  match safe_get_walk data ks1 with
  | Some v => safe_get_walk v ks2
  | None => None
  end.
Proof.
  revert data. induction ks1 as [|k ks1 IH]; intros data; simpl; [done|].
  destruct data; first [done | apply IH].
Qed.

Lemma safe_get_walk_dict (data : value) (keys : list string) (v : value) :
  safe_get_walk data keys = Some v -> keys <> [] -> exists d, data = VDict d.
Proof. destruct keys; [done|]. destruct data; simpl; try done. eauto. Qed.

(** X10. [safe_get] answers with the default or with a value that is
    neither null nor NaN, and with the default whenever the data is not a
    dict. *)
Theorem safe_get_result (data : value) (keys : list string) (default : value) :
  (safe_get data keys default = default \/
   (is_none (safe_get data keys default) = false /\
    is_nan_value (safe_get data keys default) = false /\
    safe_get_walk data keys = Some (safe_get data keys default))) /\
  (is_dict data = false -> safe_get data keys default = default).
Proof.
  split; [|by destruct data].
  unfold safe_get. destruct data; try (by left).
  destruct (safe_get_walk _ keys) as [v|]; [|by left].
  destruct (is_nan_value v) eqn:En; [by left|].
  destruct v; try (by left); right; done.
Qed.

(** X11. Nested access composes: reading a path in one call is reading its
    first part and then the rest in what was found. *)
Theorem safe_get_compose (data : value) (ks1 ks2 : list string) (default : value) :
  ks2 <> [] ->
  safe_get data (ks1 ++ ks2) default = safe_get (safe_get data ks1 VNone) ks2 default.
Proof.
  intros Hks2. unfold safe_get at 1 3. destruct data as [| | | | | |d]; try done.
  rewrite safe_get_walk_app.
  destruct (safe_get_walk (VDict d) ks1) as [v|]; [|done].
  destruct ks2 as [|k ks2]; [done|].
  destruct v as [| | |f| | |d']; try done.
  simpl. by destruct (is_nan f).
Qed.

(** * [find_district_data] *)

Lemma find_district_loop_spec (items : list value) (key name_key : string) :
  find_district_loop items key name_key =
  default VNone (head (List.filter (names_district name_key key) items)).
Proof.
  induction items as [|x items IH]; simpl; [done|].
  unfold names_district at 1.
  destruct (safe_get x [name_key] VNone) as [| | | |s| |]; try done.
  by destruct (String.eqb _ key).
Qed.

Lemma find_district_loop_texts {A} (f : A -> string) (l : list A) (key name_key : string) :
  find_district_loop ((fun x => VStr (f x)) <$> l) key name_key = VNone.
Proof. induction l as [|x l IH]; [done|]. by rewrite fmap_cons. Qed.

Lemma find_district_data_list (items : list value) (key name_key : string) :
  find_district_data (VList items) key name_key =
  Ok (default VNone (head (List.filter (names_district name_key key) items))).
Proof.
  unfold find_district_data. destruct items as [|x items]; [done|].
  change (py_truthy (VList (x :: items))) with true. cbn [negb py_iter mbind result_bind].
  by rewrite find_district_loop_spec.
Qed.

(** X12. [find_district_data] returns the first item of the list whose
    name, stripped and in upper case, is the district looked for, and null
    when there is none or when the list is empty or null.  Of a dict or a
    text, which it walks through key by key or character by character, it
    finds nothing; a number other than zero is not iterable and raises
    [TypeError]. *)
Theorem find_district_data_spec (data_list : value) (district_name_upper name_key : string) :
  find_district_data data_list district_name_upper name_key =
  match data_list with
  | VList items =>
      Ok (default VNone
            (head (List.filter (names_district name_key district_name_upper) items)))
  | VNone | VStr _ | VDict _ => Ok VNone
  | VBool _ | VInt _ | VFloat _ =>
      if py_truthy data_list then Raise TypeError else Ok VNone
  end.
Proof.
  destruct data_list as [|b|z|f|s|items|d]; try apply find_district_data_list;
    unfold find_district_data; try done.
  - by destruct b.
  - simpl. by destruct (z =? 0).
  - simpl. by destruct (ext_eqb _ _).
  - simpl. destruct (String.eqb s ""); simpl; [done|].
    f_equal. apply (find_district_loop_texts id).
  - destruct d as [|kv d]; [done|].
    change (py_truthy (VDict (kv :: d))) with true. cbn [negb py_iter mbind result_bind].
    f_equal. apply (find_district_loop_texts fst).
Qed.

Lemma head_filter_elem {A} (P : A -> bool) (l : list A) (x : A) :
  x ∈ l -> P x = true ->
  exists y, head (List.filter P l) = Some y /\ P y = true /\ y ∈ l.
Proof.
  induction l as [|z l IH]; [by intros ?%elem_of_nil|].
  intros Hx Px. simpl. destruct (P z) eqn:Pz.
  - exists z. split_and!; [done|done|left].
  - apply elem_of_cons in Hx as [->|Hx]; [congruence|].
    destruct (IH Hx Px) as (y & ? & ? & ?). exists y. split_and!; [done|done|by right].
Qed.

Lemma names_district_item (config : Config.t) (item_data : value) (k : string) :
  k <> "" ->
  names_district (Config.name_key config) k item_data = true <->
  item_district config item_data = Some k.
Proof.
  intros Hk. unfold names_district, item_district, safe_get.
  destruct item_data as [| | | | | |d]; try done.
  destruct (safe_get_walk _ _) as [v|]; [|done].
  destruct (is_nan_value v); [done|].
  destruct v as [| | | |s| |]; try done.
  destruct (String.eqb_spec (py_upper (py_strip s)) k) as [->|Hne].
  - by destruct (String.eqb_spec k "").
  - split; [done|]. destruct (String.eqb _ ""); [done|]. by intros [= ?].
Qed.

(** X13. The names of the aggregation and of [find_district_data] agree:
    under the name a district is filed by the aggregation,
    [find_district_data] finds a record of that district in the component's
    raw items, whatever the case and the blanks of the name there. *)
Theorem find_district_data_filed (config : Config.t) (items : list value)
    (item_data : value) (k : string) :
  item_data ∈ items ->
  item_district config item_data = Some k ->
  exists found,
    find_district_data (VList items) k (Config.name_key config) = Ok found /\
    found ∈ items /\ item_district config found = Some k.
Proof.
  intros Hin Hk.
  assert (Hne : k <> "").
  { unfold item_district in Hk. destruct item_data; try done.
    destruct (safe_get _ _ _); try done.
    destruct (String.eqb_spec (py_upper (py_strip s)) ""); [done|]. by injection Hk as <-. }
  apply (names_district_item config item_data k Hne) in Hk.
  destruct (head_filter_elem _ items item_data Hin Hk) as (found & Hhead & Hfound & Hin').
  exists found. rewrite find_district_data_list, Hhead. split_and!; [done|done|].
  by apply names_district_item.
Qed.

(** * [_get_kpi_value] *)

(** The three-way choice at the end of [_get_kpi_value]. *)
Lemma kpi_choice `{Parsers} (v default : value) (t : target_type) :
  (converted_value ← _safe_convert v t (type_default t);
   if is_none default && num_eqb converted_value (type_default t) && is_none v
   then Ok VNone
   else if is_none default && num_eqb converted_value (type_default t)
   then Ok converted_value
   else Ok (if is_none v then default else converted_value)) =
  if is_none v then Ok default else _safe_convert v t (type_default t).
Proof.
  destruct (is_none v) eqn:Ev.
  - destruct v; try done. destruct t, default; reflexivity.
  - destruct (_safe_convert v t (type_default t)) as [r|e]; simpl; [|done].
    rewrite andb_false_r. by destruct (is_none default && num_eqb r (type_default t)).
Qed.

(** X14. [_get_kpi_value] answers with the default when it reads nothing
    or reads null, and otherwise with the value converted to its type, a
    float for the total marks and for a key that mentions marks and an int
    for the others; what does not convert counts as the zero of the type. *)
Theorem get_kpi_value_spec `{Parsers} (district_data : value) (component : string)
    (key : option string) (default : value) :
  _get_kpi_value district_data component key default =
  match stored_kpi district_data component key with
  | Some (v, t) => if is_none v then Ok default else _safe_convert v t (type_default t)
  | None => Ok default
  end.
Proof.
  unfold _get_kpi_value, stored_kpi, kpi_type.
  destruct district_data as [| | | | | |d]; try done.
  destruct (String.eqb component TOTAL_MARKS_KEY).
  - destruct key as [k|]; apply kpi_choice.
  - destruct key as [k|]; [|by destruct (dict_get d component)].
    destruct (dict_get d component); apply kpi_choice.
Qed.

(** * Farm ponds: the blocks and their panchayats in order *)

Lemma process_component_data_count `{Parsers} (data r : value) :
  FarmPonds.process_component_data data = Ok r -> py_truthy r = true ->
  exists z, FarmPonds.field r FarmPonds.COUNT_KEY = VInt z.
Proof.
  unfold FarmPonds.process_component_data.
  destruct (py_truthy data); simpl; [|by intros [= <-]].
  intros Hr _. repeat (apply bind_Ok in Hr as (? & ? & Hr)).
  injection Hr as <-. simpl. eauto.
Qed.

Lemma panchayat_processed_list_counts `{Parsers} (l ps : list value) (p : value) :
  FarmPonds.panchayat_processed_list l = Ok ps -> p ∈ ps ->
  exists z, FarmPonds.field p FarmPonds.COUNT_KEY = VInt z.
Proof.
  revert ps. induction l as [|raw l IH]; intros ps Hps Hp.
  { injection Hps as <-. by apply elem_of_nil in Hp. }
  simpl in Hps.
  apply bind_Ok in Hps as (processed & Hproc & Hps).
  apply bind_Ok in Hps as (others & Ho & Hps).
  injection Hps as <-.
  destruct (py_truthy processed && py_truthy (FarmPonds.field processed "name")) eqn:Et;
    [|eauto].
  apply elem_of_cons in Hp as [-> | Hp]; [|eauto].
  apply andb_true_iff in Et as [Et _].
  destruct (process_component_data_count _ _ Hproc Et) as [z Hz].
  exists z. simpl. exact Hz.
Qed.

Lemma int_comparable (v : value) (z : Z) : v = VInt z -> comparable v = true.
Proof. intros ->. unfold comparable, num_eqb. simpl. apply Z.eqb_refl. Qed.

(** X15. The panchayats listed for a block are the five with the highest
    counts (all of them when there are fewer), in descending order of count:
    every panchayat left out has a count no higher than any one listed. *)
Theorem top_5_panchayats_highest `{Parsers} (panchayat_results_raw top5 : list value) :
  FarmPonds.top_5_panchayats panchayat_results_raw = Ok top5 ->
  let count := fun x => FarmPonds.field x FarmPonds.COUNT_KEY in
  exists all,
    FarmPonds.panchayat_processed_list panchayat_results_raw = Ok all /\
    length top5 = Nat.min 5 (length all) /\
    (forall p, p ∈ top5 -> p ∈ all) /\
    StronglySorted (in_order count true) top5 /\
    (forall q, q ∈ all ->
       q ∈ top5 \/ forall p, p ∈ top5 -> num_leb (count q) (count p) = true).
Proof.
  unfold FarmPonds.top_5_panchayats. intros Htop.
  set (count := fun x => FarmPonds.field x FarmPonds.COUNT_KEY) in *.
  apply bind_Ok in Htop as (all & Hall & [= <-]).
  exists all. split; [done|].
  set (sorted := py_sorted count true all).
  assert (Hperm : sorted ≡ₚ all) by apply py_sorted_Permutation.
  assert (Hsort : StronglySorted (in_order count true) sorted).
  { apply py_sorted_StronglySorted. apply Forall_forall. intros p Hp.
    destruct (panchayat_processed_list_counts _ _ p Hall Hp) as [z Hz].
    by apply (int_comparable _ z). }
  rewrite <- (take_drop 5 sorted) in Hsort.
  apply StronglySorted_app in Hsort as (Hcross & Htake & _).
  split_and!.
  - by rewrite length_take, (Permutation_length Hperm).
  - intros p Hp. rewrite <- Hperm. by apply (subseteq_take 5 sorted).
  - done.
  - intros q Hq. rewrite <- Hperm, <- (take_drop 5 sorted) in Hq.
    apply elem_of_app in Hq as [Hq|Hq]; [by left|]. right.
    intros p Hp. by apply (Hcross p q).
Qed.

Lemma processed_blocks_fields `{Parsers} (fetch_panchayats : value -> list value)
    (l bs : list value) (b : value) :
  FarmPonds.processed_blocks fetch_panchayats l = Ok bs -> b ∈ bs ->
  (exists z, FarmPonds.field b FarmPonds.COUNT_KEY = VInt z) /\
  exists top5, FarmPonds.field b "top_5_panchayats" = VList top5 /\
    FarmPonds.top_5_panchayats (fetch_panchayats (FarmPonds.field b "name")) = Ok top5.
Proof.
  revert bs. induction l as [|raw l IH]; intros bs Hbs Hb.
  { injection Hbs as <-. by apply elem_of_nil in Hb. }
  simpl in Hbs.
  apply bind_Ok in Hbs as (processed & Hp & Hbs).
  destruct (negb (py_truthy processed)
            || negb (py_truthy (FarmPonds.field processed "name"))) eqn:Eskip;
    [by eauto|].
  apply orb_false_iff in Eskip as [Et _]. apply negb_false_iff in Et.
  apply bind_Ok in Hbs as (top5 & Htop & Hbs).
  apply bind_Ok in Hbs as (others & Ho & Hbs).
  injection Hbs as <-.
  apply elem_of_cons in Hb as [-> | Hb]; [|by eauto].
  split.
  - destruct (process_component_data_count _ _ Hp Et) as [z Hz]. exists z. exact Hz.
  - exists top5. split; [done|exact Htop].
Qed.

(** X16. The blocks of a district come in descending order of count, they
    are the blocks that were processed, and the panchayats listed with a
    block are the top five of the panchayats fetched under the block's
    name. *)
Theorem block_level_data_sorted `{Parsers} (fetch_panchayats : value -> list value)
    (block_results_raw bs : list value) :
  FarmPonds.block_level_data fetch_panchayats block_results_raw = Ok bs ->
  StronglySorted (in_order (fun x => FarmPonds.field x FarmPonds.COUNT_KEY) true) bs /\
  (exists blocks,
     FarmPonds.processed_blocks fetch_panchayats block_results_raw = Ok blocks /\
     bs ≡ₚ blocks) /\
  (forall b, b ∈ bs ->
     exists top5, FarmPonds.field b "top_5_panchayats" = VList top5 /\
       FarmPonds.top_5_panchayats (fetch_panchayats (FarmPonds.field b "name")) = Ok top5).
Proof.
  unfold FarmPonds.block_level_data. intros Hbs.
  apply bind_Ok in Hbs as (blocks & Hblocks & [= <-]).
  split_and!.
  - apply py_sorted_StronglySorted. apply Forall_forall. intros b Hb.
    destruct (processed_blocks_fields _ _ _ b Hblocks Hb) as [[z Hz] _].
    by apply (int_comparable _ z).
  - exists blocks. split; [done|apply py_sorted_Permutation].
  - intros b Hb. rewrite py_sorted_Permutation in Hb.
    by destruct (processed_blocks_fields _ _ _ b Hblocks Hb) as [_ ?].
Qed.

(** * Grades: a higher value never has a lower grade *)

Lemma at_least_trans (t v1 v2 : value) :
  num_leb v1 v2 = true -> at_least v1 t = true -> at_least v2 t = true.
Proof. unfold at_least. intros H12 Ht. by apply (num_leb_trans t v1 v2). Qed.

(** X17. When the grade is relative to the state (an average and a median
    both present and not zero), it is monotone: of two values, the greater
    one never gets the lower grade. *)
Theorem grade_monotone (v1 v2 max_value state_stats : value) :
  in_double_range v1 = true ->
  in_double_range v2 = true ->
  in_double_range max_value = true ->
  stats_typed state_stats = true ->
  is_Some (usable_stats state_stats) ->
  num_leb v1 v2 = true ->
  exists b1 b2,
    get_grade_label v1 max_value state_stats = Ok (band_label b1) /\
    get_grade_label v2 max_value state_stats = Ok (band_label b2) /\
    band_rank b1 <= band_rank b2.
Proof.
  intros R1 R2 Rm Hst [[avg median] Hstats] H12.
  exists (grade v1 max_value state_stats), (grade v2 max_value state_stats).
  rewrite !get_grade_label_decisions.
  rewrite (grade_decisions_typed _ _ _ R1 Rm Hst), (grade_decisions_typed _ _ _ R2 Rm Hst).
  split_and!; [done|done|].
  assert (Hn1 : is_number v1 = true).
  { unfold num_leb in H12. by destruct v1. }
  assert (Hn2 : is_number v2 = true).
  { unfold num_leb in H12. destruct v2; try done; simpl in H12; by destruct (num_ext v1). }
  unfold grade. rewrite Hn1, Hn2, Hstats. simpl.
  destruct (negb (is_number max_value) || num_eqb max_value (VInt 0)); [done|].
  pose proof (at_least_trans (times 1.25 avg) v1 v2 H12) as T1.
  pose proof (at_least_trans avg v1 v2 H12) as T2.
  pose proof (at_least_trans median v1 v2 H12) as T3.
  pose proof (at_least_trans (times 0.7 median) v1 v2 H12) as T4.
  destruct (at_least v1 (times 1.25 avg)); [by rewrite T1|].
  destruct (at_least v1 avg).
  { rewrite T2 by done. by destruct (at_least v2 (times 1.25 avg)). }
  destruct (at_least v1 median).
  { rewrite T3 by done.
    by destruct (at_least v2 (times 1.25 avg)), (at_least v2 avg). }
  destruct (at_least v1 (times 0.7 median)).
  { rewrite T4 by done.
    by destruct (at_least v2 (times 1.25 avg)), (at_least v2 avg), (at_least v2 median). }
  by destruct (at_least v2 (times 1.25 avg)), (at_least v2 avg), (at_least v2 median),
       (at_least v2 (times 0.7 median)).
Qed.

(** * The position of a district and its status *)

Lemma compare_to_cases (x stat : value) (stat_name : string) :
  is_number x = true -> is_number stat = true \/ stat = VNone ->
  Position.compare_to x stat stat_name =
  Ok (if is_none stat then []
      else if above x stat then ["Above " +:+ stat_name]
      else if below x stat then ["Below " +:+ stat_name]
      else ["Equal to " +:+ stat_name]).
Proof.
  intros Hx [Hs| ->]; [|done].
  assert (Ex : exists a, num_ext x = Some a) by (destruct x; try done; eauto).
  assert (Es : exists b, num_ext stat = Some b) by (destruct stat; try done; eauto).
  assert (Hn : is_none stat = false) by by destruct stat.
  destruct Ex as [a Ea], Es as [b Eb].
  unfold Position.compare_to, above, below, num_gt, num_lt, num_ltb.
  rewrite Hn, Ea, Eb. cbn [negb andb].
  destruct stat; try done; cbn [mbind result_bind];
    destruct (ext_ltb b a); try done; cbn [mbind result_bind]; by destruct (ext_ltb a b).
Qed.

(** X18. The status the dashboard shows follows the position the farm
    ponds analysis computed: above the mean and above the median of the
    state is the best status, above one of the two the second, below both
    the low one, and anything else the middle one. *)
Theorem completion_status_of_position (x mean median : value) :
  is_number x = true ->
  is_number mean = true \/ mean = VNone ->
  is_number median = true \/ median = VNone ->
  exists text,
    Position.comparison x mean median = Ok text /\
    get_completion_status_text (VStr text) =
    Ok (if above x mean && above x median then "उत्कृष्ट (राज्य औसत से बेहतर)"
        else if above x mean || above x median then "अच्छा (औसत के करीब)"
        else if below x mean && below x median then "निम्न (राज्य औसत से कम)"
        else "औसत").
Proof.
  intros Hx Hmean Hmedian. unfold Position.comparison.
  rewrite (compare_to_cases x mean "Mean" Hx Hmean).
  rewrite (compare_to_cases x median "Median" Hx Hmedian).
  unfold above, below.
  destruct (is_none mean), (is_none median), (num_ltb mean x), (num_ltb x mean),
    (num_ltb median x), (num_ltb x median); simpl; eexists; split; reflexivity.
Qed.

(** * A value that did not change *)

Lemma float_sub_diag (f : float) :
  is_nan f = false -> is_infinity f = false -> Prim2SF (f - f) = S754_zero false.
Proof.
  rewrite is_nan_Prim2SF, is_infinity_Prim2SF, FloatAxioms.sub_spec.
  unfold SF64sub, SFsub. intros Hn Hi.
  destruct (Prim2SF f) as [sg|sg| |sg m e]; try done.
  - by destruct sg.
  - by rewrite Z.sub_diag.
Qed.

Lemma reported_change_diag (f : float) :
  is_nan f = false -> is_infinity f = false -> reported_change f f = VInt 0.
Proof.
  intros Hn Hi. pose proof (float_sub_diag f Hn Hi) as E.
  unfold reported_change, float_is_whole, float_trunc, float_scaled.
  rewrite is_nan_Prim2SF, is_infinity_Prim2SF, E. reflexivity.
Qed.

(** X19. A value compared with itself has changed by the integer 0, exactly:
    never by a float and never by a rounding residue.  A value that is not
    a finite number has no change at all. *)
Theorem calculate_change_unchanged `{Parsers} (v : value) :
  in_double_range v = true ->
  _calculate_change v v =
  Ok (match coerce_finite v with Some _ => VInt 0 | None => VNone end).
Proof.
  intros Hv. unfold _calculate_change.
  rewrite !safe_convert_float by done. simpl.
  destruct (coerce_finite v) as [f|] eqn:Ef; [|done].
  assert (Hf : is_nan f = false /\ is_infinity f = false).
  { unfold coerce_finite in Ef. destruct v; try done.
    all: destruct (py_float _) as [g|]; try done.
    all: destruct (is_nan g || is_infinity g) eqn:Eg; try done.
    all: injection Ef as <-; by apply orb_false_iff in Eg. }
  destruct Hf as [Hn Hi].
  pose proof (reported_change_diag f Hn Hi) as E. unfold reported_change in E.
  destruct (is_nan (f - f) || is_infinity (f - f)); [done|].
  destruct (float_is_whole (f - f)); by rewrite E.
Qed.

(** * The leaders of the categories *)

Lemma ext_ltb_trans (a b c : ext) :
  ext_ltb a b = true -> ext_ltb b c = true -> ext_ltb a c = true.
Proof.
  destruct a, b, c; simpl; try done.
  rewrite !Z.ltb_lt. lia.
Qed.

Lemma num_ltb_trans (a b c : value) :
  num_ltb a b = true -> num_ltb b c = true -> num_ltb a c = true.
Proof.
  unfold num_ltb.
  destruct (num_ext a) as [x|], (num_ext b) as [y|], (num_ext c) as [z|]; try done.
  apply ext_ltb_trans.
Qed.

Lemma num_ltb_irrefl (a : value) : num_ltb a a = false.
Proof.
  unfold num_ltb. destruct (num_ext a) as [x|]; [|done].
  destruct x; simpl; try done. apply Z.ltb_irrefl.
Qed.

Lemma num_ltb_asym (a b : value) : num_ltb a b = true -> num_ltb b a = false.
Proof.
  intros Hab. destruct (num_ltb b a) eqn:Hba; [|done].
  by rewrite <- (num_ltb_irrefl a), (num_ltb_trans a b a Hab Hba).
Qed.

Lemma assoc_get_dict_get (d : dict) (k : string) (v : value) :
  assoc_get d k = Some v -> dict_get d k = v.
Proof.
  unfold dict_get. induction d as [|[k0 v0] d IH]; simpl; [done|].
  destruct (String.eqb k0 k); [by intros [= ->]|done].
Qed.

(** The loop over the districts: either the leader it started with stays,
    and no district has marks above the bar, or a district takes the lead
    whose marks are above the bar and that no district exceeds. *)
Lemma leader_loop_spec (category : string) (data : list value) (ld mx : value) :
  match leader_loop category data ld mx with
  | Some r =>
      (r = ld /\
       forall d' m', d' ∈ data -> competing_marks category d' = Some m' ->
                     num_ltb mx m' = false) \/
      (exists d m, d ∈ data /\ competing_marks category d = Some m /\
         num_ltb mx m = true /\ r = leader_entry category d /\
         forall d' m', d' ∈ data -> competing_marks category d' = Some m' ->
                       num_ltb m m' = false)
  | None => exists d, d ∈ data /\ nameless d
  end.
Proof.
  revert ld mx. induction data as [|x data IH]; intros ld mx.
  - simpl. left. split; [done|]. by intros d' m' ?%elem_of_nil.
  - cbn [leader_loop].
    assert (Hskip :
      (forall m0, competing_marks category x = Some m0 -> num_ltb mx m0 = false) ->
      match leader_loop category data ld mx with
      | Some r =>
          (r = ld /\
           forall d' m', d' ∈ x :: data -> competing_marks category d' = Some m' ->
                         num_ltb mx m' = false) \/
          (exists d m, d ∈ x :: data /\ competing_marks category d = Some m /\
             num_ltb mx m = true /\ r = leader_entry category d /\
             forall d' m', d' ∈ x :: data -> competing_marks category d' = Some m' ->
                           num_ltb m m' = false)
      | None => exists d, d ∈ x :: data /\ nameless d
      end).
    { intros Hx. specialize (IH ld mx).
      destruct (leader_loop category data ld mx) as [r|].
      - destruct IH as [[-> Hall] | (d & m & Hd & Hm & Hgt & -> & Hall)].
        + left. split; [done|]. intros d' m' [-> | Hd']%elem_of_cons Hm'.
          * by apply Hx.
          * by apply (Hall d').
        + right. exists d, m. split_and!; [by right|done|done|done|].
          intros d' m' [-> | Hd']%elem_of_cons Hm'; [|by apply (Hall d')].
          destruct (num_ltb m m') eqn:E'; [|done].
          pose proof (num_ltb_trans mx m m' Hgt E') as Hc.
          by rewrite (Hx m' Hm') in Hc.
      - destruct IH as (d & Hd & Hn). exists d. split; [by right|done]. }
    unfold competing_marks, category_details in Hskip.
    destruct (py_truthy (safe_get x ["individual_work_types"; category] VNone)) eqn:Et.
    2:{ apply Hskip. done. }
    set (cd := safe_get x ["individual_work_types"; category] VNone) in *.
    set (m0 := safe_get cd ["marks"] (VFloat 0)) in *.
    destruct (is_number m0) eqn:En; cbn [andb] in *.
    2:{ apply Hskip. done. }
    destruct (num_ltb mx m0) eqn:Egt; cbn [andb].
    2:{ apply Hskip. by intros ? [= <-]. }
    clear Hskip.
    destruct x as [| | | | | |d]; try done.
    destruct (assoc_get d "name") as [name|] eqn:Ename.
    2:{ exists (VDict d). split; [left|]. by exists d. }
    specialize (IH (VDict [("name", name); ("category_details", cd)]) m0).
    assert (Hx : competing_marks category (VDict d) = Some m0).
    { unfold competing_marks, category_details. fold cd. fold m0. by rewrite Et, En. }
    assert (Hentry : VDict [("name", name); ("category_details", cd)] =
                     leader_entry category (VDict d)).
    { unfold leader_entry, name_of, category_details.
      by rewrite (assoc_get_dict_get d "name" name Ename). }
    destruct (leader_loop category data _ m0) as [r|].
    + right. destruct IH as [[-> Hall] | (d1 & m1 & Hd1 & Hm1 & Hgt1 & -> & Hall)].
      * exists (VDict d), m0. split_and!; [left|done|done|done|].
        intros d' m' [-> | Hd']%elem_of_cons Hm'; [|by apply (Hall d')].
        rewrite Hx in Hm'. injection Hm' as <-. apply num_ltb_irrefl.
      * exists d1, m1. split_and!; [by right|done| |done|].
        { by apply (num_ltb_trans mx m0 m1). }
        intros d' m' [-> | Hd']%elem_of_cons Hm'; [|by apply (Hall d')].
        rewrite Hx in Hm'. injection Hm' as <-. by apply num_ltb_asym.
    + destruct IH as (d1 & Hd1 & Hn). exists d1. split; [by right|done].
Qed.

Lemma leaders_loop_spec (categories : list string) (data : list value) (acc : dict) :
  match leaders_loop categories data acc with
  | Some res =>
      forall c,
        (c ∈ categories ->
         exists r, leader_loop c data VNone (VFloat (-1)) = Some r /\
                   dict_get res c = if py_truthy r then r else no_leader) /\
        (c ∉ categories -> dict_get res c = dict_get acc c)
  | None => exists c, c ∈ categories /\ leader_loop c data VNone (VFloat (-1)) = None
  end.
Proof.
  revert acc. induction categories as [|c0 cats IH]; intros acc.
  - simpl. intros c. split; [by intros ?%elem_of_nil|done].
  - cbn [leaders_loop].
    destruct (leader_loop c0 data VNone (VFloat (-1))) as [r0|] eqn:E0.
    2:{ exists c0. split; [left|done]. }
    specialize (IH (dict_set acc c0 (if py_truthy r0 then r0 else no_leader))).
    destruct (leaders_loop cats data _) as [res|].
    + intros c. destruct (IH c) as [Hin Hout].
      destruct (decide (c ∈ cats)) as [Hc|Hc].
      * split; [by intros _; apply Hin|]. intros Hn. exfalso. apply Hn. by right.
      * split.
        -- intros [-> | Hc']%elem_of_cons; [|done].
           exists r0. split; [done|]. rewrite (Hout Hc). apply dict_get_set.
        -- intros Hn. apply not_elem_of_cons in Hn as [Hne _].
           rewrite (Hout Hc). by apply dict_get_set_ne.
    + destruct IH as (c & Hc & Hnone). exists c. split; [by right|done].
Qed.

(** X20. The leader of a category is a district whose marks in the
    category are above -1 and are exceeded by no district; when no district
    has such marks the entry is the placeholder N/A.  The search fails only
    on a record that has no name. *)
Theorem category_leaders_highest (processed_state_data : list value) (category : string) :
  processed_state_data <> [] ->
  category ∈ OldWorks.OLD_NRM_TARGET_CATEGORIES ->
  match find_category_leaders processed_state_data with
  | Some category_leaders =>
      (exists d m, d ∈ processed_state_data /\
         competing_marks category d = Some m /\
         num_ltb (VFloat (-1)) m = true /\
         dict_get category_leaders category = leader_entry category d /\
         forall d' m', d' ∈ processed_state_data ->
                       competing_marks category d' = Some m' -> num_ltb m m' = false) \/
      (dict_get category_leaders category = no_leader /\
       forall d' m', d' ∈ processed_state_data ->
                     competing_marks category d' = Some m' ->
                     num_ltb (VFloat (-1)) m' = false)
  | None => exists d, d ∈ processed_state_data /\ nameless d
  end.
Proof.
  intros Hne Hc. unfold find_category_leaders.
  destruct processed_state_data as [|x data]; [done|].
  change (negb (py_truthy (VList (x :: data)))) with false. cbv iota.
  pose proof (leaders_loop_spec OldWorks.OLD_NRM_TARGET_CATEGORIES (x :: data) []) as Hloop.
  destruct (leaders_loop _ _ _) as [res|].
  - destruct (Hloop category) as [(r & Hr & Hres) _]; [done|].
    pose proof (leader_loop_spec category (x :: data) VNone (VFloat (-1))) as Hl.
    rewrite Hr in Hl.
    destruct Hl as [[-> Hall] | (d & m & Hd & Hm & Hgt & -> & Hall)].
    + right. by split.
    + left. exists d, m. by split_and!.
  - destruct Hloop as (c & _ & Hnone).
    pose proof (leader_loop_spec c (x :: data) VNone (VFloat (-1))) as Hl.
    by rewrite Hnone in Hl.
Qed.

(** * The completed works of a block and their change *)

Lemma dict_set_key_elem (d : dict) (k k' : string) (v : value) :
  k' ∈ (dict_set d k v).*1 <-> k' = k \/ k' ∈ d.*1.
Proof.
  assert (E : dict_set d k v = assoc_set d k v).
  { induction d as [|[k0 v0] d IH]; simpl; [done|]. by rewrite IH. }
  rewrite E. apply assoc_set_key_elem.
Qed.

Lemma completed_counts_loop_spec `{Parsers} (block_raw_data : value)
    (categories : list string) (acc res : dict) :
  Blocks.completed_counts_loop block_raw_data categories acc = Ok res ->
  (forall c, c ∈ res.*1 <-> c ∈ categories \/ c ∈ acc.*1) /\
  (forall c, c ∈ categories ->
     exists z, Blocks.completed_count block_raw_data c = Ok z /\
               dict_get_or res c (VInt 0) = VInt z) /\
  (forall c, c ∉ categories -> dict_get_or res c (VInt 0) = dict_get_or acc c (VInt 0)).
Proof.
  revert acc. induction categories as [|c0 cats IH]; intros acc; cbn [Blocks.completed_counts_loop].
  - intros [= <-]. split_and!.
    + intros c. rewrite elem_of_nil. tauto.
    + by intros c ?%elem_of_nil.
    + done.
  - intros Hloop. apply bind_Ok in Hloop as (z0 & Hz0 & Hloop).
    destruct (IH _ Hloop) as (Hkeys & Hin & Hout).
    assert (Hc0 : c0 ∉ cats -> dict_get_or res c0 (VInt 0) = VInt z0).
    { intros Hn. rewrite (Hout c0 Hn), dict_get_or_set. by rewrite String.eqb_refl. }
    split_and!.
    + intros c. rewrite Hkeys, dict_set_key_elem, elem_of_cons. tauto.
    + intros c Hc. destruct (decide (c ∈ cats)) as [Hr|Hr]; [by apply Hin|].
      apply elem_of_cons in Hc as [-> | Hc]; [|done].
      exists z0. split; [done|by apply Hc0].
    + intros c [Hne Hn]%not_elem_of_cons.
      rewrite (Hout c Hn), dict_get_or_set. by destruct (String.eqb_spec c0 c).
Qed.

Lemma block_changes_loop_spec `{Parsers} (today_counts yesterday_counts : dict)
    (categories : list string) (acc : gmap string Z) :
  (forall c, c ∈ categories ->
     exists z, Blocks.change today_counts yesterday_counts c = Ok z) ->
  exists m, Blocks.changes_loop today_counts yesterday_counts categories acc = Ok m /\
    (forall c z, c ∈ categories ->
       Blocks.change today_counts yesterday_counts c = Ok z ->
       m !! c = if negb (z =? 0) then Some z else acc !! c) /\
    (forall c, c ∉ categories -> m !! c = acc !! c).
Proof.
  revert acc. induction categories as [|cat rest IH]; intros acc Hall.
  { exists acc. split_and!; [done| |done]. intros c e Hc. by apply elem_of_nil in Hc. }
  destruct (Hall cat (list_elem_of_here _ _)) as [z0 Hz0].
  cbn [Blocks.changes_loop]. rewrite Hz0. cbn [mbind result_bind].
  set (acc' := if negb (z0 =? 0) then <[cat:=z0]> acc else acc).
  destruct (IH acc') as (m & Hm & Hin & Hout).
  { intros c Hc. apply Hall. by right. }
  assert (Hcat : acc' !! cat = if negb (z0 =? 0) then Some z0 else acc !! cat).
  { unfold acc'. destruct (negb (z0 =? 0)); [apply lookup_insert_eq|done]. }
  assert (Hother : forall c, c <> cat -> acc' !! c = acc !! c).
  { intros c Hc. unfold acc'. destruct (negb (z0 =? 0)); [|done].
    by apply lookup_insert_ne. }
  exists m. split_and!; [done| |].
  - intros c z Hc Hz. destruct (decide (c ∈ rest)) as [Hr|Hr].
    + rewrite (Hin c z Hr Hz). destruct (negb (z =? 0)) eqn:Ez; [done|].
      destruct (decide (c = cat)) as [->|Hne]; [|by apply Hother].
      rewrite Hcat. rewrite Hz0 in Hz. injection Hz as ->. by rewrite Ez.
    + apply elem_of_cons in Hc as [-> | Hc]; [|done].
      rewrite (Hout cat Hr), Hcat. rewrite Hz0 in Hz. by injection Hz as ->.
  - intros c Hc. apply not_elem_of_cons in Hc as [Hne Hc].
    rewrite (Hout c Hc). by apply Hother.
Qed.

(** X21. The changes of a block between two dates, computed from the
    counts the two fetches stored: the comparison never fails, it covers
    exactly the tracked categories, and it holds a category if and only if
    its completed count differs between the two dates, with the difference
    today - yesterday. *)
Theorem block_changes_of_counts `{Parsers} (today_raw yesterday_raw : value)
    (today_counts yesterday_counts : dict) (all_block_categories : list string) :
  Blocks.block_completed_counts today_raw = Ok today_counts ->
  Blocks.block_completed_counts yesterday_raw = Ok yesterday_counts ->
  (forall c, c ∈ all_block_categories <-> compared_category today_counts yesterday_counts c) ->
  exists m,
    Blocks.block_changes today_counts yesterday_counts all_block_categories = Ok m /\
    forall c ch,
      m !! c = Some ch <->
      c ∈ OldWorks.OLD_NRM_TARGET_CATEGORIES /\ ch <> 0 /\
      exists a b, Blocks.completed_count today_raw c = Ok a /\
                  Blocks.completed_count yesterday_raw c = Ok b /\ ch = a - b.
Proof.
  intros Ht Hy Hcats.
  destruct (completed_counts_loop_spec _ _ _ _ Ht) as (Htk & Htin & _).
  destruct (completed_counts_loop_spec _ _ _ _ Hy) as (Hyk & Hyin & _).
  assert (Hiff : forall c, c ∈ all_block_categories <-> c ∈ OldWorks.OLD_NRM_TARGET_CATEGORIES).
  { intros c. rewrite Hcats. unfold compared_category. rewrite Htk, Hyk, elem_of_nil. tauto. }
  assert (Hchange : forall c, c ∈ OldWorks.OLD_NRM_TARGET_CATEGORIES ->
    exists a b, Blocks.completed_count today_raw c = Ok a /\
                Blocks.completed_count yesterday_raw c = Ok b /\
                Blocks.change today_counts yesterday_counts c = Ok (a - b)).
  { intros c Hc. destruct (Htin c Hc) as (a & Ha & Hta), (Hyin c Hc) as (b & Hb & Hyb).
    exists a, b. split_and!; [done|done|]. unfold Blocks.change. by rewrite Hta, Hyb. }
  destruct (block_changes_loop_spec today_counts yesterday_counts all_block_categories ∅)
    as (m & Hm & Hin & Hout).
  { intros c Hc%Hiff. destruct (Hchange c Hc) as (a & b & _ & _ & E). eauto. }
  exists m. split; [exact Hm|]. intros c ch. split.
  - intros Hlook. destruct (decide (c ∈ all_block_categories)) as [Hc|Hc].
    + pose proof Hc as Hc'%Hiff. destruct (Hchange c Hc') as (a & b & Ha & Hb & E).
      rewrite (Hin c _ Hc E) in Hlook.
      destruct (Z.eqb_spec (a - b) 0) as [E0|E0]; cbn [negb] in Hlook; [done|].
      injection Hlook as <-. split_and!; [done|done|]. by exists a, b.
    + by rewrite (Hout c Hc) in Hlook.
  - intros (Hc & Hnz & a & b & Ha & Hb & ->).
    destruct (Hchange c Hc) as (a' & b' & Ha' & Hb' & E).
    rewrite Ha in Ha'. rewrite Hb in Hb'. injection Ha' as <-. injection Hb' as <-.
    rewrite (Hin c _ (proj2 (Hiff c) Hc) E).
    by destruct (Z.eqb_spec (a - b) 0).
Qed.

(** * Checks of the model on concrete inputs *)

Example round2_examples :
  round2 2.675 = 2.67%float /\ round2 0.125 = 0.12%float /\
  round2 (0.3 - 0.1) = 0.2%float /\ round2 (-0.001) = (-0)%float /\
  round2 1e300 = 1e300%float /\ round2 infinity = infinity.
Proof. split_and!; reflexivity. Qed.

Example exact_comparisons :
  num_ltb (VInt 3) (VFloat 3.5) = true /\
  num_ltb (VFloat 3.5) (VInt 3) = false /\
  num_eqb (VFloat 0) (VFloat (-0)) = true /\
  num_eqb (VInt 1) (VBool true) = true /\
  num_eqb (VFloat nan) (VFloat nan) = false /\
  num_ltb (VFloat neg_infinity) (VInt (- 10 ^ 400)) = true /\
  num_ltb (VInt (2 ^ 53 + 1)) (VFloat 9007199254740992) = false /\
  num_eqb (VInt (2 ^ 53 + 1)) (VFloat 9007199254740992) = false.
Proof. split_and!; reflexivity. Qed.

(** On floats the exact comparison is the one of the processor. *)
Example float_comparisons :
  num_ltb (VFloat 0.1) (VFloat 0.2) = (0.1 <? 0.2)%float /\
  num_ltb (VFloat (-5e-324)) (VFloat 0) = (-5e-324 <? 0)%float /\
  num_ltb (VFloat 1.7e308) (VFloat infinity) = (1.7e308 <? infinity)%float /\
  num_eqb (VFloat 0.1) (VFloat (0.3 - 0.2)) = (0.1 =? 0.3 - 0.2)%float /\
  num_eqb (VFloat 0) (VFloat (-0)) = (0 =? -0)%float.
Proof. split_and!; reflexivity. Qed.

Example conversion_examples :
  int_to_float (DBL_OVERFLOW - 1) = Ok 1.7976931348623157e308%float /\
  int_to_float DBL_OVERFLOW = Raise OverflowError /\
  int_truediv 95 100 = Ok 0.95%float /\
  int_truediv 1 3 = Ok (1 / 3)%float /\
  int_truediv (10 ^ 400) 1 = Raise OverflowError /\
  float_trunc (-2.9) = -2 /\ float_is_whole 2 = true /\ float_is_whole 2.5 = false.
Proof. split_and!; reflexivity. Qed.

Example text_examples :
  py_strip "  bho pal  " = "bho pal" /\ py_upper "bhopal 1" = "BHOPAL 1" /\
  py_lower " INF" = " inf" /\ py_strip "   " = "".
Proof. split_and!; reflexivity. Qed.

(** Text beyond ASCII: the blanks are those of [str.isspace()] (the no-break
    space, the em space and the ideographic space among them, the
    zero-width space not), and an upper-case form may be longer than the
    character. *)
Example unicode_examples :
  py_strip "  bhopal " = "bhopal" /\
  py_strip "　 " = "" /\
  py_strip "​x​" = "​x​" /\
  py_upper "é" = "É" /\
  py_upper "straße" = "STRASSE" /\
  py_upper "ﬁ" = "FI" /\
  py_upper "ŉ" = "ʼN" /\
  py_upper "भोपाल" = "भोपाल" /\
  py_upper "𐐨" = "𐐀" /\
  py_upper (py_strip " mé ") = "MÉ" /\
  characters "aé€𐐨" = ["a"; "é"; "€"; "𐐨"].
Proof. split_and!; reflexivity. Qed.

(** Names beyond ASCII: a no-break space after the name is stripped, and
    the upper-case form of é is É, so that é itself is not a name in upper
    case. *)
Example names_beyond_ascii :
  find_district_data
    (VList [VDict [("name", VStr "bhopal ")]; VDict [("name", VStr "BHOPAL")]])
    "BHOPAL" "name" = Ok (VDict [("name", VStr "bhopal ")]) /\
  find_district_data (VList [VDict [("name", VStr "é")]]) "é" "name" = Ok VNone /\
  find_district_data (VList [VDict [("name", VStr "é")]]) "É" "name" =
    Ok (VDict [("name", VStr "é")]).
Proof. split_and!; reflexivity. Qed.

Example safe_get_examples :
  safe_get (VDict [("a", VDict [("b", VInt 1)])]) ["a"; "b"] VNone = VInt 1 /\
  safe_get (VDict [("a", VInt 1)]) ["a"; "b"] (VInt 7) = VInt 7 /\
  safe_get (VDict [("a", VFloat nan)]) ["a"] (VInt 7) = VInt 7 /\
  safe_get (VDict [("a", VNone)]) ["a"] (VInt 7) = VInt 7 /\
  safe_get (VList []) [] (VInt 7) = VInt 7.
Proof. split_and!; reflexivity. Qed.

(** The end-to-end scenario: A and B tie at 18.5, C has 12. *)
Example scenario_ranks :
  (m ← calculate_ranks [scored "A" 18.5; scored "B" 18.5; scored "C" 12];
   Ok (m !! "A", m !! "B", m !! "C")) = Ok (Some 1, Some 1, Some 3).
Proof. reflexivity. Qed.

Example scenario_extrema :
  get_top_bottom_by_field scenario "score" [] "name" true =
    {| top := scenario !! 0%nat; bottom := scenario !! 2%nat |} /\
  get_top_bottom_by_field scenario "count" [] "name" true =
    {| top := scenario !! 2%nat; bottom := scenario !! 1%nat |}.
Proof. split; reflexivity. Qed.

(** The ranking of a batch after its totals: the district whose sum raised
    has no rank, and a district whose sum overflowed is ranked with 0.0. *)
Example batch_ranks :
  (m ← calculate_ranks (district_of ∘ snd <$> calculate_total_marks failing_batch);
   Ok (m !! "A", m !! "B")) = Ok (None, Some 1) /\
  (m ← calculate_ranks
         (district_of ∘ snd <$>
            calculate_total_marks (("C", overflowing_district) :: failing_batch));
   Ok (m !! "A", m !! "B")) = Ok (Some 2, Some 1).
Proof. split; reflexivity. Qed.

Example calculate_change_examples :
  @_calculate_change no_text (VFloat 0.3) (VFloat 0.1) = Ok (VFloat 0.2) /\
  @_calculate_change no_text (VInt 5) VNone = Ok VNone /\
  @_calculate_change no_text (VFloat nan) (VInt 1) = Ok VNone /\
  @_calculate_change no_text (VList []) (VInt 1) = Ok VNone /\
  @_calculate_change no_text (VInt (10 ^ 400)) VNone = Raise OverflowError.
Proof. split_and!; reflexivity. Qed.

Example grade_examples :
  get_grade_class (VFloat 12.5) (VInt 30)
    (VDict [("average", VFloat 10); ("median", VFloat 9)]) = Ok "grade-badge excellent" /\
  get_grade_class (VFloat 6.3) (VInt 30)
    (VDict [("average", VFloat 10); ("median", VFloat 9)]) = Ok "grade-badge poor" /\
  get_grade_class (VFloat 6.2) (VInt 30)
    (VDict [("average", VFloat 10); ("median", VNone)]) = Ok "grade-badge very-poor" /\
  get_grade_class (VInt 10) (VInt 0) VNone = Ok "grade-badge" /\
  get_grade_label (VStr "10") (VInt 100) VNone = Ok "N/A".
Proof. split_and!; reflexivity. Qed.

(** * Closed examples *)

(** Scores [10, 10, 8] are ranked [1, 1, 3]. *)
Lemma calculate_ranks_competition_witness :
  exists m, calculate_ranks tied_scores = Ok m /\
    m !! "A" = Some 1 /\ m !! "B" = Some 1 /\ m !! "C" = Some 3.
Proof.
  destruct (calculate_ranks_competition tied_scores) as (m & Hm & _ & Hrank).
  - repeat constructor; discriminate.
  - repeat (apply NoDup_cons_2;
            [intros Hin;
             repeat (apply elem_of_cons in Hin as [Hin|Hin]; [discriminate Hin|]);
             by apply elem_of_nil in Hin|]).
    apply NoDup_nil_2.
  - reflexivity.
  - exists m. split; [exact Hm|]. split_and!.
    + apply (Hrank (scored "A" 10)); [repeat constructor|reflexivity].
    + apply (Hrank (scored "B" 10)); [repeat constructor|reflexivity].
    + apply (Hrank (scored "C" 8)); [repeat constructor|reflexivity].
Defined.

Lemma calculate_ranks_order_independent_witness :
  calculate_ranks (scored "C" 8 :: [scored "A" 10; scored "B" 10]) =
  calculate_ranks ([scored "A" 10; scored "B" 10] ++ [scored "C" 8]).
Proof.
  apply calculate_ranks_order_independent. apply Permutation_cons_append.
Defined.

(** The first district's sum raises and its total is null; the second
    district still gets its total. *)
Lemma total_marks_failure_isolated_witness :
  (exists d, calculate_total_marks failing_batch !! 0%nat = Some ("A", d) /\
     dict_get d TOTAL_MARKS_KEY = VNone) /\
  (exists d, calculate_total_marks failing_batch !! 1%nat = Some ("B", d) /\
     dict_get d TOTAL_MARKS_KEY = VFloat 6.38).
Proof.
  split.
  - destruct (total_marks_failure_isolated failing_batch 0 "A"
                [("name", VStr "A"); ("performance", VNone)] eq_refl)
      as ((d & Hd & Ht) & Hraise & _).
    exists d. split; [exact Hd|].
    rewrite Ht. by apply (Hraise AttributeError).
  - destruct (total_marks_failure_isolated failing_batch 1 "B" _ eq_refl)
      as ((d & Hd & Ht) & _).
    exists d. split; [exact Hd|]. rewrite Ht. reflexivity.
Defined.

(** The sum overflows to infinity; the total is 0.0, a score like any other. *)
Lemma total_marks_overflow_counterexample :
  add_marks overflowing_district = Ok (VFloat infinity) /\
  total_marks_of overflowing_district = VFloat 0 /\
  valid_marks (total_marks_of overflowing_district) = Ok true.
Proof. split_and!; reflexivity. Qed.

(** A record whose compared value is infinite is kept, and is both top and
    bottom. *)
Lemma get_top_bottom_infinite_counterexample :
  finite_number (compared_value "marks" [] infinite_record) = false /\
  get_top_bottom_by_field [infinite_record] "marks" [] "name" true =
  {| top := Some infinite_record; bottom := Some infinite_record |}.
Proof. split; reflexivity. Qed.

(** A name with a leading blank and lower-case letters is stored as it is. *)
Lemma process_component_data_untrimmed_counterexample :
  @FarmPonds.state_results_processed no_text [untrimmed_record] =
  Ok [VDict [("name", VStr " bhopal"); ("actual_count", VInt 3);
             ("marks", VFloat 12); ("target", VStr "N/A");
             ("achievement_percentage", VStr "N/A")]] /\
  py_upper (py_strip " bhopal") = "BHOPAL" /\
  VStr " bhopal" <> VStr (py_upper (py_strip " bhopal")).
Proof. split_and!; [reflexivity|reflexivity|discriminate]. Qed.



(** The grades of 95, 75, 55, 35 and 10 out of 100, without state
    statistics. *)
Lemma get_grade_label_spec_witness :
  get_grade_label (VInt 95) (VInt 100) VNone = Ok (band_label excellent) /\
  get_grade_label (VInt 75) (VInt 100) VNone = Ok (band_label good) /\
  get_grade_label (VInt 55) (VInt 100) VNone = Ok (band_label average) /\
  get_grade_label (VInt 35) (VInt 100) VNone = Ok (band_label poor) /\
  get_grade_label (VInt 10) (VInt 100) VNone = Ok (band_label very_poor).
Proof.
  split_and!.
  all: match goal with
       | |- get_grade_label ?v ?m ?s = _ =>
           rewrite (get_grade_label_spec v m s eq_refl eq_refl eq_refl)
       end.
  all: reflexivity.
Defined.

(** Between the two snapshots one category is unchanged and one has changed:
    only the second one is in the map. *)
Lemma individual_changes_sparse_witness :
  exists m, @OldWorks.individual_work_type_changes no_text snapshot_today snapshot_yesterday
            = Ok m /\
    m !! "Talab Nirman" = None /\
    m !! "Khet Talab" =
      Some {| OldWorks.completed_change := 1; OldWorks.marks_change := 0.25 |}.
Proof.
  destruct (@individual_changes_sparse no_text snapshot_today snapshot_yesterday)
    as (m & Hm & Hiff).
  - intros c Hc. unfold OldWorks.OLD_NRM_TARGET_CATEGORIES in Hc.
    repeat (apply elem_of_cons in Hc as [-> | Hc]; [eexists; reflexivity|]).
    by apply elem_of_nil in Hc.
  - exists m. split; [exact Hm|]. split.
    + apply eq_None_not_Some. intros [e He].
      apply Hiff in He as (_ & He & Hnz). injection He as <-.
      destruct Hnz as [Hnz | Hnz]; [by apply Hnz|discriminate Hnz].
    + apply Hiff. split_and!; [|reflexivity|by left].
      unfold OldWorks.OLD_NRM_TARGET_CATEGORIES. repeat constructor.
Defined.

(** * Closed examples of the aggregation and of the ranks *)

Ltac solve_NoDup :=
  repeat (apply NoDup_cons_2;
          [intros Hin;
           repeat (apply elem_of_cons in Hin as [Hin|Hin]; [discriminate Hin|]);
           by apply elem_of_nil in Hin|]);
  apply NoDup_nil_2.

(** The record of BHOPAL: 1.5 + 2.25 + 3.126 is stored as 6.88. *)
Lemma aggregation_total_marks_witness :
  exists s, add_marks sample_record = Ok (VFloat s) /\
    dict_get sample_record TOTAL_MARKS_KEY =
    VFloat (round2 (if is_nan s || is_infinity s then 0%float else s)) /\
    dict_get sample_record TOTAL_MARKS_KEY = VFloat 6.88.
Proof.
  destruct (@aggregation_total_marks no_text sample_api sample_date sample_state
              "BHOPAL" sample_record eq_refl (list_elem_of_here _ _))
    as (_ & s & Hs & Ht).
  exists s. split_and!; [exact Hs|exact Ht|reflexivity].
Defined.

(** BHOPAL is filed because the farm ponds list it, INDORE because the
    performance marks list it as Indore. *)
Lemma aggregation_districts_witness :
  "BHOPAL" ∈ (all_districts_processed sample_state).*1 /\
  "INDORE" ∈ (all_districts_processed sample_state).*1.
Proof.
  split.
  - apply (@aggregation_districts no_text sample_api sample_date sample_state "BHOPAL" eq_refl).
    eexists (_, _), _. split_and!; [right; left|left|reflexivity].
  - apply (@aggregation_districts no_text sample_api sample_date sample_state "INDORE" eq_refl).
    eexists (_, _), _. split_and!; [left|right; left|reflexivity].
Defined.

(** BHOPAL, with 6.88, is first; INDORE, with 2.0, is second. *)
Lemma aggregation_ranks_witness :
  exists m,
    calculate_ranks (district_of <$> (all_districts_processed sample_state).*2) = Ok m /\
    m !! "BHOPAL" = Some 1 /\ m !! "INDORE" = Some 2.
Proof.
  destruct (@aggregation_ranks no_text sample_api sample_date sample_state eq_refl)
    as (m & Hm & Hrank & _).
  exists m. split; [exact Hm|]. split.
  - rewrite (Hrank "BHOPAL" sample_record); [reflexivity|left].
  - rewrite (Hrank "INDORE"
               (match all_districts_processed sample_state with
                | _ :: (_, rec) :: _ => rec
                | _ => []
                end)); [reflexivity|right; left].
Defined.

(** A, with 10, is ranked before C, with 8, and level with B, with 10. *)
Lemma ranks_follow_marks_witness :
  exists m, calculate_ranks tied_scores = Ok m /\
    (forall ra rc, m !! "A" = Some ra -> m !! "C" = Some rc -> ra < rc) /\
    (forall ra rb, m !! "A" = Some ra -> m !! "B" = Some rb -> ra = rb).
Proof.
  destruct (ranks_follow_marks tied_scores) as (m & Hm & Hord).
  - repeat constructor; discriminate.
  - solve_NoDup.
  - reflexivity.
  - exists m. split; [exact Hm|]. split.
    + intros ra rc Ha Hc.
      apply (Hord (scored "A" 10) (scored "C" 8) ra rc); [repeat constructor..|done|done|reflexivity].
    + intros ra rb Ha Hb.
      apply (Hord (scored "A" 10) (scored "B" 10) ra rb); [repeat constructor..|done|done|reflexivity].
Defined.

(** With three ranked districts no rank exceeds 3, and rank 1 is taken. *)
Lemma ranks_bounds_witness :
  exists m, calculate_ranks tied_scores = Ok m /\
    (forall n r, m !! n = Some r -> 1 <= r <= 3) /\
    (forall n r, m !! n = Some r -> exists n1, m !! n1 = Some 1).
Proof.
  destruct (ranks_bounds tied_scores) as (m & Hm & Hb & Hfirst).
  - repeat constructor; discriminate.
  - solve_NoDup.
  - reflexivity.
  - exists m. split_and!; [exact Hm|exact Hb|exact Hfirst].
Defined.

(** A and B tie for the best score and B and C are apart: the top is A, the
    first of the two. *)
Lemma top_bottom_ties_witness :
  head (List.filter (fun x => num_eqb (compared_value "score" [] x) (VFloat 18.5)) scenario)
  = scenario !! 0%nat.
Proof.
  destruct (top_bottom_ties scenario "score" [] "name" true
              (VDict [("name", VStr "A"); ("score", VFloat 18.5); ("count", VInt 100)])
              (VDict [("name", VStr "C"); ("score", VFloat 12); ("count", VInt 200)])
              eq_refl) as [Ht _].
  exact Ht.
Defined.

(** The performers of the aggregated districts: BHOPAL is the top and is
    ranked first. *)
Lemma performers_ranks_witness :
  exists m p,
    calculate_ranks (district_of <$> (all_districts_processed sample_state).*2) = Ok m /\
    state_performers (all_districts_processed sample_state) = Ok p /\
    top_performer p = VDict [("name", VStr "BHOPAL"); ("score", VFloat 6.88)] /\
    bottom_performer p = VDict [("name", VStr "INDORE"); ("score", VFloat 2)].
Proof.
  destruct (performers_ranks (all_districts_processed sample_state)) as (m & p & Hm & Hp & _).
  - split; [solve_NoDup|].
    repeat constructor; simpl; try discriminate; reflexivity.
  - repeat constructor.
  - exists m, p. split; [exact Hm|]. split; [exact Hp|].
    assert (E : Ok p = Ok {| top_performer :=
                               VDict [("name", VStr "BHOPAL"); ("score", VFloat 6.88)];
                             bottom_performer :=
                               VDict [("name", VStr "INDORE"); ("score", VFloat 2)] |}).
    { rewrite <- Hp. reflexivity. }
    injection E as ->. split; reflexivity.
Defined.

(** The path a, b read in one call and in two. *)
Lemma safe_get_compose_witness :
  safe_get (VDict [("a", VDict [("b", VInt 1)])]) (["a"] ++ ["b"]) (VInt 7) =
  safe_get (safe_get (VDict [("a", VDict [("b", VInt 1)])]) ["a"] VNone) ["b"] (VInt 7).
Proof. apply safe_get_compose. discriminate. Defined.

(** The farm ponds list Bhopal in lower case and with blanks; it is found
    under the name the aggregation files it under. *)
Lemma find_district_data_filed_witness :
  exists found,
    find_district_data
      (VList [VDict [("name", VStr "Indore")]; VDict [("name", VStr " bhopal ")]])
      "BHOPAL" "name" = Ok found /\
    found = VDict [("name", VStr " bhopal ")].
Proof.
  destruct (find_district_data_filed
              {| Config.endpoint := "/report_jsm/farm-ponds-marks";
                 Config.results_key := "results"; Config.name_key := "name";
                 Config.marks_key := Some "marks"; Config.count_key := Some "actual_count";
                 Config.target_key := None; Config.use_date_param := true |}
              [VDict [("name", VStr "Indore")]; VDict [("name", VStr " bhopal ")]]
              (VDict [("name", VStr " bhopal ")]) "BHOPAL")
    as (found & Hfound & _).
  - right; left.
  - reflexivity.
  - exists found. split; [exact Hfound|].
    assert (E : Ok found = Ok (VDict [("name", VStr " bhopal ")])).
    { rewrite <- Hfound. reflexivity. }
    by injection E.
Defined.

(** Of six named panchayats the five with the highest counts are listed:
    the one with count 1 is left out, and the one without a name is never
    considered. *)
Lemma top_5_panchayats_highest_witness :
  ((fun x => FarmPonds.field x "name") <$> sample_top5) =
    [VStr "P2"; VStr "P4"; VStr "P5"; VStr "P1"; VStr "P6"] /\
  exists all,
    @FarmPonds.panchayat_processed_list no_text sample_panchayats = Ok all /\
    length sample_top5 = Nat.min 5 (length all).
Proof.
  split; [reflexivity|].
  pose proof (@top_5_panchayats_highest no_text sample_panchayats sample_top5 eq_refl) as W.
  cbv zeta in W. destruct W as (all & Hall & Hlen & _).
  exists all. split; [exact Hall|exact Hlen].
Defined.

(** Two blocks: the one with the higher count comes first. *)
Lemma block_level_data_sorted_witness :
  ((fun x => FarmPonds.field x "name") <$> sample_block_level_data) =
    [VStr "B2"; VStr "B1"] /\
  StronglySorted (in_order (fun x => FarmPonds.field x FarmPonds.COUNT_KEY) true)
    sample_block_level_data.
Proof.
  split; [reflexivity|].
  destruct (@block_level_data_sorted no_text (fun _ => sample_panchayats) sample_blocks
              sample_block_level_data eq_refl) as (Hsorted & _).
  exact Hsorted.
Defined.

(** With an average of 10 and a median of 9, the grade of 12.5 is not lower
    than the grade of 6.3. *)
Lemma grade_monotone_witness :
  exists b1 b2,
    get_grade_label (VFloat 6.3) (VInt 30)
      (VDict [("average", VFloat 10); ("median", VFloat 9)]) = Ok (band_label b1) /\
    get_grade_label (VFloat 12.5) (VInt 30)
      (VDict [("average", VFloat 10); ("median", VFloat 9)]) = Ok (band_label b2) /\
    band_rank b1 <= band_rank b2.
Proof.
  apply grade_monotone; try reflexivity. by eexists.
Defined.

(** A count of 7 against a mean of 5.5 and a median of 6. *)
Lemma completion_status_of_position_witness :
  exists text,
    Position.comparison (VInt 7) (VFloat 5.5) (VInt 6) = Ok text /\
    get_completion_status_text (VStr text) = Ok "उत्कृष्ट (राज्य औसत से बेहतर)".
Proof.
  apply (completion_status_of_position (VInt 7) (VFloat 5.5) (VInt 6));
    [reflexivity|left; reflexivity|left; reflexivity].
Defined.

(** 6.88 today and 6.88 yesterday: the change is 0. *)
Lemma calculate_change_unchanged_witness :
  @_calculate_change no_text (VFloat 6.88) (VFloat 6.88) = Ok (VInt 0).
Proof. apply (@calculate_change_unchanged no_text (VFloat 6.88)). reflexivity. Defined.

(** B, with 5.5, leads Khet Talab; Talab Nirman has no leader. *)
Lemma category_leaders_highest_witness :
  (exists category_leaders,
     find_category_leaders sample_districts = Some category_leaders /\
     dict_get category_leaders "Khet Talab" =
       VDict [("name", VStr "B");
              ("category_details", VDict [("completed", VInt 4); ("marks", VFloat 5.5)])] /\
     dict_get category_leaders "Talab Nirman" = no_leader) /\
  match find_category_leaders sample_districts with
  | Some category_leaders =>
      (exists d m, d ∈ sample_districts /\
         competing_marks "Khet Talab" d = Some m /\
         num_ltb (VFloat (-1)) m = true /\
         dict_get category_leaders "Khet Talab" = leader_entry "Khet Talab" d /\
         forall d' m', d' ∈ sample_districts ->
                       competing_marks "Khet Talab" d' = Some m' -> num_ltb m m' = false) \/
      (dict_get category_leaders "Khet Talab" = no_leader /\
       forall d' m', d' ∈ sample_districts ->
                     competing_marks "Khet Talab" d' = Some m' ->
                     num_ltb (VFloat (-1)) m' = false)
  | None => exists d, d ∈ sample_districts /\ nameless d
  end.
Proof.
  split.
  - eexists. split_and!; reflexivity.
  - apply (category_leaders_highest sample_districts "Khet Talab"); [discriminate|].
    unfold OldWorks.OLD_NRM_TARGET_CATEGORIES. repeat constructor.
Defined.

(** Khet Talab went from 3 to 5, Koop Nirman stayed at 2: only the first is
    in the changes. *)
Lemma block_changes_of_counts_witness :
  exists m,
    @Blocks.block_changes no_text counts_today counts_yesterday
      OldWorks.OLD_NRM_TARGET_CATEGORIES = Ok m /\
    m !! "Khet Talab" = Some 2 /\ m !! "Koop Nirman" = None.
Proof.
  destruct (@block_changes_of_counts no_text block_today block_yesterday
              counts_today counts_yesterday OldWorks.OLD_NRM_TARGET_CATEGORIES
              eq_refl eq_refl) as (m & Hm & Hiff).
  - intros c. unfold compared_category. simpl. tauto.
  - exists m. split; [exact Hm|]. split.
    + apply Hiff. split_and!; [|done|by exists 5, 3].
      unfold OldWorks.OLD_NRM_TARGET_CATEGORIES. repeat constructor.
    + apply eq_None_not_Some. intros [ch Hch].
      apply Hiff in Hch as (_ & Hnz & a & b & [= <-] & [= <-] & ->). by apply Hnz.
Defined.
